(** * API catalog core: a shallow embedding of the Python sources

    The development follows the layout of the package
    [api_catalog_mcp.catalog]: a model of the JSON-shaped Python values the
    code manipulates, then one module per source file ([resolve.py],
    [payloads.py], [validate.py], [model.py], [ingest.py], [index.py],
    [engine.py]), then the properties of the catalog core. *)

From Stdlib Require Import String Ascii ZArith QArith Qcanon List Bool Lia Permutation.
From Stdlib Require Import FunctionalExtensionality.
From Stdlib Require Import DecimalString DecimalNat.
From stdpp Require Import base gmap sets list strings sorting.

Close Scope Q_scope. Close Scope Qc_scope.
Local Open Scope string_scope.
Local Open Scope list_scope.

(** ** Python values

    Everything the catalog handles is the result of [json.loads] or
    [yaml.safe_load]: [None], booleans, integers, floats, strings, lists and
    string-keyed dictionaries.  Python's [None] is [JNull].  A finite float is
    the rational it denotes, so [==] on numbers is equality of rationals.
    A dictionary keeps its insertion order: it is an association list whose
    keys are pairwise distinct. *)

Unset Elimination Schemes.
Inductive json : Type :=
| JNull
| JBool (b : bool)
| JInt (n : Z)
| JFloat (q : Q)
| JStr (s : string)
| JList (l : list json)
| JDict (d : list (string * json)).
Set Elimination Schemes.

Definition dict := list (string * json).

(** Induction on JSON values: the members of lists and mappings satisfy
    the property. *)
Section JsonInduction.
Variable P : json -> Prop.
Hypothesis Hnull : P JNull.
Hypothesis Hbool : forall b, P (JBool b).
Hypothesis Hint : forall n, P (JInt n).
Hypothesis Hfloat : forall q, P (JFloat q).
Hypothesis Hstr : forall s, P (JStr s).
Hypothesis Hlist : forall l, Forall P l -> P (JList l).
Hypothesis Hdict : forall d, Forall (fun kv => P (snd kv)) d -> P (JDict d).

Fixpoint json_ind (v : json) : P v :=
  match v with
  | JNull => Hnull
  | JBool b => Hbool b
  | JInt n => Hint n
  | JFloat q => Hfloat q
  | JStr s => Hstr s
  | JList l =>
      Hlist l ((fix all (l : list json) : Forall P l :=
                  match l with
                  | [] => @List.Forall_nil _ P
                  | x :: l' => @List.Forall_cons _ P x l' (json_ind x) (all l')
                  end) l)
  | JDict d =>
      Hdict d ((fix all (d : dict) : Forall (fun kv => P (snd kv)) d :=
                  match d with
                  | [] => @List.Forall_nil _ _
                  | kv :: d' => @List.Forall_cons _ _ kv d' (json_ind (snd kv)) (all d')
                  end) d)
  end.
End JsonInduction.

(** Exceptions the modelled code can raise. *)
Inductive exn : Type :=
| TypeError (msg : string)
| AttributeError (msg : string)
| KeyError (key : string)
| OSError (msg : string)
| OperationalError (msg : string)
| IntegrityError (msg : string)
| DerefError (msg : string)
| UnicodeDecodeError (msg : string).

Inductive result (A : Type) : Type :=
| Ok (a : A)
| Raise (e : exn).
Arguments Ok {A} a.
Arguments Raise {A} e.

Global Instance result_ret : MRet result := fun A a => Ok a.
Global Instance result_bind : MBind result := fun A B k r =>
  match r with
  | Ok a => k a
  | Raise e => Raise e
  end.

(** *** Dictionaries *)

(** [key in d] *)
Fixpoint dhas (k : string) (d : dict) : bool :=
  match d with
  | [] => false
  | (k', _) :: d' => if String.eqb k k' then true else dhas k d'
  end.

(** [d.get(key)]: [None] when the key is missing. *)
Fixpoint pyget (k : string) (d : dict) : json :=
  match d with
  | [] => JNull
  | (k', v) :: d' => if String.eqb k k' then v else pyget k d'
  end.

(** [d.get(key, default)] *)
Definition pyget_default (k : string) (dflt : json) (d : dict) : json :=
  if dhas k d then pyget k d else dflt.

(** [d[key]] *)
Definition getitem (k : string) (d : dict) : result json :=
  if dhas k d then Ok (pyget k d) else Raise (KeyError k).

(** [d[key] = value]: an existing key keeps its position. *)
Fixpoint dset (k : string) (v : json) (d : dict) : dict :=
  match d with
  | [] => [(k, v)]
  | (k', v') :: d' =>
      if String.eqb k k' then (k, v) :: d' else (k', v') :: dset k v d'
  end.

Definition dkeys (d : dict) : list string := map fst d.

(** [{**a, **b}] *)
Definition dmerge (a b : dict) : dict :=
  fold_left (fun acc kv => dset (fst kv) (snd kv) acc) b a.

(** *** Type tests, truthiness and equality *)

Definition is_dict (v : json) : bool :=
  match v with JDict _ => true | _ => false end.
Definition is_list (v : json) : bool :=
  match v with JList _ => true | _ => false end.
Definition is_str (v : json) : bool :=
  match v with JStr _ => true | _ => false end.
Definition is_none (v : json) : bool :=
  match v with JNull => true | _ => false end.

(** [bool(v)] *)
Definition truthy (v : json) : bool :=
  match v with
  | JNull => false
  | JBool b => b
  | JInt n => negb (Z.eqb n 0)
  | JFloat q => negb (Qeq_bool q 0)
  | JStr s => negb (String.eqb s "")
  | JList l => match l with [] => false | _ => true end
  | JDict d => match d with [] => false | _ => true end
  end.

(** The number a Python value compares as, if it is one ([True == 1]). *)
Definition as_number (v : json) : option Q :=
  match v with
  | JBool b => Some (inject_Z (if b then 1 else 0))
  | JInt n => Some (inject_Z n)
  | JFloat q => Some q
  | _ => None
  end.

(** [a == b] on JSON-shaped values: numbers by value, lists elementwise,
    dictionaries as unordered maps. *)
Fixpoint py_eq (a b : json) {struct a} : bool :=
  match a, b with
  | JNull, JNull => true
  | JStr s, JStr t => String.eqb s t
  | JList l, JList m =>
      (fix go (l m : list json) {struct l} : bool :=
         match l, m with
         | [], [] => true
         | x :: l', y :: m' => py_eq x y && go l' m'
         | _, _ => false
         end) l m
  | JDict d, JDict e =>
      Nat.eqb (length d) (length e) &&
      (fix go (d : dict) {struct d} : bool :=
         match d with
         | [] => true
         | (k, v) :: d' => dhas k e && py_eq v (pyget k e) && go d'
         end) d
  | _, _ =>
      match as_number a, as_number b with
      | Some x, Some y => Qeq_bool x y
      | _, _ => false
      end
  end.

(** [x in xs] for a list *)
Definition py_in_list (x : json) (xs : list json) : bool :=
  existsb (py_eq x) xs.

(** *** Strings *)

(** [s.startswith(p)] *)
Definition startswith (p s : string) : bool := String.prefix p s.

(** [s[n:]] *)
Definition str_drop (n : nat) (s : string) : string :=
  String.substring n (String.length s - n) s.

(** [s.endswith(p)] *)
Definition endswith (p s : string) : bool :=
  Nat.leb (String.length p) (String.length s) &&
  String.eqb (str_drop (String.length s - String.length p) s) p.

(** [p in s] for strings *)
Fixpoint str_contains (p s : string) : bool :=
  String.prefix p s ||
  match s with
  | EmptyString => false
  | String _ s' => str_contains p s'
  end.

(** [s.split(c)] for a one-character separator: every occurrence splits,
    empty parts are kept. *)
Fixpoint str_split (c : ascii) (s : string) : list string :=
  match s with
  | EmptyString => [EmptyString]
  | String a s' =>
      if Ascii.eqb a c then EmptyString :: str_split c s'
      else match str_split c s' with
           | [] => [String a EmptyString]
           | p :: ps => String a p :: ps
           end
  end.

(** [s.replace(old, new)] for a two-character [old]. *)
Fixpoint str_replace2 (o1 o2 : ascii) (new : string) (s : string) : string :=
  match s with
  | EmptyString => EmptyString
  | String a EmptyString => s
  | String a ((String b s'') as s') =>
      if Ascii.eqb a o1 && Ascii.eqb b o2
      then (new ++ str_replace2 o1 o2 new s'')%string
      else String a (str_replace2 o1 o2 new s')
  end.

(** Character classes of Python's [str] methods for code points below 256:
    [str.isspace] (also what [strip()] and [split()] remove),
    [str.isalnum] and [str.lower]. *)
Definition code (c : ascii) : nat := nat_of_ascii c.

Definition between (lo hi n : nat) : bool := Nat.leb lo n && Nat.leb n hi.

Definition isspace (c : ascii) : bool :=
  let n := code c in
  between 9 13 n || between 28 32 n || Nat.eqb n 133 || Nat.eqb n 160.


Definition lower_char (c : ascii) : ascii :=
  let n := code c in
  if between 65 90 n || between 192 214 n || between 216 222 n
  then ascii_of_nat (n + 32) else c.

(** [s.lower()] *)
Fixpoint lower (s : string) : string :=
  match s with
  | EmptyString => EmptyString
  | String c s' => String (lower_char c) (lower s')
  end.

(** [s.lstrip()], [s.rstrip()], [s.strip()] *)
Fixpoint lstrip (s : string) : string :=
  match s with
  | EmptyString => EmptyString
  | String c s' => if isspace c then lstrip s' else s
  end.

Fixpoint rstrip (s : string) : string :=
  match s with
  | EmptyString => EmptyString
  | String c s' =>
      match rstrip s' with
      | EmptyString => if isspace c then EmptyString else String c EmptyString
      | rest => String c rest
      end
  end.

Definition strip (s : string) : string := rstrip (lstrip s).

(** [s.split()]: the maximal runs of non-whitespace characters. *)
Fixpoint split_ws (s : string) : list string :=
  match s with
  | EmptyString => []
  | String c s' =>
      if isspace c then split_ws s'
      else
        match split_ws s', s' with
        | word :: words, String c' _ =>
            if isspace c' then String c EmptyString :: word :: words
            else String c word :: words
        | words, _ => String c EmptyString :: words
        end
  end.

(** [sep.join(parts)] *)
Definition join (sep : string) (parts : list string) : string :=
  String.concat sep parts.

(** *** Sorting

    [sorted] is stable; insertion from the right keeps equal keys in their
    original order. *)
Section Sorted.
Context {A : Type} (leb : A -> A -> bool).

Fixpoint insert_sorted (x : A) (l : list A) : list A :=
  match l with
  | [] => [x]
  | y :: l' => if leb x y then x :: l else y :: insert_sorted x l'
  end.

Definition py_sorted (l : list A) : list A :=
  fold_right insert_sorted [] l.
End Sorted.

Definition sorted_strings : list string -> list string := py_sorted String.leb.

(** [a < b] on JSON-shaped values: strings and numbers among themselves,
    lists lexicographically; anything else is a [TypeError]. *)
Fixpoint py_lt (a b : json) {struct a} : result bool :=
  match a, b with
  | JStr s, JStr t => Ok (String.ltb s t)
  | JList l, JList m =>
      (fix go (l m : list json) {struct l} : result bool :=
         match l, m with
         | [], [] => Ok false
         | [], _ :: _ => Ok true
         | _ :: _, [] => Ok false
         | x :: l', y :: m' => if py_eq x y then go l' m' else py_lt x y
         end) l m
  | _, _ =>
      match as_number a, as_number b with
      | Some x, Some y => Ok (negb (Qle_bool y x))
      | _, _ => Raise (TypeError "'<' not supported between instances")
      end
  end.

(** [sorted(xs, key=key)] when the keys are arbitrary values: the sort is
    stable and raises as soon as it compares two keys that have no order. *)
Section SortedByKey.
Context {A : Type} (key : A -> json).

Fixpoint insert_by_key (x : A) (l : list A) : result (list A) :=
  match l with
  | [] => Ok [x]
  | y :: l' =>
      before ← py_lt (key y) (key x);
      if (before : bool) then rest ← insert_by_key x l'; Ok (y :: rest)
      else Ok (x :: l)
  end.

Fixpoint sorted_by_key (l : list A) : result (list A) :=
  match l with
  | [] => Ok []
  | x :: l' => rest ← sorted_by_key l'; insert_by_key x rest
  end.
End SortedByKey.

(** Lexicographic order on pairs and triples of strings *)
Definition pair_leb (a b : string * string) : bool :=
  String.ltb (fst a) (fst b)
  || (String.eqb (fst a) (fst b) && String.leb (snd a) (snd b)).

Definition triple_leb (a b : string * string * string) : bool :=
  String.ltb (fst (fst a)) (fst (fst b))
  || (String.eqb (fst (fst a)) (fst (fst b))
      && pair_leb (snd (fst a), snd a) (snd (fst b), snd b)).

(** [set(xs)] followed by iteration: the elements without repetition. *)
Fixpoint dedupe (l : list string) : list string :=
  match l with
  | [] => []
  | x :: l' => if existsb (String.eqb x) l' then dedupe l' else x :: dedupe l'
  end.

(** *** Further operations on values *)

(** [str(n)] for a natural number *)
Definition str_of_nat (n : nat) : string :=
  NilEmpty.string_of_uint (Nat.to_uint n).

(** [v == "literal"] *)
Definition str_is (v : json) (s : string) : bool :=
  match v with JStr t => String.eqb t s | _ => false end.

(** [v in {"a", "b"}]: membership in a set hashes [v]. *)
Definition in_str_set (v : json) (opts : list string) : result bool :=
  match v with
  | JList _ | JDict _ => Raise (TypeError "unhashable type")
  | JStr s => Ok (existsb (String.eqb s) opts)
  | _ => Ok false
  end.

(** [v in d] for a dictionary [d] *)
Definition in_dict (v : json) (d : dict) : result bool :=
  match v with
  | JList _ | JDict _ => Raise (TypeError "unhashable type")
  | JStr s => Ok (dhas s d)
  | _ => Ok false
  end.

(** [for x in v]: the elements a Python value iterates over. *)
Definition chars_of (s : string) : list json :=
  map (fun c => JStr (String c EmptyString)) (list_ascii_of_string s).

Definition py_iter (v : json) : result (list json) :=
  match v with
  | JList l => Ok l
  | JDict d => Ok (map JStr (dkeys d))
  | JStr s => Ok (chars_of s)
  | _ => Raise (TypeError "object is not iterable")
  end.

(** [[item for item in xs if isinstance(item, str)]] *)
Definition strings_in (xs : list json) : list string :=
  omap (fun x => match x with JStr s => Some s | _ => None end) xs.

(** ** resolve.py *)
Module Resolve.

(** [part.replace("~1", "/").replace("~0", "~")] *)
Definition unescape_part (part : string) : string :=
  str_replace2 "~" "0" "~" (str_replace2 "~" "1" "/" part).

(** The [for part in pointer.split("/")] loop of [_resolve_ref_pointer]. *)
Fixpoint walk_pointer (parts : list string) (current : json) : json :=
  match parts with
  | [] => current
  | part :: rest =>
      match current with
      | JDict d =>
          let next := pyget (unescape_part part) d in
          if is_none next then JNull else walk_pointer rest next
      | _ => JNull
      end
  end.

Definition _resolve_ref_pointer (spec : json) (ref : string) : json :=
  if negb (startswith "#/" ref) then JNull
  else
    let pointer := str_drop 2 ref in
    if String.eqb pointer "" then spec
    else walk_pointer (str_split "/" pointer) spec.

(** The recursion of [deep_resolve_refs] follows [$ref] targets into the
    root document, so it is not structural: [fuel] bounds the call depth.
    [seen] is the one mutable set shared by all calls; each call returns
    the set as it leaves it. *)
Definition resolver := json -> gset string -> option (result (json * gset string)).

Fixpoint resolve_each (rec : resolver) (vs : list json) (seen : gset string)
  : option (result (list json * gset string)) :=
  match vs with
  | [] => Some (Ok ([], seen))
  | v :: vs' =>
      match rec v seen with
      | None => None
      | Some (Raise e) => Some (Raise e)
      | Some (Ok (v', seen1)) =>
          match resolve_each rec vs' seen1 with
          | None => None
          | Some (Raise e) => Some (Raise e)
          | Some (Ok (vs'', seen2)) => Some (Ok (v' :: vs'', seen2))
          end
      end
  end.

(** The body of [deep_resolve_refs]; [rec] stands for the recursive calls. *)
Definition deep_resolve_refs_body (rec : resolver) (spec value : json)
    (seen : gset string) : option (result (json * gset string)) :=
  match value with
  | JDict d =>
      match pyget "$ref" d with
      | JStr ref =>
          if decide (ref ∈ seen) then Some (Ok (JDict [], seen))
          else
            let target := _resolve_ref_pointer spec ref in
            if is_none target then Some (Ok (value, seen))
            else
              match rec target ({[ref]} ∪ seen) with
              | None => None
              | Some (Raise e) => Some (Raise e)
              | Some (Ok (resolved, seen')) =>
                  if decide (ref ∈ seen')
                  then Some (Ok (resolved, seen' ∖ {[ref]}))
                  else Some (Raise (KeyError ref))
              end
      | _ =>
          match resolve_each rec (map snd d) seen with
          | None => None
          | Some (Raise e) => Some (Raise e)
          | Some (Ok (vs, seen')) => Some (Ok (JDict (combine (map fst d) vs), seen'))
          end
      end
  | JList l =>
      match resolve_each rec l seen with
      | None => None
      | Some (Raise e) => Some (Raise e)
      | Some (Ok (vs, seen')) => Some (Ok (JList vs, seen'))
      end
  | _ => Some (Ok (value, seen))
  end.

Fixpoint deep_resolve_refs_fuel (fuel : nat) (spec : json) : resolver :=
  match fuel with
  | O => fun _ _ => None
  | S fuel' => deep_resolve_refs_body (deep_resolve_refs_fuel fuel' spec) spec
  end.

(** Nesting height of a value and the strings occurring in it: together
    they bound the depth of the resolution. *)
Fixpoint height (v : json) : nat :=
  match v with
  | JList l => S (list_max (map height l))
  | JDict d => S (list_max (map (fun kv => height (snd kv)) d))
  | _ => 0
  end.

Fixpoint strings_of (v : json) : gset string :=
  match v with
  | JStr s => {[s]}
  | JList l => fold_right (fun x acc => strings_of x ∪ acc) ∅ l
  | JDict d => fold_right (fun kv acc => strings_of (snd kv) ∪ acc) ∅ d
  | _ => ∅
  end.

Definition resolve_budget (spec value : json) : nat :=
  height value + 1 + (size (strings_of spec) + 1) * (height spec + 1).

(** [deep_resolve_refs(value, spec, seen)] with the final state of [seen]. *)
Definition deep_resolve_refs_seen (value spec : json) (seen : gset string)
  : result (json * gset string) :=
  match spec with
  | JNull => Ok (value, seen)
  | _ =>
      match deep_resolve_refs_fuel (resolve_budget spec value) spec value seen with
      | Some r => r
      | None => Ok (value, seen)
      end
  end.

(** [deep_resolve_refs(value, spec)]: [seen] starts as the empty set. *)
Definition deep_resolve_refs (value spec : json) : result json :=
  '(v, _) ← deep_resolve_refs_seen value spec ∅; Ok v.

End Resolve.

(** Calls whose recursion is bounded by fuel return [None] when it runs out
    and otherwise a value or an exception. *)
Definition fueled (A : Type) : Type := option (result A).

Definition fbind {A B} (r : fueled A) (k : A -> fueled B) : fueled B :=
  match r with
  | None => None
  | Some (Raise e) => Some (Raise e)
  | Some (Ok a) => k a
  end.

Definition lift {A} (r : result A) : fueled A := Some r.

(** ** payloads.py *)
Module Payloads.
Import Resolve.

Definition MAX_DEPTH : nat := 3.

(** The libraries the module calls: [hashlib.sha256(...).hexdigest()] and the
    providers of a [Faker] instance, each a function of the state of the
    instance's random generator.  [date()] and [iso8601()], called without
    an [end_datetime], draw a moment between the epoch and now: they are
    functions of that state and of the reading of the clock. *)
Record library : Type := {
  sha256_hexdigest : string -> string;
  email : Z -> string;
  uuid4 : Z -> string;
  first_name : Z -> string;
  last_name : Z -> string;
  name : Z -> string;
  phone_number : Z -> string;
  postcode : Z -> string;
  city : Z -> string;
  country_code : Z -> string;
  street_address : Z -> string;
  url : Z -> string;
  date : Z -> Z -> string;
  iso8601 : Z -> Z -> string;
  currency_code : Z -> string;
  word : Z -> string
}.

(** What differs from one run of the interpreter to the next: the order in
    which a [set] of strings is iterated (string hashing is salted per
    process), the state of a [Faker()] instance before it is seeded, and
    the time the clock shows, in seconds since the epoch. *)
Record ambient : Type := {
  set_iter : gset string -> list string;
  unseeded_state : Z;
  clock : Z
}.

Definition ambient_ok (amb : ambient) : Prop :=
  forall X : gset string, set_iter amb X ≡ₚ elements X.

Record Faker : Type := { random_state : Z }.

(** [int(s, 16)] on a string of hexadecimal digits *)
Definition hex_digit (c : ascii) : option Z :=
  let n := Z.of_nat (nat_of_ascii c) in
  if (48 <=? n)%Z && (n <=? 57)%Z then Some (n - 48)%Z
  else if (97 <=? n)%Z && (n <=? 102)%Z then Some (n - 87)%Z
  else if (65 <=? n)%Z && (n <=? 70)%Z then Some (n - 55)%Z
  else None.

Fixpoint int16_from (acc : Z) (s : string) : option Z :=
  match s with
  | EmptyString => Some acc
  | String c s' =>
      match hex_digit c with
      | Some d => int16_from (16 * acc + d)%Z s'
      | None => None
      end
  end.

Definition int16 (s : string) : result Z :=
  match s with
  | EmptyString => Raise (TypeError "invalid literal for int()")
  | _ => match int16_from 0 s with
         | Some n => Ok n
         | None => Raise (TypeError "invalid literal for int()")
         end
  end.

Section WithEnvironment.
Context (lib : library) (amb : ambient).

Definition _normalize_provided_fields (provided_fields : dict) : dict :=
  if existsb (fun key => dhas key provided_fields)
       ["path"; "query"; "header"; "body"; "parameters"]
  then
    match pyget "parameters" provided_fields with
    | JDict parameters =>
        [("path", pyget_default "path"
                    (pyget_default "path" (JDict []) provided_fields) parameters);
         ("query", pyget_default "query"
                     (pyget_default "query" (JDict []) provided_fields) parameters);
         ("header", pyget_default "header"
                      (pyget_default "header" (JDict []) provided_fields) parameters);
         ("body", pyget_default "body" (JDict []) provided_fields)]
    | _ =>
        [("path", pyget_default "path" (JDict []) provided_fields);
         ("query", pyget_default "query" (JDict []) provided_fields);
         ("header", pyget_default "header" (JDict []) provided_fields);
         ("body", pyget_default "body" (JDict []) provided_fields)]
    end
  else
    [("path", JDict []); ("query", JDict []); ("header", JDict []);
     ("body", JDict provided_fields)].

(** Returns [None] or the mapping [{required, contentType, schema}]. *)
Definition _extract_request_body (operation spec : json) : result json :=
  match operation with
  | JDict op =>
      match pyget "requestBody" op with
      | JDict request_body =>
          match pyget "content" request_body with
          | JDict content =>
              if negb (truthy (JDict content)) then Ok JNull
              else
                let content_type :=
                  if dhas "application/json" content then "application/json"
                  else hd "" (sorted_strings (dkeys content)) in
                let media := pyget content_type content in
                schema ←
                  match media with
                  | JDict m =>
                      if is_dict (pyget "schema" m)
                      then deep_resolve_refs (pyget "schema" m) spec
                      else Ok JNull
                  | _ => Ok JNull
                  end;
                Ok (JDict
                      [("required",
                        JBool (truthy (pyget_default "required" (JBool false) request_body)));
                       ("contentType", JStr content_type);
                       ("schema", schema)])
          | _ => Ok JNull
          end
      | _ => Ok JNull
      end
  | _ => Ok JNull
  end.

(** *** Schema normalisation *)

(** One round of the [for sub in schema["allOf"]] loop; the state is
    [(merged, properties, required)]. *)
Definition allof_step (rec : json -> option dict)
    (st : dict * dict * gset string) (sub : json)
  : option (dict * dict * gset string) :=
  let '(merged, properties, required) := st in
  if negb (is_dict sub) then Some st
  else
    match rec sub with
    | None => None
    | Some sub_schema =>
        let properties :=
          match pyget "properties" sub_schema with
          | JDict sub_props => dmerge properties sub_props
          | _ => properties
          end in
        let required :=
          match pyget "required" sub_schema with
          | JList sub_required => required ∪ list_to_set (strings_in sub_required)
          | _ => required
          end in
        let merged :=
          fold_left
            (fun m kv =>
               if String.eqb (fst kv) "properties" || String.eqb (fst kv) "required"
               then m
               else if dhas (fst kv) m then m
               else dset (fst kv) (snd kv) m)
            sub_schema merged in
        Some (merged, properties, required)
    end.

Fixpoint allof_loop (rec : json -> option dict)
    (st : dict * dict * gset string) (subs : list json)
  : option (dict * dict * gset string) :=
  match subs with
  | [] => Some st
  | sub :: subs' =>
      match allof_step rec st sub with
      | None => None
      | Some st' => allof_loop rec st' subs'
      end
  end.

(** The tail of [_normalize_schema]: a missing [type] is inferred. *)
Definition infer_type (schema : dict) : dict :=
  if negb (dhas "type" schema) then
    if is_dict (pyget "properties" schema) then dset "type" (JStr "object") schema
    else if is_dict (pyget "items" schema) then dset "type" (JStr "array") schema
    else schema
  else schema.

(** [sorted(xs)] on a set of strings *)
Definition sorted_of_set (xs : gset string) : list string :=
  sorted_strings (set_iter amb xs).

(** The body of [_normalize_schema]; [rec] stands for the recursive calls.
    The function returns the dictionary it may have updated in place. *)
Definition _normalize_schema_body (rec : json -> option dict) (schema : json)
  : option dict :=
  match schema with
  | JDict schema =>
      match (if dhas "allOf" schema then pyget "allOf" schema else JNull) with
      | JList subs =>
          match allof_loop rec ([], [], ∅) subs with
          | None => None
          | Some (merged, properties, required) =>
              let merged :=
                if truthy (JDict properties) then
                  let merged := dset "properties" (JDict properties) merged in
                  dset "type" (pyget_default "type" (JStr "object") merged) merged
                else merged in
              let merged :=
                if negb (bool_decide (required = ∅)) then
                  dset "required"
                    (JList (map JStr (sorted_of_set required))) merged
                else merged in
              Some (infer_type (dmerge schema merged))
          end
      | _ => Some (infer_type schema)
      end
  | _ => Some []
  end.

Fixpoint _normalize_schema_fuel (fuel : nat) (schema : json) : option dict :=
  match fuel with
  | O => None
  | S fuel' => _normalize_schema_body (_normalize_schema_fuel fuel') schema
  end.

(** The recursion descends into the members of [allOf]: the height of the
    schema bounds it. *)
Definition _normalize_schema (schema : json) : dict :=
  match _normalize_schema_fuel (S (height schema)) schema with
  | Some d => d
  | None => []
  end.

(** *** Union selection *)

Definition _option_matches_discriminator (option : json) (prop_name : string)
    (value : json) : bool :=
  let schema := _normalize_schema option in
  let properties :=
    match pyget "properties" schema with JDict p => p | _ => [] end in
  match pyget prop_name properties with
  | JDict prop_schema =>
      if dhas "const" prop_schema then py_eq (pyget "const" prop_schema) value
      else if (match pyget "enum" prop_schema with
               | JList enum => py_in_list value enum
               | _ => false
               end) then true
      else py_eq (pyget "default" prop_schema) value
  | _ => false
  end.

Definition _infer_discriminator_value (option : json) (prop_name : string) : json :=
  let schema := _normalize_schema option in
  let properties :=
    match pyget "properties" schema with JDict p => p | _ => [] end in
  match pyget prop_name properties with
  | JDict prop_schema =>
      if dhas "const" prop_schema then pyget "const" prop_schema
      else
        match pyget "enum" prop_schema with
        | JList (first :: _) => first
        | _ =>
            if dhas "default" prop_schema then pyget "default" prop_schema
            else JNull
        end
  | _ => JNull
  end.

(** Returns [None] or [(schema, value)] for the first option that
    determines a value. *)
Fixpoint _infer_discriminator_option (options : list json) (prop_name : string)
  : option (json * json) :=
  match options with
  | [] => None
  | option :: rest =>
      if negb (is_dict option) then _infer_discriminator_option rest prop_name
      else
        let value := _infer_discriminator_value option prop_name in
        if negb (is_none value) then Some (option, value)
        else _infer_discriminator_option rest prop_name
  end.

(** [for option in options: ... return option] *)
Fixpoint first_option (test : dict -> bool) (options : list json) : json :=
  match options with
  | [] => JNull
  | JDict o :: rest => if test o then JDict o else first_option test rest
  | _ :: rest => first_option test rest
  end.

Definition _select_by_discriminator (options : list json) (prop_name : string)
    (value : json) (mapping : json) : result json :=
  let by_property :=
    first_option (fun o => _option_matches_discriminator (JDict o) prop_name value)
      options in
  match mapping with
  | JDict m =>
      if negb (truthy mapping) then Ok by_property
      else
        known ← in_dict value m;
        if (known : bool) then
          match value with
          | JStr key =>
              match pyget key m with
              | JDict target => Ok (JDict target)
              | JStr target =>
                  match first_option
                          (fun o => py_eq (pyget "$ref" o) (JStr target)
                                    || py_eq (pyget "$id" o) (JStr target)
                                    || py_eq (pyget "title" o) (JStr target))
                          options with
                  | JNull => Ok by_property
                  | found => Ok found
                  end
              | _ => Ok by_property
              end
          | _ => Ok by_property
          end
        else Ok by_property
  | _ => Ok by_property
  end.

(** The discriminator block of [_select_union_schema] for one of the keys
    [oneOf], [anyOf]: [Some] is a [return], [None] falls through to
    [first = options[0]]. *)
Definition select_discriminated (schema : dict) (options : list json)
    (provided : json) : result (option (json * option (string * json))) :=
  match pyget "discriminator" schema with
  | JDict discriminator =>
      if negb (truthy (JDict discriminator)) then Ok None
      else
        let mapping :=
          if is_dict (pyget "mapping" discriminator)
          then pyget "mapping" discriminator else JNull in
        match pyget "propertyName" discriminator with
        | JStr prop_name =>
            let provided_value :=
              match provided with
              | JDict p => pyget prop_name p
              | _ => JNull
              end in
            by_provided ←
              (if negb (is_none provided_value)
               then _select_by_discriminator options prop_name provided_value mapping
               else Ok JNull);
            if truthy by_provided
            then Ok (Some (by_provided, Some (prop_name, provided_value)))
            else
              match mapping with
              | JDict m =>
                  if truthy mapping then
                    let mapping_key := hd "" (sorted_strings (dkeys m)) in
                    selected ←
                      _select_by_discriminator options prop_name (JStr mapping_key) mapping;
                    if truthy selected
                    then Ok (Some (selected, Some (prop_name, JStr mapping_key)))
                    else Ok (Some (hd JNull options, Some (prop_name, JStr mapping_key)))
                  else
                    match _infer_discriminator_option options prop_name with
                    | Some (option, value) => Ok (Some (option, Some (prop_name, value)))
                    | None => Ok None
                    end
              | _ =>
                  match _infer_discriminator_option options prop_name with
                  | Some (option, value) => Ok (Some (option, Some (prop_name, value)))
                  | None => Ok None
                  end
              end
        | _ => Ok None
        end
  | _ => Ok None
  end.

(** The [for key in ("oneOf", "anyOf")] loop. *)
Fixpoint select_union_loop (schema : dict) (provided : json) (keys : list string)
  : result (json * option (string * json)) :=
  match keys with
  | [] => Ok (JDict schema, None)
  | key :: keys' =>
      match pyget key schema with
      | JList (first :: others) =>
          chosen ← select_discriminated schema (first :: others) provided;
          match chosen with
          | Some r => Ok r
          | None =>
              if is_dict first then Ok (first, None)
              else select_union_loop schema provided keys'
          end
      | _ => select_union_loop schema provided keys'
      end
  end.

Definition _select_union_schema (schema : json) (provided : json)
  : result (json * option (string * json)) :=
  match schema with
  | JDict s => select_union_loop s provided ["oneOf"; "anyOf"]
  | _ => Ok (JDict [], None)
  end.

(** *** Leaf values *)

Definition new_Faker : Faker := {| random_state := unseeded_state amb |}.

Definition seed_instance (faker : Faker) (seed : Z) : Faker :=
  {| random_state := seed |}.

Definition _faker_for_key (key : string) : result Faker :=
  let faker := new_Faker in
  seed ← int16 (String.substring 0 8 (sha256_hexdigest lib key));
  Ok (seed_instance faker seed).

Definition provide (provider : library -> Z -> string) (faker : Faker) : json :=
  JStr (provider lib (random_state faker)).

(** A provider that draws a moment up to now. *)
Definition provide_moment (provider : library -> Z -> Z -> string) (faker : Faker)
  : json :=
  JStr (provider lib (random_state faker) (clock amb)).

Definition _guess_value (field_name : string) (schema : dict) : result json :=
  let schema_type := pyget "type" schema in
  let schema_format := pyget "format" schema in
  let name := lower field_name in
  if str_is schema_type "string" then
    faker ← _faker_for_key field_name;
    if str_is schema_format "email" || str_contains "email" name
    then Ok (provide email faker)
    else
      is_uuid ← in_str_set schema_format ["uuid"; "uuid4"];
      if (is_uuid : bool) || str_contains "uuid" name then Ok (provide uuid4 faker)
      else if str_contains "name" name then
        if str_contains "first" name then Ok (provide first_name faker)
        else if str_contains "last" name then Ok (provide last_name faker)
        else Ok (provide Payloads.name faker)
      else if str_contains "phone" name then Ok (provide phone_number faker)
      else if str_contains "zip" name || str_contains "postal" name
      then Ok (provide postcode faker)
      else if str_contains "city" name then Ok (provide city faker)
      else if str_contains "country" name then Ok (provide country_code faker)
      else if str_contains "address" name then Ok (provide street_address faker)
      else
        is_url ← (if str_contains "url" name then Ok true
                  else in_str_set schema_format ["uri"; "url"]);
        if (is_url : bool) then Ok (provide url faker)
        else if str_contains "date" name || str_is schema_format "date"
        then Ok (provide_moment date faker)
        else
          is_time ← (if str_contains "time" name then Ok true
                     else in_str_set schema_format ["date-time"; "datetime"]);
          if (is_time : bool) then Ok (provide_moment iso8601 faker)
          else if str_contains "currency" name then Ok (provide currency_code faker)
          else if endswith "id" name || endswith "_id" name
          then Ok (provide uuid4 faker)
          else Ok (provide word faker)
  else if str_is schema_type "integer" then
    if str_contains "age" name then Ok (JInt 30)
    else if str_contains "count" name then Ok (JInt 1)
    else if str_contains "limit" name then Ok (JInt 10)
    else if str_contains "lives" name then Ok (JInt 9)
    else if endswith "id" name || endswith "_id" name then Ok (JInt 1)
    else Ok (JInt 0)
  else if str_is schema_type "number" then
    if existsb (fun key => str_contains key name) ["amount"; "price"; "total"; "cost"]
    then Ok (JFloat 100)
    else Ok (JFloat 0)
  else if str_is schema_type "boolean" then Ok (JBool false)
  else Ok JNull.

(** [field_name or alt] *)
Definition name_or (field_name : option string) (alt : string) : string :=
  match field_name with
  | Some s => if String.eqb s "" then alt else s
  | None => alt
  end.

(** The type-based fallbacks shared by the generator and the placeholder. *)
Definition _placeholder_for_schema_body
    (rec : json -> option string -> fueled json)
    (schema : json) (field_name : option string) : fueled json :=
  if negb (is_dict schema) then lift (Ok (JStr "<string>"))
  else
    fbind (lift (_select_union_schema schema JNull)) (fun selected =>
    let schema := _normalize_schema (fst selected) in
    if dhas "const" schema then lift (Ok (pyget "const" schema))
    else
      fbind (lift (_guess_value (name_or field_name "") schema)) (fun guess =>
      if negb (is_none guess) then lift (Ok guess)
      else
        let schema_type := pyget "type" schema in
        if str_is schema_type "integer" then lift (Ok (JInt 0))
        else if str_is schema_type "number" then lift (Ok (JFloat 0))
        else if str_is schema_type "boolean" then lift (Ok (JBool false))
        else if str_is schema_type "array" then
          let items_schema :=
            if is_dict (pyget "items" schema) then pyget "items" schema
            else JDict [] in
          fbind (rec items_schema field_name) (fun item => lift (Ok (JList [item])))
        else if str_is schema_type "object" then lift (Ok (JDict []))
        else lift (Ok (JStr "<string>")))).

Fixpoint _placeholder_for_schema_fuel (fuel : nat) (schema : json)
    (field_name : option string) : fueled json :=
  match fuel with
  | O => None
  | S fuel' =>
      _placeholder_for_schema_body (_placeholder_for_schema_fuel fuel') schema field_name
  end.

(** Each recursive call is on the [items] of the normalised schema, which
    lies strictly inside the schema. *)
Definition _placeholder_for_schema (schema : json) (field_name : option string)
  : result json :=
  match _placeholder_for_schema_fuel (S (height schema)) schema field_name with
  | Some r => r
  | None => Ok (JStr "<string>")
  end.

(** *** The generator *)

(** A call of [_generate_from_schema]: schema, provided value, path, the
    shared [unknowns] list, depth and field name; it returns the value and
    the list as the call leaves it. *)
Definition generator : Type :=
  json -> json -> string -> list string -> nat -> option string ->
  fueled (json * list string).

(** The [for prop_name in sorted(properties.keys())] loop of
    [_generate_object]; the state is [(output, unknowns)]. *)
Fixpoint object_loop (rec : generator) (properties provided : dict)
    (required : list string) (path : string) (depth : nat)
    (prop_names : list string) (output : dict) (unknowns : list string)
  : fueled (dict * list string) :=
  match prop_names with
  | [] => lift (Ok (output, unknowns))
  | prop_name :: rest =>
      let prop_schema := pyget prop_name properties in
      if negb (is_dict prop_schema)
      then object_loop rec properties provided required path depth rest output unknowns
      else
        let prop_provided := pyget prop_name provided in
        let is_required := existsb (String.eqb prop_name) required in
        let unknowns :=
          if is_required && is_none prop_provided
          then unknowns ++ [(path ++ "." ++ prop_name)%string]
          else unknowns in
        if is_required || negb (is_none prop_provided) then
          fbind (rec prop_schema prop_provided (path ++ "." ++ prop_name)%string unknowns
                   (depth + 1) (Some prop_name))
            (fun r =>
               object_loop rec properties provided required path depth rest
                 (dset prop_name (fst r) output) (snd r))
        else object_loop rec properties provided required path depth rest output unknowns
  end.

Definition _generate_object_body (rec : generator) (schema provided : dict)
    (path : string) (unknowns : list string)
    (discriminator : option (string * json)) (depth : nat)
  : fueled (json * list string) :=
  let properties :=
    match pyget "properties" schema with JDict p => p | _ => [] end in
  let required :=
    match pyget "required" schema with JList r => strings_in r | _ => [] end in
  fbind (object_loop rec properties provided required path depth
           (sorted_strings (dkeys properties)) [] unknowns)
    (fun r =>
       let output := fst r in
       let unknowns := snd r in
       match discriminator with
       | Some (discriminator_name, discriminator_value) =>
           if negb (String.eqb discriminator_name "")
              && negb (dhas discriminator_name output)
           then
             if dhas discriminator_name properties then
               let prop_schema := pyget discriminator_name properties in
               if is_dict prop_schema then
                 if negb (is_none discriminator_value)
                 then lift (Ok (JDict (dset discriminator_name discriminator_value output),
                                unknowns))
                 else
                   fbind (lift (_placeholder_for_schema prop_schema None)) (fun v =>
                   lift (Ok (JDict (dset discriminator_name v output), unknowns)))
               else lift (Ok (JDict output, unknowns))
             else if negb (is_none discriminator_value)
             then lift (Ok (JDict (dset discriminator_name discriminator_value output),
                            unknowns))
             else lift (Ok (JDict output, unknowns))
           else lift (Ok (JDict output, unknowns))
       | None => lift (Ok (JDict output, unknowns))
       end).

(** The list comprehension over [enumerate(provided)]. *)
Fixpoint items_loop (rec : generator) (items_schema : json) (path : string)
    (depth : nat) (field_name : option string) (idx : nat) (items : list json)
    (unknowns : list string) : fueled (list json * list string) :=
  match items with
  | [] => lift (Ok ([], unknowns))
  | item :: rest =>
      fbind (rec items_schema item (path ++ "[" ++ str_of_nat idx ++ "]")%string unknowns
               (depth + 1) field_name)
        (fun r =>
           fbind (items_loop rec items_schema path depth field_name (S idx) rest (snd r))
             (fun rs => lift (Ok (fst r :: fst rs, snd rs))))
  end.

Definition _generate_from_schema_body (rec : generator) (schema provided : json)
    (path : string) (unknowns : list string) (depth : nat)
    (field_name : option string) : fueled (json * list string) :=
  if Nat.ltb MAX_DEPTH depth then lift (Ok (JStr "<recursion_limit>", unknowns))
  else
    fbind (lift (_select_union_schema schema provided)) (fun selected =>
    let discriminator := snd selected in
    let schema := _normalize_schema (fst selected) in
    let items_schema :=
      if is_dict (pyget "items" schema) then pyget "items" schema else JDict [] in
    if negb (is_none provided) then
      match provided with
      | JDict p =>
          if str_is (pyget "type" schema) "object"
          then _generate_object_body rec schema p path unknowns discriminator depth
          else lift (Ok (provided, unknowns))
      | JList l =>
          if str_is (pyget "type" schema) "array"
          then fbind (items_loop rec items_schema path depth field_name 0 l unknowns)
                 (fun r => lift (Ok (JList (fst r), snd r)))
          else lift (Ok (provided, unknowns))
      | _ => lift (Ok (provided, unknowns))
      end
    else if dhas "const" schema then lift (Ok (pyget "const" schema, unknowns))
    else if dhas "default" schema then lift (Ok (pyget "default" schema, unknowns))
    else
      match (if dhas "enum" schema then pyget "enum" schema else JNull) with
      | JList (first :: _) => lift (Ok (first, unknowns))
      | _ =>
          let schema_type := pyget "type" schema in
          if str_is schema_type "object"
          then _generate_object_body rec schema [] path unknowns discriminator depth
          else if str_is schema_type "array" then
            fbind (rec items_schema JNull (path ++ "[0]")%string unknowns (depth + 1) field_name)
              (fun r => lift (Ok (JList [fst r], snd r)))
          else
            fbind (lift (_guess_value (name_or field_name path) schema)) (fun guess =>
            if negb (is_none guess) then lift (Ok (guess, unknowns))
            else if str_is schema_type "integer" then lift (Ok (JInt 0, unknowns))
            else if str_is schema_type "number" then lift (Ok (JFloat 0, unknowns))
            else if str_is schema_type "boolean" then lift (Ok (JBool false, unknowns))
            else lift (Ok (JStr "<string>", unknowns)))
      end).

Fixpoint _generate_from_schema_fuel (fuel : nat) : generator :=
  match fuel with
  | O => fun _ _ _ _ _ _ => None
  | S fuel' => _generate_from_schema_body (_generate_from_schema_fuel fuel')
  end.

(** Every recursive call raises [depth] by one and none is made beyond
    [MAX_DEPTH]: [MAX_DEPTH + 1 - depth] nested calls can follow this one. *)
Definition _generate_from_schema (schema provided : json) (path : string)
    (unknowns : list string) (depth : nat) (field_name : option string)
  : result (json * list string) :=
  match _generate_from_schema_fuel (S (S MAX_DEPTH - depth))
          schema provided path unknowns depth field_name with
  | Some r => r
  | None => Ok (JStr "<recursion_limit>", unknowns)
  end.

Definition _generate_object (schema provided : dict) (path : string)
    (unknowns : list string) (discriminator : option (string * json))
    (depth : nat) : result (json * list string) :=
  match _generate_object_body
          (fun s p pa u d f => Some (_generate_from_schema s p pa u d f))
          schema provided path unknowns discriminator depth with
  | Some r => r
  | None => Ok (JDict [], unknowns)
  end.

(** *** Parameters, body and the payload *)

(** The [for param in parameters] loop; the state is [(buckets, unknowns)]. *)
Fixpoint parameters_loop (parameters : list json) (provided : dict)
    (buckets : dict) (unknowns : list string) : result (dict * list string) :=
  match parameters with
  | [] => Ok (buckets, unknowns)
  | JDict param :: rest =>
      match pyget "name" param, pyget "in" param with
      | JStr name, JStr location =>
          if negb (dhas location buckets)
          then parameters_loop rest provided buckets unknowns
          else
            let required := truthy (pyget_default "required" (JBool false) param) in
            provided_value ←
              match pyget_default location (JDict []) provided with
              | JDict bucket => Ok (pyget name bucket)
              | _ => Raise (AttributeError "object has no attribute 'get'")
              end;
            let has_provided := negb (is_none provided_value) in
            let bucket :=
              match pyget location buckets with JDict b => b | _ => [] end in
            if negb required && negb has_provided
            then parameters_loop rest provided buckets unknowns
            else if has_provided
            then parameters_loop rest provided
                   (dset location (JDict (dset name provided_value bucket)) buckets)
                   unknowns
            else
              placeholder ← _placeholder_for_schema (pyget "schema" param) (Some name);
              parameters_loop rest provided
                (dset location (JDict (dset name placeholder bucket)) buckets)
                (unknowns ++ [("params." ++ location ++ "." ++ name)%string])
      | _, _ => parameters_loop rest provided buckets unknowns
      end
  | _ :: rest => parameters_loop rest provided buckets unknowns
  end.

Definition _build_parameters (parameters : json) (provided : dict)
  : result (dict * list string) :=
  params ← py_iter parameters;
  parameters_loop params provided
    [("path", JDict []); ("query", JDict []); ("header", JDict [])] [].

Definition _build_body (schema : json) (provided : json)
  : result (json * list string) :=
  if is_none schema then Ok (JNull, [])
  else _generate_from_schema schema provided "body" [] 0 (Some "body").

(** [sorted(set(xs))] *)
Definition sorted_set (xs : list string) : list string :=
  sorted_of_set (list_to_set xs).

Definition build_payload (endpoint_id : string) (record : dict)
    (provided_fields : dict) (spec : json) : result json :=
  operation ← getitem "operation" record;
  let parameters :=
    match operation with
    | JDict op => pyget_default "parameters" (JList []) op
    | _ => JList []
    end in
  let provided := _normalize_provided_fields provided_fields in
  request_body ← _extract_request_body operation spec;
  let body_schema :=
    match request_body with JDict rb => pyget "schema" rb | _ => JNull end in
  let content_type :=
    match request_body with JDict rb => pyget "contentType" rb | _ => JNull end in
  let body_required :=
    match request_body with
    | JDict rb => pyget_default "required" (JBool false) rb
    | _ => JBool false
    end in
  params ← _build_parameters parameters provided;
  body ← _build_body body_schema (pyget "body" provided);
  let param_payload := fst params in
  let body_payload := fst body in
  let unknowns := sorted_set (snd params ++ snd body) in
  let unknowns :=
    if truthy body_required && (is_none body_payload || py_eq body_payload (JDict []))
    then sorted_set (unknowns ++ ["body"])
    else unknowns in
  method ← getitem "method" record;
  path ← getitem "path" record;
  let request :=
    JDict [("method", method);
           ("path", path);
           ("contentType", content_type);
           ("parameters", JDict param_payload);
           ("body", body_payload)] in
  Ok (JDict [("endpointId", JStr endpoint_id);
             ("request", request);
             ("unknownRequiredFields", JList (map JStr unknowns))]).

End WithEnvironment.
End Payloads.

(** ** validate.py *)
Module Validate.
Import Resolve Payloads.

(** An error reported by a validator of [openapi_schema_validator]: the
    path into the instance (keys and indices) and the message. *)
Inductive path_item : Type :=
| PathKey (key : string)
| PathIndex (index : nat).

Record validation_error : Type := {
  error_path : list path_item;
  error_message : string
}.

(** [cls(schema).iter_errors(instance)] for the two dialects. *)
Record validators : Type := {
  OAS30Validator : json -> json -> list validation_error;
  OAS31Validator : json -> json -> list validation_error
}.

Definition _extract_body (request : dict) : json :=
  if dhas "request" request && is_dict (pyget "request" request) then
    match pyget "request" request with
    | JDict inner => pyget "body" inner
    | _ => JNull
    end
  else if dhas "body" request then pyget "body" request
  else JDict request.

Definition _is_oas31 (version : json) : bool :=
  match version with
  | JStr v => truthy version && startswith "3.1" v
  | _ => false
  end.

Definition str_of_path_item (item : path_item) : string :=
  match item with
  | PathKey key => key
  | PathIndex index => str_of_nat index
  end.

Definition _format_error_path (path : list path_item) : string :=
  match path with
  | [] => ""
  | _ => ("/" ++ join "/" (map str_of_path_item path))%string
  end.

Fixpoint _sanitize_for_validation (value : json) : json :=
  match value with
  | JDict d =>
      JDict ((fix items (d : dict) : dict :=
                match d with
                | [] => []
                | (key, val) :: d' =>
                    if String.eqb key "discriminator" then items d'
                    else (key, _sanitize_for_validation val) :: items d'
                end) d)
  | JList l => JList (map _sanitize_for_validation l)
  | _ => value
  end.

Definition ok_result : json :=
  JDict [("ok", JBool true); ("errors", JList [])].

Definition validate_payload (lib : validators) (record request : dict)
    (spec_version spec : json) : result json :=
  let operation := pyget "operation" record in
  request_body ← _extract_request_body operation spec;
  match request_body with
  | JDict rb =>
      match pyget "schema" rb with
      | JDict schema =>
          let body := _extract_body request in
          if is_none body then
            if truthy (pyget_default "required" (JBool false) rb) then
              Ok (JDict [("ok", JBool false);
                         ("errors",
                          JList [JDict [("path", JStr "body");
                                        ("message", JStr "Request body is required")]])])
            else Ok ok_result
          else
            let validator_cls :=
              if _is_oas31 spec_version then OAS31Validator lib else OAS30Validator lib in
            let sanitized := _sanitize_for_validation (JDict schema) in
            let errors :=
              map (fun error => (_format_error_path (error_path error), error_message error))
                (validator_cls sanitized body) in
            let errors := py_sorted pair_leb errors in
            Ok (JDict [("ok", JBool (match errors with [] => true | _ => false end));
                       ("errors",
                        JList (map (fun e => JDict [("path", JStr (fst e));
                                                    ("message", JStr (snd e))]) errors))])
      | _ => Ok ok_result
      end
  | _ => Ok ok_result
  end.

End Validate.

(** ** model.py *)
Module Model.

Record SpecMeta : Type := {
  meta_spec_id : json;
  title : json;
  version : json;
  meta_description : json;
  file_path : json;
  operation_count : json;
  schema_count : json;
  is_valid : bool;
  validation_error : json
}.

Record Operation : Type := {
  spec_id : string;
  operation_id : json;
  method : string;
  path : string;
  summary : json;
  description : json;
  tags : list string;
  operation : json
}.

(** [Operation.op_key] *)
Definition op_key (self : Operation) : string :=
  if truthy (operation_id self) then
    match operation_id self with
    | JStr id => (spec_id self ++ ":" ++ id)%string
    | _ => (spec_id self ++ ":" ++ method self ++ ":" ++ path self)%string
    end
  else (spec_id self ++ ":" ++ method self ++ ":" ++ path self)%string.

Record Schema : Type := {
  schema_spec_id : string;
  schema_name : string;
  schema_description : json;
  schema : json
}.

Definition schema_key (self : Schema) : string :=
  (schema_spec_id self ++ ":" ++ schema_name self)%string.

End Model.

(** ** ingest.py *)
Module Ingest.
Import Payloads.

(** The operating system as the module sees it: [os.walk] as the list of
    [(root, name)] pairs of the files it visits, the functions of [os.path],
    [os.stat] (size and modification time) and the two parsers behind
    [load_raw_spec]. *)
Record os : Type := {
  walk : string -> list (string * string);
  path_join : string -> string -> string;
  abspath : string -> string;
  relpath : string -> string -> string;
  basename : string -> string;
  splitext : string -> string * string;
  stat : string -> result (Z * Q);
  json_load : string -> result json;
  yaml_safe_load : string -> result json
}.

Record SpecFile : Type := {
  path : string;
  relative_path : string;
  raw : json;
  spec_id : string
}.

Record SpecFingerprint : Type := {
  fp_path : string;
  fp_relative_path : string;
  fp_size : Z;
  fp_mtime : Q
}.

Section WithOS.
Context (sys : os).

Definition discover_spec_files (spec_dir : string) : list string :=
  sorted_strings
    (omap (fun entry =>
             let lower_name := lower (snd entry) in
             if endswith ".json" lower_name || endswith ".yaml" lower_name
                || endswith ".yml" lower_name
             then Some (path_join sys (fst entry) (snd entry))
             else None)
       (walk sys spec_dir)).

(** The [for path in paths] loop of [fingerprint_spec_files]. *)
Fixpoint fingerprint_loop (spec_dir : string) (paths : list string)
  : result (list SpecFingerprint) :=
  match paths with
  | [] => Ok []
  | path :: rest =>
      st ← stat sys path;
      let rel := relpath sys path spec_dir in
      fps ← fingerprint_loop spec_dir rest;
      Ok ({| fp_path := path; fp_relative_path := rel;
             fp_size := fst st; fp_mtime := snd st |} :: fps)
  end.

Definition fingerprint_spec_files (spec_dir : string) : result (list SpecFingerprint) :=
  let spec_dir := abspath sys spec_dir in
  fingerprint_loop spec_dir (discover_spec_files spec_dir).

Definition load_raw_spec (path : string) : result json :=
  if endswith ".json" (lower path) then json_load sys path
  else yaml_safe_load sys path.

Definition _default_spec_id (path : string) : string :=
  let base := basename sys path in
  fst (splitext sys base).

(** Returns [None] or the stripped override. *)
Definition _spec_id_override (raw : json) : json :=
  match raw with
  | JDict r =>
      match pyget "info" r with
      | JDict info =>
          match pyget "x-spec-id" info with
          | JStr override =>
              if truthy (JStr (strip override)) then JStr (strip override) else JNull
          | _ => JNull
          end
      | _ => JNull
      end
  | _ => JNull
  end.

(** [f"{base_id}-{suffix}"] *)
Definition suffixed (base_id : string) (suffix : nat) : string :=
  (base_id ++ "-" ++ str_of_nat suffix)%string.

(** The [while] loop of [_ensure_unique]: [fuel] bounds the number of
    iterations. *)
Fixpoint ensure_unique_loop (fuel : nat) (base_id : string) (used : gset string)
    (suffix : nat) : option string :=
  match fuel with
  | O => None
  | S fuel' =>
      if decide (suffixed base_id suffix ∈ used)
      then ensure_unique_loop fuel' base_id used (S suffix)
      else Some (suffixed base_id suffix)
  end.

(** Among [size used + 1] candidates one is not in [used]. *)
Definition _ensure_unique (base_id : string) (used : gset string) : string :=
  if decide (base_id ∉ used) then base_id
  else
    match ensure_unique_loop (S (size used)) base_id used 2 with
    | Some spec_id => spec_id
    | None => base_id
    end.

(** The [for path in files] loop of [build_spec_files]; the state is
    [(used_ids, specs)]. *)
Fixpoint build_loop (spec_dir : string) (files : list string)
    (used_ids : gset string) (specs : list SpecFile) : result (list SpecFile) :=
  match files with
  | [] => Ok specs
  | path :: rest =>
      raw ← load_raw_spec path;
      let override := _spec_id_override raw in
      let base_id :=
        match override with
        | JStr o => if truthy override then o else _default_spec_id path
        | _ => _default_spec_id path
        end in
      let spec_id := _ensure_unique base_id used_ids in
      let used_ids := {[spec_id]} ∪ used_ids in
      let rel := relpath sys path spec_dir in
      build_loop spec_dir rest used_ids
        (specs ++ [{| path := path; relative_path := rel; raw := raw;
                      spec_id := spec_id |}])
  end.

Definition build_spec_files (spec_dir : string) : result (list SpecFile) :=
  let spec_dir := abspath sys spec_dir in
  build_loop spec_dir (discover_spec_files spec_dir) ∅ [].

End WithOS.

Definition list_http_methods : list string :=
  ["get"; "post"; "put"; "patch"; "delete"; "options"; "head"; "trace"].

End Ingest.

(** ** index.py *)
Module Index.

(** The SQLite database behind [CatalogIndex]: each table is absent or a
    list of rows, a row maps column names to values; the [data] column
    holds the value its JSON text parses to.  The FTS5 extension is a
    collaborator: [ops_select] and [schemas_select] stand for the two
    [SELECT ... WHERE <table> MATCH ?] statements, given the table, the
    match expression, the optional [spec_id] filter and the limit. *)
Record CatalogIndex : Type := {
  operations : option (list dict);
  schemas : option (list dict);
  ops_fts : option (list dict);
  schemas_fts : option (list dict);
  op_embeddings : option (list dict)
}.

Record fts5 : Type := {
  ops_select : list dict -> string -> option json -> Z -> result (list dict);
  schemas_select : list dict -> string -> option json -> Z -> result (list dict)
}.






(** [row["tags"].split() if row["tags"] else []] *)
Definition row_tags (row : dict) : json :=
  match pyget "tags" row with
  | JStr t => if truthy (JStr t) then JList (map JStr (split_ws t)) else JList []
  | _ => JList []
  end.

Definition _row_to_operation_match (row : dict) : json :=
  let score := if dhas "score" row then pyget "score" row else JNull in
  let snippet := if dhas "snippet" row then pyget "snippet" row else JNull in
  JDict [("endpointId", pyget "id" row);
         ("specId", pyget "spec_id" row);
         ("operationId", pyget "operation_id" row);
         ("method", pyget "method" row);
         ("path", pyget "path" row);
         ("summary", pyget "summary" row);
         ("description", pyget "description" row);
         ("tags", row_tags row);
         ("score", score);
         ("matchSnippet", snippet)].


Definition _row_to_operation (row : dict) : dict :=
  [("specId", pyget "spec_id" row);
   ("operationId", pyget "operation_id" row);
   ("method", pyget "method" row);
   ("path", pyget "path" row);
   ("summary", pyget "summary" row);
   ("description", pyget "description" row);
   ("tags", row_tags row);
   ("operation", pyget "data" row)].

(** [SELECT columns FROM table WHERE column = ?] followed by [fetchone()] *)
Definition select_columns (columns : list string) (row : dict) : dict :=
  map (fun c => (c, pyget c row)) columns.

Definition fetchone_where (table : option (list dict)) (name : string)
    (columns : list string) (column value : string) : result (option dict) :=
  match table with
  | None => Raise (OperationalError ("no such table: " ++ name))
  | Some rows =>
      Ok (select_columns columns
            <$> head (filter (fun row => str_is (pyget column row) value) rows))
  end.

Definition operation_columns : list string :=
  ["id"; "spec_id"; "operation_id"; "method"; "path"; "summary"; "description";
   "tags"; "data"].

(** Returns [None] or the operation record. *)
Definition get_operation_by_endpoint_id (self : CatalogIndex) (endpoint_id : string)
  : result json :=
  row ← fetchone_where (operations self) "operations" operation_columns "id" endpoint_id;
  match row with
  | Some row => Ok (JDict (_row_to_operation row))
  | None => Ok JNull
  end.

Definition get_operation_match_by_id (self : CatalogIndex) (endpoint_id : string)
  : result json :=
  row ← fetchone_where (operations self) "operations"
          ["id"; "spec_id"; "operation_id"; "method"; "path"; "summary";
           "description"; "tags"] "id" endpoint_id;
  match row with
  | Some row => Ok (_row_to_operation_match row)
  | None => Ok JNull
  end.

Section WithFTS.
Context (engine : fts5).



End WithFTS.
End Index.

(** ** engine.py *)
Module Engine.
Import Model.

(** What the engine reaches outside the catalog core: the operating system
    and environment, the sidecar file, the JSON parser, [prance] behind
    [deref.py], the libraries of the payload builder and the validator, the
    full-text engine, [render_contract] of [render.py] applied to the
    operation rebuilt from a record, the part of [execute_request] that
    follows the lookups (base URL, [httpx] transport, timing), and the
    rebuild pipeline of [refresh]. *)
Record externals (engine_state : Type) : Type := {
  sys : Ingest.os;
  getenv : string -> option string;
  path_exists : string -> bool;
  read_text : string -> result string;
  json_loads : string -> option json;
  resolving_parser : string -> option json;
  faker_library : Payloads.library;
  interpreter : Payloads.ambient;
  schema_validators : Validate.validators;
  full_text : Index.fts5;
  render_contract : dict -> json -> bool -> result json;
  send_request : json -> dict -> json -> result json;
  rebuild : engine_state -> result unit * engine_state
}.
Arguments sys {engine_state}.
Arguments getenv {engine_state}.
Arguments path_exists {engine_state}.
Arguments read_text {engine_state}.
Arguments json_loads {engine_state}.
Arguments resolving_parser {engine_state}.
Arguments faker_library {engine_state}.
Arguments interpreter {engine_state}.
Arguments schema_validators {engine_state}.
Arguments full_text {engine_state}.
Arguments render_contract {engine_state}.
Arguments send_request {engine_state}.
Arguments rebuild {engine_state}.

Record CatalogEngine : Type := {
  spec_dir : string;
  index_path : string;
  _index : Index.CatalogIndex;
  _specs : dict;
  _spec_paths : list (string * string);
  _spec_meta : list SpecMeta;
  _spec_versions : dict;
  _cache_meta_path : option string;
  _deref_mode : string;
  _semantic_enabled : bool
}.

Definition set_specs (self : CatalogEngine) (v : dict) : CatalogEngine :=
  {| spec_dir := spec_dir self; index_path := index_path self; _index := _index self;
     _specs := v; _spec_paths := _spec_paths self; _spec_meta := _spec_meta self;
     _spec_versions := _spec_versions self; _cache_meta_path := _cache_meta_path self;
     _deref_mode := _deref_mode self; _semantic_enabled := _semantic_enabled self |}.



Definition set_spec_versions (self : CatalogEngine) (v : dict) : CatalogEngine :=
  {| spec_dir := spec_dir self; index_path := index_path self; _index := _index self;
     _specs := _specs self; _spec_paths := _spec_paths self; _spec_meta := _spec_meta self;
     _spec_versions := v; _cache_meta_path := _cache_meta_path self;
     _deref_mode := _deref_mode self; _semantic_enabled := _semantic_enabled self |}.

(** [d.get(key)] when the key is any value: only strings are keys. *)
Definition get_by (key : json) (d : dict) : json :=
  match key with
  | JStr k => pyget k d
  | _ => JNull
  end.

(** *** Pure helpers *)




Definition _safe_limit (value : option Z) (default : Z) : Z :=
  match value with
  | None => default
  | Some v => if (v <=? 0)%Z then default else v
  end.

(** [xs[:limit]] *)
Definition py_take {A} (limit : Z) (xs : list A) : list A :=
  if (limit <? 0)%Z then firstn (length xs - Z.to_nat (- limit)) xs
  else firstn (Z.to_nat limit) xs.

(** *** Rank fusion

    The scores are floats; [arith] is their arithmetic: zero, addition, the
    quotient [weight / (k + rank)] and the order. *)
Section Fusion.
Context {F : Type}.
Context (zero : F) (add : F -> F -> F) (quot : F -> Z -> F) (fle : F -> F -> bool).

(** [scores[id] = scores.get(id, 0.0) + weight / (k + rank)] for the ids of
    one ranked list, [rank] counting from [start]. *)
Definition score_get (endpoint_id : string) (scores : list (string * F)) : F :=
  match head (filter (fun kv => String.eqb endpoint_id (fst kv)) scores) with
  | Some kv => snd kv
  | None => zero
  end.

Fixpoint score_set (endpoint_id : string) (v : F) (scores : list (string * F))
  : list (string * F) :=
  match scores with
  | [] => [(endpoint_id, v)]
  | (k, v') :: rest =>
      if String.eqb endpoint_id k then (k, v) :: rest
      else (k, v') :: score_set endpoint_id v rest
  end.

Fixpoint accumulate (weight : F) (k : Z) (rank : Z) (ids : list string)
    (scores : list (string * F)) : list (string * F) :=
  match ids with
  | [] => scores
  | endpoint_id :: rest =>
      accumulate weight k (rank + 1) rest
        (score_set endpoint_id
           (add (score_get endpoint_id scores) (quot weight (k + rank))) scores)
  end.

(** The sort key [(-score, id)]: higher scores first, then ids ascending. *)
Definition rank_leb (a b : string * F) : bool :=
  if fle (snd a) (snd b) && fle (snd b) (snd a) then String.leb (fst a) (fst b)
  else fle (snd b) (snd a).

Definition _rrf_merge (fts_ids semantic_ids : list string) (limit : Z) (k : Z)
    (weight_fts weight_sem : F) : list string :=
  let scores := accumulate weight_fts k 1 fts_ids [] in
  let scores := accumulate weight_sem k 1 semantic_ids scores in
  let ranked := py_sorted rank_leb scores in
  map fst (py_take limit ranked).

(** [_rrf_merge(fts_ids, semantic_ids, limit=limit)], the call of
    [_search_operations]: [k], [weight_fts] and [weight_sem] take the
    defaults [60], [0.7] and [0.3] of the signature, [literal] being the
    float a decimal literal denotes. *)
Definition _rrf_merge_defaults (literal : Q -> F) (fts_ids semantic_ids : list string)
    (limit : Z) : list string :=
  _rrf_merge fts_ids semantic_ids limit 60 (literal (7 # 10)%Q) (literal (3 # 10)%Q).

End Fusion.

(** *** Extraction *)

(** [merged[(name, location)] = param] *)
Fixpoint merged_set (key : string * string) (param : json)
    (merged : list (string * string * json)) : list (string * string * json) :=
  match merged with
  | [] => [(key, param)]
  | (key', param') :: rest =>
      if String.eqb (fst key) (fst key') && String.eqb (snd key) (snd key')
      then (key', param) :: rest
      else (key', param') :: merged_set key param rest
  end.

(** The inner function [ingest] of [_merge_parameters]. *)
Definition ingest (params : json) (merged : list (string * string * json))
  : list (string * string * json) :=
  match params with
  | JList l =>
      fold_left
        (fun merged param =>
           match param with
           | JDict p =>
               match pyget "name" p, pyget "in" p with
               | JStr name, JStr location => merged_set (name, location) param merged
               | _, _ => merged
               end
           | _ => merged
           end) l merged
  | _ => merged
  end.

Definition _merge_parameters (path_params op_params : json) : list json :=
  let merged := ingest op_params (ingest path_params []) in
  let ordered :=
    py_sorted (fun a b => pair_leb (snd (fst a), fst (fst a)) (snd (fst b), fst (fst b)))
      merged in
  map snd ordered.

(** [sorted(d.items())] for a dictionary: its keys are distinct. *)
Definition sorted_items (d : dict) : dict :=
  py_sorted (fun a b => String.leb (fst a) (fst b)) d.

(** The body of the [for method in list_http_methods()] loop. *)
Definition extract_operation (spec_id path : string) (path_item : dict)
    (method : string) : result (option Operation) :=
  match pyget method path_item with
  | JDict operation =>
      let merged_parameters :=
        _merge_parameters (pyget "parameters" path_item) (pyget "parameters" operation) in
      let operation_payload :=
        match merged_parameters with
        | [] => operation
        | _ => dset "parameters" (JList merged_parameters) operation
        end in
      let operation_id :=
        if is_str (pyget "operationId" operation)
        then pyget "operationId" operation else JNull in
      let tags := pyget "tags" operation in
      tags_list ←
        (if truthy tags then
           items ← py_iter tags; Ok (sorted_strings (strings_in items))
         else Ok []);
      Ok (Some {| spec_id := spec_id;
                  operation_id := operation_id;
                  method := method;
                  path := path;
                  summary := pyget "summary" operation;
                  description := pyget "description" operation;
                  tags := tags_list;
                  operation := JDict operation_payload |})
  | _ => Ok None
  end.

Fixpoint extract_methods (spec_id path : string) (path_item : dict)
    (methods : list string) : result (list Operation) :=
  match methods with
  | [] => Ok []
  | method :: rest =>
      op ← extract_operation spec_id path path_item method;
      ops ← extract_methods spec_id path path_item rest;
      Ok (match op with Some o => o :: ops | None => ops end)
  end.

Fixpoint extract_paths (spec_id : string) (items : dict) : result (list Operation) :=
  match items with
  | [] => Ok []
  | (path, JDict path_item) :: rest =>
      ops ← extract_methods spec_id path path_item Ingest.list_http_methods;
      more ← extract_paths spec_id rest;
      Ok (ops ++ more)
  | _ :: rest => extract_paths spec_id rest
  end.

(** [(op.path, op.method, op.operation_id or "")] *)
Definition operation_sort_key (op : Operation) : string * string * string :=
  (path op, method op,
   match operation_id op with
   | JStr id => id
   | _ => ""
   end).

Definition _extract_operations (spec_id : string) (spec : json)
  : result (list Operation) :=
  match spec with
  | JDict s =>
      match pyget "paths" s with
      | JDict paths =>
          operations ← extract_paths spec_id (sorted_items paths);
          Ok (py_sorted (fun a b => triple_leb (operation_sort_key a)
                                      (operation_sort_key b)) operations)
      | _ => Ok []
      end
  | _ => Ok []
  end.

(** *** The engine *)
Section WithExternals.
Context (ext : externals CatalogEngine).

Definition dereference_spec (path : string) : result json :=
  match resolving_parser ext path with
  | Some spec => Ok (if is_dict spec then spec else JDict [])
  | None => Raise (DerefError path)
  end.

Definition _load_spec (self : CatalogEngine) (path : string) (raw : json) : json :=
  if String.eqb (_deref_mode self) "full" then
    match dereference_spec path with
    | Ok spec => spec
    | Raise _ => raw
    end
  else raw.

(** [(name, value)] lookup in [_spec_paths] *)
Definition path_of (spec_id : json) (paths : list (string * string)) : option string :=
  match spec_id with
  | JStr k => snd <$> head (filter (fun kv => String.eqb k (fst kv)) paths)
  | _ => None
  end.

Definition _get_spec (self : CatalogEngine) (spec_id : json)
  : result json * CatalogEngine :=
  let cached := get_by spec_id (_specs self) in
  if negb (is_none cached) then (Ok cached, self)
  else
    match spec_id, path_of spec_id (_spec_paths self) with
    | JStr key, Some path =>
        if String.eqb path "" then (Ok JNull, self)
        else
          match Ingest.load_raw_spec (sys ext) path with
          | Raise e => (Raise e, self)
          | Ok raw =>
              let spec := _load_spec self path raw in
              let self := set_specs self (dset key spec (_specs self)) in
              let version_raw :=
                match spec with JDict d => pyget "openapi" d | _ => JNull end in
              let self :=
                set_spec_versions self
                  (dset key (if is_str version_raw then version_raw else JNull)
                     (_spec_versions self)) in
              (Ok spec, self)
          end
    | _, _ => (Ok JNull, self)
    end.

Definition lookup (self : CatalogEngine) (endpoint_id : string) : result json :=
  Index.get_operation_by_endpoint_id (_index self) endpoint_id.

Definition endpoint_get (self : CatalogEngine) (endpoint_id : string) (full : bool)
  : result json * CatalogEngine :=
  match lookup self endpoint_id with
  | Raise e => (Raise e, self)
  | Ok (JDict record) =>
      if negb (truthy (JDict record)) then (Ok (JDict []), self)
      else if full then
        match _get_spec self (pyget "specId" record) with
        | (Raise e, self') => (Raise e, self')
        | (Ok spec, self') => (render_contract ext record spec full, self')
        end
      else (render_contract ext record JNull full, self)
  | Ok _ => (Ok (JDict []), self)
  end.

Definition payload_generate (self : CatalogEngine) (endpoint_id : string)
    (provided_fields : option dict) : result json * CatalogEngine :=
  match lookup self endpoint_id with
  | Raise e => (Raise e, self)
  | Ok (JDict record) =>
      if negb (truthy (JDict record)) then (Ok (JDict []), self)
      else
        match _get_spec self (pyget "specId" record) with
        | (Raise e, self') => (Raise e, self')
        | (Ok spec, self') =>
            (Payloads.build_payload (faker_library ext) (interpreter ext) endpoint_id
               record (match provided_fields with Some d => d | None => [] end) spec,
             self')
        end
  | Ok _ => (Ok (JDict []), self)
  end.

Definition unknown_endpoint_errors : json :=
  JDict [("ok", JBool false);
         ("errors", JList [JDict [("path", JStr ""); ("message", JStr "Unknown endpointId")]])].

Definition payload_validate (self : CatalogEngine) (endpoint_id : string)
    (request : dict) : result json * CatalogEngine :=
  match lookup self endpoint_id with
  | Raise e => (Raise e, self)
  | Ok (JDict record) =>
      if negb (truthy (JDict record)) then (Ok unknown_endpoint_errors, self)
      else
        let spec_version := get_by (pyget "specId" record) (_spec_versions self) in
        match _get_spec self (pyget "specId" record) with
        | (Raise e, self') => (Raise e, self')
        | (Ok spec, self') =>
            (Validate.validate_payload (schema_validators ext) record request
               spec_version spec, self')
        end
  | Ok _ => (Ok unknown_endpoint_errors, self)
  end.

Definition execution_disabled : json :=
  JDict [("ok", JBool false);
         ("error", JStr "Execution disabled. Set OPENAPI_EXECUTION=1 to enable.")].

Definition unknown_endpoint_error : json :=
  JDict [("ok", JBool false); ("error", JStr "Unknown endpointId")].

Definition execute_request (self : CatalogEngine) (endpoint_id : string)
    (request : dict) (auth_token : json) : result json * CatalogEngine :=
  if negb (String.eqb (default "0" (getenv ext "OPENAPI_EXECUTION")) "1")
  then (Ok execution_disabled, self)
  else
    match lookup self endpoint_id with
    | Raise e => (Raise e, self)
    | Ok (JDict record) =>
        if negb (truthy (JDict record)) then (Ok unknown_endpoint_error, self)
        else
          match _get_spec self (pyget "specId" record) with
          | (Raise e, self') => (Raise e, self')
          | (Ok spec, self') => (send_request ext spec request auth_token, self')
          end
    | Ok _ => (Ok unknown_endpoint_error, self)
    end.

(** *** The cache *)








End WithExternals.
End Engine.

(** ** Notions used in the statements *)



(** The schema of the media type the body is read from: that of
    [application/json] when declared, else that of the smallest content
    type; [None] when the operation has no [requestBody] mapping, no
    non-empty [content] mapping, or no mapping-valued [schema] there. *)
Definition declared_body_schema (operation : json) : json :=
  match operation with
  | JDict op =>
      match pyget "requestBody" op with
      | JDict request_body =>
          match pyget "content" request_body with
          | JDict [] => JNull
          | JDict content =>
              let content_type :=
                if dhas "application/json" content then "application/json"
                else hd "" (sorted_strings (dkeys content)) in
              match pyget content_type content with
              | JDict media =>
                  if is_dict (pyget "schema" media) then pyget "schema" media else JNull
              | _ => JNull
              end
          | _ => JNull
          end
      | _ => JNull
      end
  | _ => JNull
  end.

(** The identifier a spec file declares: the string value of
    [info.x-spec-id], trimmed, when it is not empty after trimming. *)
Definition declared_spec_id (raw : json) : option string :=
  match raw with
  | JDict r =>
      match pyget "info" r with
      | JDict info =>
          match pyget "x-spec-id" info with
          | JStr value =>
              if String.eqb (strip value) "" then None else Some (strip value)
          | _ => None
          end
      | _ => None
      end
  | _ => None
  end.

Definition base_spec_id (sys : Ingest.os) (raw : json) (path : string) : string :=
  match declared_spec_id raw with
  | Some value => value
  | None => fst (Ingest.splitext sys (Ingest.basename sys path))
  end.

(** A directory holding the given files, named relative to it, all JSON. *)
Definition directory_os (files : list (string * json)) : Ingest.os := {|
  Ingest.walk := fun root => map (fun file => (root, fst file)) files;
  Ingest.path_join := fun a b => (a ++ "/" ++ b)%string;
  Ingest.abspath := fun p => p;
  Ingest.relpath := fun p _ => List.last (str_split "/" p) "";
  Ingest.basename := fun p => List.last (str_split "/" p) "";
  Ingest.splitext := fun p =>
    match str_split "." p with
    | [root] => (root, "")
    | parts => (join "." (removelast parts), ("." ++ List.last parts "")%string)
    end;
  Ingest.stat := fun _ => Ok (0%Z, 0%Q);
  Ingest.json_load := fun p =>
    match head (filter (fun file => String.eqb (List.last (str_split "/" p) "") (fst file))
                  files) with
    | Some file => Ok (snd file)
    | None => Raise (OSError "no such file")
    end;
  Ingest.yaml_safe_load := fun _ => Raise (OSError "no such file")
|}.










(** Rank fusion as the description has it: the rank of an id in a ranked
    list counts from one, a list in which the id is missing contributes
    zero, and the score is the sum of the two contributions. *)
Section FusionSpec.
Context {F : Type}.
Context (zero : F) (add : F -> F -> F) (quot : F -> Z -> F) (fle : F -> F -> bool).

Fixpoint rank_from (start : Z) (ids : list string) (id : string) : option Z :=
  match ids with
  | [] => None
  | x :: rest =>
      if String.eqb id x then Some start else rank_from (start + 1) rest id
  end.

Definition contribution (weight : F) (k : Z) (ids : list string) (id : string) : F :=
  match rank_from 1 ids id with
  | Some rank => quot weight (k + rank)
  | None => zero
  end.

Definition rrf_score (k : Z) (weight_fts weight_sem : F)
    (fts_ids semantic_ids : list string) (id : string) : F :=
  add (contribution weight_fts k fts_ids id) (contribution weight_sem k semantic_ids id).

(** The order of the key [(-score, id)] on ids. *)
Definition fused_before (score : string -> F) (a b : string) : Prop :=
  fle (score b) (score a) = true
  /\ (fle (score a) (score b) = true -> String.leb a b = true).

End FusionSpec.

(** Exact rational arithmetic for the worked example of the fusion. *)
Definition rational_quot (weight : Qc) (n : Z) : Qc := Qcdiv weight (Q2Qc (inject_Z n)).

Definition rational_fle (a b : Qc) : bool := Qle_bool a b.

(** Sample inputs for the worked examples: a library whose providers
    return fixed strings, an interpreter that iterates sets in the order of
    [elements], and a chain of [n] nested objects each requiring [next]. *)
Definition sample_library : Payloads.library := {|
  Payloads.sha256_hexdigest := fun _ => "0000002a";
  Payloads.email := fun _ => "user@example.org";
  Payloads.uuid4 := fun _ => "00000000-0000-4000-8000-000000000000";
  Payloads.first_name := fun _ => "Ada";
  Payloads.last_name := fun _ => "Lovelace";
  Payloads.name := fun _ => "Ada Lovelace";
  Payloads.phone_number := fun _ => "555-0100";
  Payloads.postcode := fun _ => "12345";
  Payloads.city := fun _ => "Springfield";
  Payloads.country_code := fun _ => "US";
  Payloads.street_address := fun _ => "1 Main Street";
  Payloads.url := fun _ => "https://example.org/";
  Payloads.date := fun _ _ => "2001-01-01";
  Payloads.iso8601 := fun _ _ => "2001-01-01T00:00:00";
  Payloads.currency_code := fun _ => "USD";
  Payloads.word := fun _ => "word"
|}.

Definition sample_ambient : Payloads.ambient := {|
  Payloads.set_iter := elements;
  Payloads.unseeded_state := 7;
  Payloads.clock := 0
|}.

Fixpoint nested_schema (n : nat) : json :=
  match n with
  | O => JDict []
  | S n' =>
      JDict [("type", JStr "object");
             ("required", JList [JStr "next"]);
             ("properties", JDict [("next", nested_schema n')])]
  end.

(** A value of [n] nested mappings. *)
Fixpoint nested_value (n : nat) : json :=
  match n with
  | O => JStr "leaf"
  | S n' => JDict [("next", nested_value n')]
  end.

(** An object whose required property [next] defaults to a value of five
    nested mappings. *)
Definition defaulted_schema : json :=
  JDict [("type", JStr "object");
         ("required", JList [JStr "next"]);
         ("properties",
          JDict [("next", JDict [("type", JStr "object");
                                 ("default", nested_value 5)])])].

(** An object whose required property [kind] is one of two listed
    strings. *)
Definition listed_schema : json :=
  JDict [("type", JStr "object");
         ("required", JList [JStr "kind"]);
         ("properties",
          JDict [("kind", JDict [("enum", JList [JStr "cat"; JStr "dog"])])])].

(** An engine over an index that is ready and empty, with execution
    switched off and every collaborator inert. *)
Definition sample_os : Ingest.os := {|
  Ingest.walk := fun _ => [];
  Ingest.path_join := fun a b => (a ++ "/" ++ b)%string;
  Ingest.abspath := fun p => p;
  Ingest.relpath := fun p _ => p;
  Ingest.basename := fun p => p;
  Ingest.splitext := fun p => (p, "");
  Ingest.stat := fun _ => Raise (OSError "no such file");
  Ingest.json_load := fun _ => Raise (OSError "no such file");
  Ingest.yaml_safe_load := fun _ => Raise (OSError "no such file")
|}.

Definition sample_validators : Validate.validators := {|
  Validate.OAS30Validator := fun _ _ => [];
  Validate.OAS31Validator := fun _ _ => []
|}.

Definition sample_fts : Index.fts5 := {|
  Index.ops_select := fun _ _ _ _ => Ok [];
  Index.schemas_select := fun _ _ _ _ => Ok []
|}.

Definition sample_externals (sidecar : option json)
  : Engine.externals Engine.CatalogEngine := {|
  Engine.sys := sample_os;
  Engine.getenv := fun _ => None;
  Engine.path_exists := fun _ => match sidecar with Some _ => true | None => false end;
  Engine.read_text := fun _ => Ok "sidecar";
  Engine.json_loads := fun _ => sidecar;
  Engine.resolving_parser := fun _ => None;
  Engine.faker_library := sample_library;
  Engine.interpreter := sample_ambient;
  Engine.schema_validators := sample_validators;
  Engine.full_text := sample_fts;
  Engine.render_contract := fun _ _ _ => Ok (JDict []);
  Engine.send_request := fun _ _ _ => Ok (JDict []);
  Engine.rebuild := fun self => (Ok tt, self)
|}.

Definition empty_index : Index.CatalogIndex := {|
  Index.operations := Some [];
  Index.schemas := Some [];
  Index.ops_fts := Some [];
  Index.schemas_fts := Some [];
  Index.op_embeddings := Some []
|}.

Definition sample_engine : Engine.CatalogEngine := {|
  Engine.spec_dir := "specs";
  Engine.index_path := "catalog.db";
  Engine._index := empty_index;
  Engine._specs := [];
  Engine._spec_paths := [];
  Engine._spec_meta := [];
  Engine._spec_versions := [];
  Engine._cache_meta_path := Some "catalog.db.meta.json";
  Engine._deref_mode := "lazy";
  Engine._semantic_enabled := false
|}.



(** The seed of the generator of a field: [int(digest[:8], 16)] of the
    SHA-256 digest of the field name. *)
Definition stable_seed (lib : Payloads.library) (key : string) : result Z :=
  Payloads.int16 (String.substring 0 8 (Payloads.sha256_hexdigest lib key)).

(** The same collaborators under another run of the interpreter. *)
Definition with_interpreter (ext : Engine.externals Engine.CatalogEngine)
    (amb : Payloads.ambient) : Engine.externals Engine.CatalogEngine := {|
  Engine.sys := Engine.sys ext;
  Engine.getenv := Engine.getenv ext;
  Engine.path_exists := Engine.path_exists ext;
  Engine.read_text := Engine.read_text ext;
  Engine.json_loads := Engine.json_loads ext;
  Engine.resolving_parser := Engine.resolving_parser ext;
  Engine.faker_library := Engine.faker_library ext;
  Engine.interpreter := amb;
  Engine.schema_validators := Engine.schema_validators ext;
  Engine.full_text := Engine.full_text ext;
  Engine.render_contract := Engine.render_contract ext;
  Engine.send_request := Engine.send_request ext;
  Engine.rebuild := Engine.rebuild ext
|}.

(** An interpreter that iterates every set backwards, at the same time. *)
Definition reversed_ambient : Payloads.ambient := {|
  Payloads.set_iter := fun X => rev (elements X);
  Payloads.unseeded_state := 11;
  Payloads.clock := 0
|}.

(** An engine that holds one specification with one operation. *)
Definition pets_operation : json :=
  JDict [("requestBody",
          JDict [("required", JBool true);
                 ("content",
                  JDict [("application/json",
                          JDict [("schema",
                                  JDict [("type", JStr "object");
                                         ("required", JList [JStr "tag"; JStr "name"]);
                                         ("properties",
                                          JDict [("tag", JDict [("type", JStr "string")]);
                                                 ("name", JDict [("type", JStr "string")])])])])])])].

Definition pets_engine : Engine.CatalogEngine := {|
  Engine.spec_dir := "specs";
  Engine.index_path := "catalog.db";
  Engine._index := {|
    Index.operations :=
      Some [[("id", JStr "pets:createPet"); ("spec_id", JStr "pets");
             ("operation_id", JStr "createPet"); ("method", JStr "post");
             ("path", JStr "/pets"); ("summary", JNull); ("description", JNull);
             ("tags", JNull); ("data", pets_operation)]];
    Index.schemas := Some [];
    Index.ops_fts := Some [];
    Index.schemas_fts := Some [];
    Index.op_embeddings := Some []
  |};
  Engine._specs := [("pets", JDict [("openapi", JStr "3.0.3")])];
  Engine._spec_paths := [("pets", "specs/pets.json")];
  Engine._spec_meta := [];
  Engine._spec_versions := [];
  Engine._cache_meta_path := None;
  Engine._deref_mode := "lazy";
  Engine._semantic_enabled := false
|}.

(** An engine that holds one operation whose body requires the moment
    [when], a [date-time] string. *)
Definition event_operation : json :=
  JDict [("requestBody",
          JDict [("required", JBool true);
                 ("content",
                  JDict [("application/json",
                          JDict [("schema",
                                  JDict [("type", JStr "object");
                                         ("required", JList [JStr "when"]);
                                         ("properties",
                                          JDict [("when",
                                                  JDict [("type", JStr "string");
                                                         ("format", JStr "date-time")])])])])])])].

Definition events_engine : Engine.CatalogEngine := {|
  Engine.spec_dir := "specs";
  Engine.index_path := "catalog.db";
  Engine._index := {|
    Index.operations :=
      Some [[("id", JStr "events:createEvent"); ("spec_id", JStr "events");
             ("operation_id", JStr "createEvent"); ("method", JStr "post");
             ("path", JStr "/events"); ("summary", JNull); ("description", JNull);
             ("tags", JNull); ("data", event_operation)]];
    Index.schemas := Some [];
    Index.ops_fts := Some [];
    Index.schemas_fts := Some [];
    Index.op_embeddings := Some []
  |};
  Engine._specs := [("events", JDict [("openapi", JStr "3.0.3")])];
  Engine._spec_paths := [("events", "specs/events.json")];
  Engine._spec_meta := [];
  Engine._spec_versions := [];
  Engine._cache_meta_path := None;
  Engine._deref_mode := "lazy";
  Engine._semantic_enabled := false
|}.

Definition event_record : dict :=
  [("specId", JStr "events"); ("operationId", JStr "createEvent");
   ("method", JStr "post"); ("path", JStr "/events"); ("summary", JNull);
   ("description", JNull); ("tags", JList []); ("operation", event_operation)].

(** The payload generated for that operation when the moment is given. *)
Definition event_payload (moment : string) (unknowns : list string) : json :=
  JDict [("endpointId", JStr "events:createEvent");
         ("request",
          JDict [("method", JStr "post");
                 ("path", JStr "/events");
                 ("contentType", JStr "application/json");
                 ("parameters",
                  JDict [("path", JDict []); ("query", JDict []); ("header", JDict [])]);
                 ("body", JDict [("when", JStr moment)])]);
         ("unknownRequiredFields", JList (map JStr unknowns))].

(** A library whose [date] and [iso8601] draw, as Faker's do, a moment
    between the epoch and the reading of the clock: here the state of the
    generator reduced to the seconds that have passed, within the first
    minute. *)
Definition two_digits (n : Z) : string :=
  ((if (n <? 10)%Z then "0" else "") ++ str_of_nat (Z.to_nat n))%string.

Definition clocked_library : Payloads.library := {|
  Payloads.sha256_hexdigest := Payloads.sha256_hexdigest sample_library;
  Payloads.email := Payloads.email sample_library;
  Payloads.uuid4 := Payloads.uuid4 sample_library;
  Payloads.first_name := Payloads.first_name sample_library;
  Payloads.last_name := Payloads.last_name sample_library;
  Payloads.name := Payloads.name sample_library;
  Payloads.phone_number := Payloads.phone_number sample_library;
  Payloads.postcode := Payloads.postcode sample_library;
  Payloads.city := Payloads.city sample_library;
  Payloads.country_code := Payloads.country_code sample_library;
  Payloads.street_address := Payloads.street_address sample_library;
  Payloads.url := Payloads.url sample_library;
  Payloads.date := fun _ _ => "1970-01-01";
  Payloads.iso8601 := fun state now =>
    ("1970-01-01T00:00:" ++ two_digits ((state mod (now + 1)) mod 60))%string;
  Payloads.currency_code := Payloads.currency_code sample_library;
  Payloads.word := Payloads.word sample_library
|}.


(** The same collaborators with another library for the payload builder. *)
Definition with_library (ext : Engine.externals Engine.CatalogEngine)
    (lib : Payloads.library) : Engine.externals Engine.CatalogEngine := {|
  Engine.sys := Engine.sys ext;
  Engine.getenv := Engine.getenv ext;
  Engine.path_exists := Engine.path_exists ext;
  Engine.read_text := Engine.read_text ext;
  Engine.json_loads := Engine.json_loads ext;
  Engine.resolving_parser := Engine.resolving_parser ext;
  Engine.faker_library := lib;
  Engine.interpreter := Engine.interpreter ext;
  Engine.schema_validators := Engine.schema_validators ext;
  Engine.full_text := Engine.full_text ext;
  Engine.render_contract := Engine.render_contract ext;
  Engine.send_request := Engine.send_request ext;
  Engine.rebuild := Engine.rebuild ext
|}.

(** The interpreter of a run that starts 59 seconds later. *)
Definition later_ambient : Payloads.ambient := {|
  Payloads.set_iter := elements;
  Payloads.unseeded_state := 7;
  Payloads.clock := 59
|}.

(** Notions used in the proofs. *)

(** One generator answers wherever another does; a generator answers at a
    depth. *)
Definition below (rec1 rec2 : Payloads.generator) : Prop :=
  forall s p pa u d f r, rec1 s p pa u d f = Some r -> rec2 s p pa u d f = Some r.

Definition total_at (rec : Payloads.generator) (depth : nat) : Prop :=
  forall s p pa u f, exists r, rec s p pa u depth f = Some r.

(** The keys under which a schema carries literal values. *)
Definition literal_key (k : string) : bool :=
  String.eqb k "const" || String.eqb k "default" || String.eqb k "enum".

(** What a schema's literals bring into a generated value: a value under
    [const] or [default] is copied whole, of a list under [enum] a member
    is.  The nesting of the deepest literal a schema carries is the largest
    height of such a value in any mapping inside the schema; it is zero
    for a schema whose literals are all scalars. *)
Definition carried_height (key : string) (v : json) : nat :=
  if String.eqb key "enum" then pred (Resolve.height v) else Resolve.height v.

Fixpoint literal_height (v : json) : nat :=
  match v with
  | JList l => list_max (map literal_height l)
  | JDict d =>
      list_max
        (map (fun kv =>
                Nat.max (if literal_key (fst kv) then carried_height (fst kv) (snd kv)
                         else 0)
                        (literal_height (snd kv))) d)
  | _ => 0
  end.

(** The discriminator a union selection hands on is absent or carries a
    value, never [None], that nests less than what was provided or no
    more than a literal of the schema. *)
Definition discriminator_below (provided : json) (literals : nat)
    (discriminator : option (string * json)) : Prop :=
  match discriminator with
  | Some (_, value) =>
      value <> JNull
      /\ Resolve.height value <= Nat.max (pred (Resolve.height provided)) literals
  | None => True
  end.

(** A generator call respects the nesting bound at [depth] when what it
    returns nests no deeper than the provided value or than the levels
    left and the deepest literal of the schema together. *)
Definition nesting_ok (rec : Payloads.generator) (depth : nat) : Prop :=
  forall s p pa u f v u',
    rec s p pa u depth f = Some (Ok (v, u')) ->
    Resolve.height v
    <= Nat.max (Resolve.height p) (S Payloads.MAX_DEPTH - depth + literal_height s).

(** The sentinel occurs somewhere in a value. *)
Fixpoint has_sentinel (v : json) : bool :=
  match v with
  | JStr s => String.eqb s "<recursion_limit>"
  | JList l => existsb has_sentinel l
  | JDict d => existsb (fun kv => has_sentinel (snd kv)) d
  | _ => false
  end.

(** The order a comparison function decides. *)
Definition leb_rel {A : Type} (leb : A -> A -> bool) (x y : A) : Prop :=
  leb x y = true.

(** What extraction records of the [operationId] of the source operation. *)
Definition extracted_from (sid : string) (op : Model.Operation) : Prop :=
  Model.spec_id op = sid
  /\ exists payload,
       Model.operation op = JDict payload
       /\ Model.operation_id op
          = if is_str (pyget "operationId" payload) then pyget "operationId" payload
            else JNull.

(** The first character of a string. *)
Definition head_char (s : string) : option ascii :=
  match s with
  | EmptyString => None
  | String c _ => Some c
  end.

(** How one file is placed after those already assigned. *)
Definition placed (sys : Ingest.os) (before : list Ingest.SpecFile) (f : Ingest.SpecFile)
  : Prop :=
  let used : gset string := list_to_set (map Ingest.spec_id before) in
  let base := base_spec_id sys (Ingest.raw f) (Ingest.path f) in
  Ingest.load_raw_spec sys (Ingest.path f) = Ok (Ingest.raw f)
  /\ (base ∉ used -> Ingest.spec_id f = base)
  /\ (base ∈ used ->
        exists n, 2 <= n /\ Ingest.spec_id f = Ingest.suffixed base n
                  /\ (Ingest.suffixed base n ∉ used)
                  /\ forall m, 2 <= m < n -> Ingest.suffixed base m ∈ used).

(** The keys [_normalize_schema] writes itself; under every other key of
    its result lies a value taken from inside the schema. *)
Definition written_key (k : string) : bool :=
  String.eqb k "type" || String.eqb k "properties" || String.eqb k "required".

Definition entries_below (n : nat) (d : dict) : Prop :=
  Forall (fun kv => written_key (fst kv) = true \/ Resolve.height (snd kv) <= n) d.

(** ** Further notions: rendering, pointers, parameters *)

(** ** Notions used in the further properties *)

(** A value without the key [discriminator] in any mapping inside it. *)
Fixpoint discriminator_free (v : json) : bool :=
  match v with
  | JList l => forallb discriminator_free l
  | JDict d =>
      negb (dhas "discriminator" d) && forallb (fun kv => discriminator_free (snd kv)) d
  | _ => true
  end.

(** One entry of the [errors] list of a verdict. *)
Definition error_entry (e : string * string) : json :=
  JDict [("path", JStr (fst e)); ("message", JStr (snd e))].

(** The key [(name, in)] under which [_merge_parameters] files a parameter:
    both must be strings. *)
Definition parameter_key (param : json) : option (string * string) :=
  match param with
  | JDict p =>
      match pyget "name" p, pyget "in" p with
      | JStr name, JStr location => Some (name, location)
      | _, _ => None
      end
  | _ => None
  end.

Definition params_of (params : json) : list json :=
  match params with
  | JList l => l
  | _ => []
  end.

(** The order [(in, name)] of merged parameters. *)
Definition parameter_before (a b : json) : Prop :=
  match parameter_key a, parameter_key b with
  | Some (name_a, in_a), Some (name_b, in_b) =>
      pair_leb (in_a, name_a) (in_b, name_b) = true
  | _, _ => False
  end.

(** A validator that reports two errors, the later one first. *)
Definition strict_validators : Validate.validators := {|
  Validate.OAS30Validator := fun _ _ =>
    [{| Validate.error_path := [Validate.PathKey "tag"];
        Validate.error_message := "is required" |};
     {| Validate.error_path := [Validate.PathKey "name"];
        Validate.error_message := "is required" |}];
  Validate.OAS31Validator := fun _ _ => []
|}.

(** The file names [discover_spec_files] keeps: those ending, whatever the
    case, in [.json], [.yaml] or [.yml]. *)
Definition spec_file_name (name : string) : bool :=
  endswith ".json" (lower name) || endswith ".yaml" (lower name)
  || endswith ".yml" (lower name).

(** A value in which no mapping has a string under [$ref]. *)
Fixpoint ref_free (v : json) : bool :=
  match v with
  | JList l => forallb ref_free l
  | JDict d => negb (is_str (pyget "$ref" d)) && forallb (fun kv => ref_free (snd kv)) d
  | _ => true
  end.

(** A key as a JSON Pointer writes it: [~] becomes [~0] and [/] becomes
    [~1]. *)
Fixpoint escape_part (key : string) : string :=
  match key with
  | EmptyString => EmptyString
  | String c rest =>
      if Ascii.eqb c "~" then String "~" (String "0" (escape_part rest))
      else if Ascii.eqb c "/" then String "~" (String "1" (escape_part rest))
      else String c (escape_part rest)
  end.

(** The member of a document reached by a path of keys; [None] where a
    key is missing, its value is [None], or the path leaves the mappings. *)
Fixpoint lookup_path (keys : list string) (v : json) : json :=
  match keys with
  | [] => v
  | key :: rest =>
      match v with
      | JDict d => if is_none (pyget key d) then JNull else lookup_path rest (pyget key d)
      | _ => JNull
      end
  end.

(** Only the tilde escaped: what the first [replace] of [unescape_part]
    leaves of an escaped key. *)
Fixpoint tilde_escaped (key : string) : string :=
  match key with
  | EmptyString => EmptyString
  | String c rest =>
      if Ascii.eqb c "~" then String "~" (String "0" (tilde_escaped rest))
      else String c (tilde_escaped rest)
  end.

(** A string without [/]. *)
Fixpoint no_slash (s : string) : bool :=
  match s with
  | EmptyString => true
  | String c rest => negb (Ascii.eqb c "/") && no_slash rest
  end.


(** The [properties] and the [required] names an object schema declares,
    as [_generate_object] reads them. *)
Definition object_properties (schema : dict) : dict :=
  match pyget "properties" schema with JDict p => p | _ => [] end.

Definition object_required (schema : dict) : list string :=
  match pyget "required" schema with JList r => strings_in r | _ => [] end.

(** A generator call only appends to the shared list of unknowns. *)
Definition grows (rec : Payloads.generator) : Prop :=
  forall s p pa u d f v u',
    rec s p pa u d f = Some (Ok (v, u')) -> u `prefix_of` u'.

(** The JSON type a schema declares for a leaf, and the values of that
    type. *)
Definition of_declared_type (schema : dict) (v : json) : Prop :=
  match v with
  | JStr _ => str_is (pyget "type" schema) "string" = true
  | JInt _ => str_is (pyget "type" schema) "integer" = true
  | JFloat _ => str_is (pyget "type" schema) "number" = true
  | JBool b => str_is (pyget "type" schema) "boolean" = true /\ b = false
  | JNull =>
      str_is (pyget "type" schema) "string" = false
      /\ str_is (pyget "type" schema) "integer" = false
      /\ str_is (pyget "type" schema) "number" = false
      /\ str_is (pyget "type" schema) "boolean" = false
  | _ => False
  end.

(** ** render.py *)
Module Render.
Import Resolve Model.

(** [{k: _sorted_dict(value[k]) for k in sorted(value)}]: the members are
    read through [value[k]], here from the mapping whose values have
    already been put in order. *)
Fixpoint _sorted_dict (value : json) : json :=
  match value with
  | JDict d =>
      let members :=
        (fix members (d : dict) : dict :=
           match d with
           | [] => []
           | (k, v) :: d' => (k, _sorted_dict v) :: members d'
           end) d in
      JDict (map (fun k => (k, pyget k members)) (sorted_strings (dkeys d)))
  | JList l => JList (map _sorted_dict l)
  | _ => value
  end.

Definition render_catalog (specs : list SpecMeta) : json :=
  JDict [("specs",
          JList (map (fun spec =>
                        JDict [("specId", meta_spec_id spec);
                               ("title", title spec);
                               ("version", version spec);
                               ("description", meta_description spec);
                               ("filePath", file_path spec);
                               ("operationCount", operation_count spec);
                               ("schemaCount", schema_count spec);
                               ("isValid", JBool (is_valid spec));
                               ("validationError", validation_error spec)])
                   specs))].

Definition render_operation (operation : Operation) : json :=
  JDict [("specId", JStr (spec_id operation));
         ("operationId", operation_id operation);
         ("method", JStr (method operation));
         ("path", JStr (path operation));
         ("summary", summary operation);
         ("description", description operation);
         ("tags", JList (map JStr (tags operation)));
         ("operation", _sorted_dict (Model.operation operation))].

Definition render_schema (schema : Schema) : json :=
  JDict [("specId", JStr (schema_spec_id schema));
         ("schemaName", JStr (schema_name schema));
         ("description", schema_description schema);
         ("schema", _sorted_dict (Model.schema schema))].

(** [x or ""] *)
Definition or_empty (x : json) : json := if truthy x then x else JStr "".

(** One entry of the [parameters] of a contract. *)
Definition contract_parameter (param : dict) : dict :=
  [("name", pyget "name" param);
   ("in", pyget "in" param);
   ("required", JBool (truthy (pyget_default "required" (JBool false) param)));
   ("description", pyget "description" param);
   ("schema",
    if is_dict (pyget "schema" param) then _sorted_dict (pyget "schema" param)
    else JNull)].

(** The sort key [((item.get("in") or ""), (item.get("name") or ""))]. *)
Definition contract_parameter_key (item : dict) : json :=
  JList [or_empty (pyget "in" item); or_empty (pyget "name" item)].

Definition render_contract (operation : Operation) (spec : json) (full : bool)
  : result json :=
  let op := match Model.operation operation with JDict d => d | _ => [] end in
  let params_raw := match pyget "parameters" op with JList l => l | _ => [] end in
  let parameters :=
    omap (fun param =>
            match param with
            | JDict p => Some (contract_parameter p)
            | _ => None
            end) params_raw in
  parameters ← sorted_by_key contract_parameter_key parameters;
  let request_body :=
    if is_dict (pyget "requestBody" op) then pyget "requestBody" op else JNull in
  let responses :=
    if is_dict (pyget "responses" op) then pyget "responses" op else JNull in
  request_body ←
    (if full then
       if truthy request_body then deep_resolve_refs request_body spec
       else Ok request_body
     else Ok JNull);
  responses ←
    (if full then
       if truthy responses then deep_resolve_refs responses spec else Ok responses
     else Ok JNull);
  Ok (JDict [("endpointId", JStr (op_key operation));
             ("specId", JStr (spec_id operation));
             ("operationId", operation_id operation);
             ("method", JStr (method operation));
             ("path", JStr (path operation));
             ("summary", summary operation);
             ("description", description operation);
             ("tags", JList (map JStr (tags operation)));
             ("parameters", JList (map JDict parameters));
             ("requestBody",
              if truthy request_body then _sorted_dict request_body else JNull);
             ("responses",
              if truthy responses then _sorted_dict responses else JNull)]).

End Render.

(** A value whose mappings have pairwise distinct keys, as every Python
    dictionary has. *)
Fixpoint distinct_keys (v : json) : bool :=
  match v with
  | JList l => forallb distinct_keys l
  | JDict d =>
      bool_decide (NoDup (dkeys d)) && forallb (fun kv => distinct_keys (snd kv)) d
  | _ => true
  end.

(** A list of strings in strictly ascending order. *)
Fixpoint ascending (l : list string) : bool :=
  match l with
  | x :: ((y :: _) as rest) => String.ltb x y && ascending rest
  | _ => true
  end.

(** A value whose mappings list their keys in strictly ascending order. *)
Fixpoint canonical (v : json) : bool :=
  match v with
  | JList l => forallb canonical l
  | JDict d => ascending (dkeys d) && forallb (fun kv => canonical (snd kv)) d
  | _ => true
  end.

(** A specification with two paths: a path item whose parameters its one
    operation partly overrides, and a path with two operations. *)
Definition pets_spec : json :=
  JDict [("openapi", JStr "3.0.3");
         ("paths",
          JDict [("/pets/{id}",
                  JDict [("parameters",
                          JList [JDict [("name", JStr "id"); ("in", JStr "path");
                                        ("required", JBool true)];
                                 JDict [("name", JStr "trace"); ("in", JStr "header")]]);
                         ("get",
                          JDict [("operationId", JStr "getPet");
                                 ("parameters",
                                  JList [JDict [("name", JStr "trace");
                                                ("in", JStr "header");
                                                ("required", JBool true)];
                                         JDict [("name", JStr "fields");
                                                ("in", JStr "query")]])])]);
                 ("/pets",
                  JDict [("post", pets_operation);
                         ("get", JDict [("operationId", JStr "listPets")])])]);
         ("components",
          JDict [("schemas",
                  JDict [("Pet", JDict [("type", JStr "object")]);
                         ("a/b~c", JDict [("type", JStr "string")])])])].

(** ** engine.py: the schemas of a specification *)
Module Schemas.
Import Model.

Definition _extract_schemas (spec_id : string) (spec : json) : list Schema :=
  let components :=
    match spec with JDict s => pyget "components" s | _ => JNull end in
  match components with
  | JDict components =>
      match pyget "schemas" components with
      | JDict schemas_block =>
          omap (fun item =>
                  match snd item with
                  | JDict schema =>
                      Some {| schema_spec_id := spec_id;
                              schema_name := fst item;
                              schema_description := pyget "description" schema;
                              schema := JDict schema |}
                  | _ => None
                  end)
            (Engine.sorted_items schemas_block)
      | _ => []
      end
  | _ => []
  end.

End Schemas.

(** ** server.py: the watch loop's comparison of fingerprints *)
Module Server.
Import Ingest.

(** The [for left, right in zip(prev_sorted, curr_sorted)] loop. *)
Fixpoint changed_zip (prev current : list SpecFingerprint) : bool :=
  match prev, current with
  | left_ :: prev', right_ :: current' =>
      if negb (String.eqb (fp_relative_path left_) (fp_relative_path right_)) then true
      else if negb (Z.eqb (fp_size left_) (fp_size right_))
              || negb (Qeq_bool (fp_mtime left_) (fp_mtime right_)) then true
      else changed_zip prev' current'
  | _, _ => false
  end.

Definition _fingerprints_changed (prev current : list SpecFingerprint) : bool :=
  if negb (Nat.eqb (length prev) (length current)) then true
  else
    let prev_sorted :=
      py_sorted (fun a b => String.leb (fp_relative_path a) (fp_relative_path b)) prev in
    let curr_sorted :=
      py_sorted (fun a b => String.leb (fp_relative_path a) (fp_relative_path b))
        current in
    changed_zip prev_sorted curr_sorted.

End Server.

(** Two fingerprints of the same file in the same state: the relative
    path, the size and the modification time agree. *)
Definition same_stat (a b : Ingest.SpecFingerprint) : Prop :=
  Ingest.fp_relative_path a = Ingest.fp_relative_path b
  /\ Ingest.fp_size a = Ingest.fp_size b
  /\ Qeq (Ingest.fp_mtime a) (Ingest.fp_mtime b).

(** The parameters of an operation that are mappings: those a contract
    lists. *)
Definition declared_parameters (operation : json) : list dict :=
  match operation with
  | JDict op =>
      match pyget "parameters" op with
      | JList params =>
          omap (fun param => match param with JDict p => Some p | _ => None end) params
      | _ => []
      end
  | _ => []
  end.

(** [x or ""] read as text, for a value that is a string or falsy. *)
Definition text_of (x : json) : string :=
  match x with JStr s => s | _ => "" end.

Definition text_or_falsy (x : json) : bool :=
  match x with JStr _ => true | _ => negb (truthy x) end.

(** A parameter whose [in] and [name] are strings or falsy, and the pair
    [(in, name)] a contract orders it by. *)
Definition plainly_keyed (param : dict) : bool :=
  text_or_falsy (pyget "in" param) && text_or_falsy (pyget "name" param).

Definition contract_order (item : dict) : string * string :=
  (text_of (pyget "in" item), text_of (pyget "name" item)).

(** The operation [getPet] of the sample specification, as extraction
    records it: the parameters of the path item merged with its own. *)
Definition get_pet : Model.Operation := {|
  Model.spec_id := "pets";
  Model.operation_id := JStr "getPet";
  Model.method := "get";
  Model.path := "/pets/{id}";
  Model.summary := JNull;
  Model.description := JNull;
  Model.tags := [];
  Model.operation :=
    JDict [("operationId", JStr "getPet");
           ("parameters",
            JList [JDict [("name", JStr "trace"); ("in", JStr "header");
                          ("required", JBool true)];
                   JDict [("name", JStr "id"); ("in", JStr "path");
                          ("required", JBool true)];
                   JDict [("name", JStr "fields"); ("in", JStr "query")]]);
           ("responses",
            JDict [("200", JDict [("description", JStr "a pet")])])]
|}.

(* ================================================================== *)
(** * Properties *)


(** ** Reference resolution: termination and the state of [seen] *)
Section ResolveFacts.
Import Resolve.

Lemma resolve_each_ok (rec : resolver) (vs : list json) (seen : gset string) :
  Forall (fun v => exists v', rec v seen = Some (Ok (v', seen))) vs ->
  exists vs', resolve_each rec vs seen = Some (Ok (vs', seen))
              /\ length vs' = length vs.
Proof.
  induction 1 as [|v vs [v' Hv] _ [vs' [IH Hlen]]]; simpl.
  - exists []. auto.
  - rewrite Hv, IH. exists (v' :: vs'). simpl. auto.
Qed.

Lemma resolve_each_mono (rec1 rec2 : resolver) (vs : list json) :
  (forall v seen r, rec1 v seen = Some r -> rec2 v seen = Some r) ->
  forall seen r, resolve_each rec1 vs seen = Some r ->
                 resolve_each rec2 vs seen = Some r.
Proof.
  intros Hrec. induction vs as [|v vs IH]; simpl; intros seen r H; [exact H|].
  destruct (rec1 v seen) as [[[v' s1]|e]|] eqn:E1; try discriminate.
  - rewrite (Hrec _ _ _ E1).
    destruct (resolve_each rec1 vs s1) as [r1|] eqn:E2; try discriminate.
    rewrite (IH _ _ E2). exact H.
  - rewrite (Hrec _ _ _ E1). exact H.
Qed.

Lemma deep_resolve_refs_body_mono (rec1 rec2 : resolver) (spec : json) :
  (forall v seen r, rec1 v seen = Some r -> rec2 v seen = Some r) ->
  forall value seen r,
    deep_resolve_refs_body rec1 spec value seen = Some r ->
    deep_resolve_refs_body rec2 spec value seen = Some r.
Proof.
  intros Hrec value seen r H. unfold deep_resolve_refs_body in *.
  destruct value as [| | | | |l|d]; try exact H.
  - destruct (resolve_each rec1 l seen) as [r1|] eqn:E; try discriminate.
    rewrite (resolve_each_mono _ _ _ Hrec _ _ E). exact H.
  - destruct (pyget "$ref" d) eqn:Eref.
    1-4,6-7:
      (destruct (resolve_each rec1 (map snd d) seen) as [r1|] eqn:E; try discriminate;
       rewrite (resolve_each_mono _ _ _ Hrec _ _ E); exact H).
    destruct (decide (s ∈ seen)); [exact H|].
    destruct (is_none (_resolve_ref_pointer spec s)); [exact H|].
    destruct (rec1 _ ({[s]} ∪ seen)) as [r1|] eqn:E; try discriminate.
    rewrite (Hrec _ _ _ E). exact H.
Qed.

Lemma deep_resolve_refs_fuel_mono (spec : json) (fuel : nat) :
  forall value seen r,
    deep_resolve_refs_fuel fuel spec value seen = Some r ->
    deep_resolve_refs_fuel (S fuel) spec value seen = Some r.
Proof.
  induction fuel as [|fuel IH]; intros value seen r H; [discriminate|].
  change (deep_resolve_refs_body (deep_resolve_refs_fuel (S fuel) spec) spec value seen = Some r).
  change (deep_resolve_refs_body (deep_resolve_refs_fuel fuel spec) spec value seen = Some r) in H.
  eapply deep_resolve_refs_body_mono; [exact IH | exact H].
Qed.

Lemma deep_resolve_refs_fuel_le (spec : json) (fuel fuel' : nat) value seen r :
  fuel <= fuel' ->
  deep_resolve_refs_fuel fuel spec value seen = Some r ->
  deep_resolve_refs_fuel fuel' spec value seen = Some r.
Proof.
  induction 1; auto using deep_resolve_refs_fuel_mono.
Qed.

Lemma height_elem (l : list json) (x : json) :
  x ∈ l -> height x <= list_max (map height l).
Proof.
  induction 1; simpl; lia.
Qed.

Lemma height_item (d : dict) (kv : string * json) :
  kv ∈ d -> height (snd kv) <= list_max (map (fun kv => height (snd kv)) d).
Proof.
  induction 1; simpl; lia.
Qed.

Lemma strings_of_elem (l : list json) (x : json) :
  x ∈ l -> strings_of x ⊆ strings_of (JList l).
Proof.
  induction 1; simpl in *; set_solver.
Qed.

Lemma strings_of_item (d : dict) (kv : string * json) :
  kv ∈ d -> strings_of (snd kv) ⊆ strings_of (JDict d).
Proof.
  induction 1; simpl in *; set_solver.
Qed.

Lemma pyget_item (k : string) (d : dict) :
  pyget k d = JNull \/ (k, pyget k d) ∈ d.
Proof.
  induction d as [|[k' v] d IH]; simpl; [by left|].
  destruct (String.eqb_spec k k') as [->|Hne].
  - right. left.
  - destruct IH as [IH|IH]; [by left|]. right. by right.
Qed.

Lemma pyget_height (k : string) (d : dict) :
  height (pyget k d) <= height (JDict d).
Proof.
  destruct (pyget_item k d) as [->|Hin]; simpl; [lia|].
  apply height_item in Hin. simpl in *. lia.
Qed.

Lemma pyget_strings (k : string) (d : dict) :
  strings_of (pyget k d) ⊆ strings_of (JDict d).
Proof.
  destruct (pyget_item k d) as [->|Hin]; [simpl; set_solver|].
  by apply strings_of_item in Hin.
Qed.

Lemma walk_pointer_inside (parts : list string) (current : json) :
  height (walk_pointer parts current) <= height current
  /\ strings_of (walk_pointer parts current) ⊆ strings_of current.
Proof.
  revert current. induction parts as [|part rest IH]; intros current; simpl.
  - split; [lia | set_solver].
  - destruct current as [| | | | |l|d]; try (simpl; split; [lia | set_solver]).
    destruct (is_none _); [simpl; split; [lia | set_solver]|].
    destruct (IH (pyget (unescape_part part) d)) as [H1 H2].
    pose proof (pyget_height (unescape_part part) d).
    pose proof (pyget_strings (unescape_part part) d).
    split; [lia | set_solver].
Qed.

Lemma resolve_ref_pointer_inside (spec : json) (ref : string) :
  height (_resolve_ref_pointer spec ref) <= height spec
  /\ strings_of (_resolve_ref_pointer spec ref) ⊆ strings_of spec.
Proof.
  unfold _resolve_ref_pointer.
  destruct (negb _); [simpl; split; [lia | set_solver]|].
  destruct (String.eqb _ _); [split; [lia | set_solver]|].
  apply walk_pointer_inside.
Qed.

(** Inside the root document every new reference is one of its strings, so
    each jump shrinks the set of strings not yet on the chain. *)
Lemma deep_resolve_refs_fuel_inside (spec : json) :
  forall n seen, size (strings_of spec ∖ seen) <= n ->
  forall value,
    strings_of value ⊆ strings_of spec -> height value <= height spec ->
    forall fuel, n * (height spec + 1) + height value + 1 <= fuel ->
    exists v, deep_resolve_refs_fuel fuel spec value seen = Some (Ok (v, seen)).
Proof.
  induction n as [n IHn] using lt_wf_ind. intros seen Hsz.
  induction value as [| | | | |l IHl|d IHd] using json_ind;
    intros Hsub Hh fuel Hfuel;
    (destruct fuel as [|fuel]; [lia|]); simpl; eauto.
  - destruct (resolve_each_ok (deep_resolve_refs_fuel fuel spec) l seen) as [vs [-> _]];
      [|eauto].
    rewrite Forall_forall in IHl. apply Forall_forall. intros x Hx.
    pose proof (height_elem _ _ Hx). pose proof (strings_of_elem _ _ Hx).
    apply IHl; simpl in *; [done | set_solver | lia | lia].
  - assert (Hitems :
        exists vs, resolve_each (deep_resolve_refs_fuel fuel spec) (map snd d) seen
                   = Some (Ok (vs, seen))).
    { destruct (resolve_each_ok (deep_resolve_refs_fuel fuel spec) (map snd d) seen)
        as [vs [Hvs _]]; [|eauto].
      apply Forall_map. rewrite Forall_forall in IHd. apply Forall_forall.
      intros kv Hkv. simpl.
      pose proof (height_item _ _ Hkv). pose proof (strings_of_item _ _ Hkv).
      apply IHd; simpl in *; [done | set_solver | lia | lia]. }
    destruct Hitems as [vs Hvs].
    unfold deep_resolve_refs_body.
    destruct (pyget "$ref" d) as [| | | |ref| |] eqn:Eref;
      try (rewrite Hvs; eauto).
    destruct (decide (ref ∈ seen)) as [|Hnotin]; [eauto|].
    destruct (is_none (_resolve_ref_pointer spec ref)) eqn:Enone; [eauto|].
    assert (Hin : ref ∈ strings_of spec).
    { pose proof (pyget_strings "$ref" d) as Hs. rewrite Eref in Hs.
      simpl in Hs. set_solver. }
    destruct (resolve_ref_pointer_inside spec ref) as [Hth Hts].
    assert (Hlt : size (strings_of spec ∖ ({[ref]} ∪ seen)) < size (strings_of spec ∖ seen)).
    { apply subset_size. set_solver. }
    destruct (IHn (size (strings_of spec ∖ ({[ref]} ∪ seen))) ltac:(lia)
                ({[ref]} ∪ seen) ltac:(lia) (_resolve_ref_pointer spec ref)
                Hts Hth fuel) as [v Hv].
    { assert (size (strings_of spec ∖ ({[ref]} ∪ seen)) + 1 <= n) by lia. nia. }
    rewrite Hv. destruct (decide (ref ∈ {[ref]} ∪ seen)) as [_|Hno]; [|set_solver].
    exists v. do 3 f_equal. set_solver.
Qed.

(** From any value: after the first jump the resolution is inside the root
    document. *)
Lemma deep_resolve_refs_fuel_total (spec : json) :
  forall value seen fuel,
    resolve_budget spec value <= fuel ->
    exists v, deep_resolve_refs_fuel fuel spec value seen = Some (Ok (v, seen)).
Proof.
  unfold resolve_budget.
  induction value as [| | | | |l IHl|d IHd] using json_ind;
    intros seen fuel Hfuel;
    (destruct fuel as [|fuel]; [lia|]); simpl; eauto.
  - destruct (resolve_each_ok (deep_resolve_refs_fuel fuel spec) l seen) as [vs [-> _]];
      [|eauto].
    rewrite Forall_forall in IHl. apply Forall_forall. intros x Hx.
    pose proof (height_elem _ _ Hx).
    apply IHl; simpl in *; [done | lia].
  - assert (Hitems :
        exists vs, resolve_each (deep_resolve_refs_fuel fuel spec) (map snd d) seen
                   = Some (Ok (vs, seen))).
    { destruct (resolve_each_ok (deep_resolve_refs_fuel fuel spec) (map snd d) seen)
        as [vs [Hvs _]]; [|eauto].
      apply Forall_map. rewrite Forall_forall in IHd. apply Forall_forall.
      intros kv Hkv. simpl.
      pose proof (height_item _ _ Hkv).
      apply IHd; simpl in *; [done | lia]. }
    destruct Hitems as [vs Hvs].
    unfold deep_resolve_refs_body.
    destruct (pyget "$ref" d) as [| | | |ref| |] eqn:Eref;
      try (rewrite Hvs; eauto).
    destruct (decide (ref ∈ seen)) as [|Hnotin]; [eauto|].
    destruct (is_none (_resolve_ref_pointer spec ref)) eqn:Enone; [eauto|].
    destruct (resolve_ref_pointer_inside spec ref) as [Hth Hts].
    destruct (deep_resolve_refs_fuel_inside spec (size (strings_of spec))
                ({[ref]} ∪ seen)) with (value := _resolve_ref_pointer spec ref)
                                       (fuel := fuel) as [v Hv]; try done.
    { apply subseteq_size. set_solver. }
    { simpl in Hfuel. nia. }
    rewrite Hv. destruct (decide (ref ∈ {[ref]} ∪ seen)) as [_|Hno]; [|set_solver].
    exists v. do 3 f_equal. set_solver.
Qed.

Lemma deep_resolve_refs_seen_fuel (spec value : json) (seen : gset string) fuel r :
  spec <> JNull ->
  deep_resolve_refs_fuel fuel spec value seen = Some r ->
  deep_resolve_refs_seen value spec seen = r.
Proof.
  intros Hspec Hrun.
  destruct (deep_resolve_refs_fuel_total spec value seen (resolve_budget spec value))
    as [v Hv]; [lia|].
  assert (Heq : Some r = Some (Ok (v, seen))).
  { rewrite <- (deep_resolve_refs_fuel_le spec fuel (fuel + resolve_budget spec value)
                  value seen r ltac:(lia) Hrun).
    apply (deep_resolve_refs_fuel_le spec (resolve_budget spec value)); [lia | done]. }
  unfold deep_resolve_refs_seen. rewrite Hv.
  destruct spec; congruence.
Qed.

Lemma deep_resolve_refs_seen_ok (spec value : json) (seen : gset string) :
  exists v, deep_resolve_refs_seen value spec seen = Ok (v, seen).
Proof.
  assert (spec = JNull \/ spec <> JNull) as [->|Hspec]
    by (destruct spec; (by left) || (by right)).
  { by exists value. }
  destruct (deep_resolve_refs_fuel_total spec value seen (resolve_budget spec value))
    as [v Hv]; [lia|].
  exists v. by apply (deep_resolve_refs_seen_fuel _ _ _ _ _ Hspec Hv).
Qed.

(** The total function satisfies the recursive equation of the source. *)
Lemma deep_resolve_refs_seen_unfold (spec value : json) (seen : gset string) :
  spec <> JNull ->
  deep_resolve_refs_body (fun v s => Some (deep_resolve_refs_seen v spec s))
    spec value seen = Some (deep_resolve_refs_seen value spec seen).
Proof.
  intros Hspec.
  destruct (deep_resolve_refs_fuel_total spec value seen (S (resolve_budget spec value)))
    as [v Hv]; [lia|].
  rewrite (deep_resolve_refs_seen_fuel _ _ _ _ _ Hspec Hv).
  eapply deep_resolve_refs_body_mono; [|exact Hv].
  intros v' s' r' Hr'. f_equal.
  by apply (deep_resolve_refs_seen_fuel _ _ _ _ _ Hspec Hr').
Qed.


Lemma deep_resolve_refs_ok (value spec : json) :
  exists v, deep_resolve_refs value spec = Ok v.
Proof.
  unfold deep_resolve_refs.
  destruct (deep_resolve_refs_seen_ok spec value ∅) as [v ->]. by exists v.
Qed.

(** *** JSON Pointers *)

Lemma str_replace2_cons (o1 o2 a : ascii) (new s : string) :
  (a = o1 -> forall s', s <> String o2 s') ->
  str_replace2 o1 o2 new (String a s) = String a (str_replace2 o1 o2 new s).
Proof.
  intros Hne. destruct s as [|b s']; [done|]. cbn [str_replace2].
  destruct (Ascii.eqb_spec a o1) as [->|?]; [|done].
  destruct (Ascii.eqb_spec b o2) as [->|?]; [|done].
  by destruct (Hne eq_refl s').
Qed.

Lemma unescape_slash (key : string) :
  str_replace2 "~" "1" "/" (escape_part key) = tilde_escaped key.
Proof.
  induction key as [|c rest IH]; [done|]. cbn [escape_part tilde_escaped].
  destruct (Ascii.eqb_spec c "~") as [->|Htilde].
  - rewrite str_replace2_cons by (intros _ s'; discriminate).
    rewrite str_replace2_cons by (intros H; discriminate). by rewrite IH.
  - destruct (Ascii.eqb_spec c "/") as [->|Hslash].
    + cbn [str_replace2]. cbn. by rewrite IH.
    + rewrite str_replace2_cons by (intros ->; done). by rewrite IH.
Qed.

Lemma unescape_tilde (key : string) :
  str_replace2 "~" "0" "~" (tilde_escaped key) = key.
Proof.
  induction key as [|c rest IH]; [done|]. cbn [tilde_escaped].
  destruct (Ascii.eqb_spec c "~") as [->|Htilde].
  - cbn [str_replace2]. cbn. by rewrite IH.
  - rewrite str_replace2_cons by (intros ->; done). by rewrite IH.
Qed.

Lemma unescape_escape (key : string) : unescape_part (escape_part key) = key.
Proof. unfold unescape_part. by rewrite unescape_slash, unescape_tilde. Qed.

Lemma escape_part_no_slash (key : string) : no_slash (escape_part key) = true.
Proof.
  induction key as [|c rest IH]; [done|]. cbn [escape_part].
  destruct (Ascii.eqb_spec c "~") as [->|?]; [by cbn|].
  destruct (Ascii.eqb_spec c "/") as [->|?]; [by cbn|].
  cbn [no_slash]. rewrite IH. by destruct (Ascii.eqb_spec c "/").
Qed.

Lemma str_split_no_slash (part rest : string) :
  no_slash part = true ->
  str_split "/" (part ++ String "/" rest) = part :: str_split "/" rest
  /\ str_split "/" part = [part].
Proof.
  induction part as [|c part IH]; [done|]. cbn [no_slash].
  intros [Hc Hpart]%andb_true_iff. apply negb_true_iff in Hc.
  destruct (IH Hpart) as [IH1 IH2].
  change (String c part ++ String "/" rest)%string
    with (String c (part ++ String "/" rest))%string.
  cbn [str_split]. by rewrite Hc, IH1, IH2.
Qed.

Lemma str_split_join (parts : list string) :
  parts <> [] -> Forall (fun p => no_slash p = true) parts ->
  str_split "/" (join "/" parts) = parts.
Proof.
  intros Hne Hparts. induction Hparts as [|p rest Hp Hrest IH]; [done|].
  unfold join in *. destruct rest as [|q rest].
  - cbn [String.concat]. by apply str_split_no_slash.
  - change (String.concat "/" (p :: q :: rest))
      with (p ++ String "/" (String.concat "/" (q :: rest)))%string.
    rewrite (proj1 (str_split_no_slash p _ Hp)). f_equal. by apply IH.
Qed.

Lemma walk_pointer_escaped (keys : list string) (v : json) :
  walk_pointer (map escape_part keys) v = lookup_path keys v.
Proof.
  revert v. induction keys as [|key rest IH]; intros v; [done|].
  cbn [map walk_pointer lookup_path]. destruct v; try done.
  rewrite unescape_escape. by rewrite IH.
Qed.

Lemma substring_all (s : string) : String.substring 0 (String.length s) s = s.
Proof. induction s as [|c s IH]; [done|]. cbn. by rewrite IH. Qed.

Lemma join_escaped_empty (keys : list string) :
  join "/" (map escape_part keys) = "" -> keys = [] \/ keys = [""].
Proof.
  destruct keys as [|key [|key' rest]]; [by left| |].
  - cbn. destruct key as [|c key]; [by right|]. cbn [escape_part].
    destruct (Ascii.eqb c "~"); [done|]. by destruct (Ascii.eqb c "/").
  - unfold join. cbn [map String.concat].
    destruct (escape_part key); discriminate.
Qed.

Lemma str_drop_local (pointer : string) : str_drop 2 ("#/" ++ pointer) = pointer.
Proof.
  unfold str_drop.
  change (String.length ("#/" ++ pointer) - 2) with (String.length pointer - 0).
  rewrite Nat.sub_0_r.
  change (String.substring 2 (String.length pointer) ("#/" ++ pointer))
    with (String.substring 0 (String.length pointer) pointer).
  apply substring_all.
Qed.

Lemma startswith_local (pointer : string) : startswith "#/" ("#/" ++ pointer) = true.
Proof. unfold startswith. by destruct pointer. Qed.




Example deep_resolve_refs_cycle_example :
  deep_resolve_refs (JDict [("$ref", JStr "#/a")])
    (JDict [("a", JDict [("b", JDict [("$ref", JStr "#/a")])])])
  = Ok (JDict [("b", JDict [])]).
Proof.
  vm_compute. reflexivity.
Qed.

End ResolveFacts.

(** ** Payload synthesis: the bounded recursions are total *)
Section PayloadTotality.
Import Resolve Payloads.
Context (lib : library) (amb : ambient).

Lemma fbind_some {A B} (r : fueled A) (k : A -> fueled B) :
  (exists x, r = Some x) -> (forall a, exists y, k a = Some y) ->
  exists y, fbind r k = Some y.
Proof.
  intros [[a|e] ->] Hk; simpl; eauto.
Qed.

Lemma fbind_mono {A B} (r1 r2 : fueled A) (k1 k2 : A -> fueled B) y :
  (forall x, r1 = Some x -> r2 = Some x) ->
  (forall a y, k1 a = Some y -> k2 a = Some y) ->
  fbind r1 k1 = Some y -> fbind r2 k2 = Some y.
Proof.
  intros Hr Hk. destruct r1 as [[a|e]|]; simpl; try discriminate.
  - rewrite (Hr _ eq_refl). simpl. apply Hk.
  - rewrite (Hr _ eq_refl). simpl. done.
Qed.

(** *** [_normalize_schema] *)

Lemma allof_step_mono (rec1 rec2 : json -> option dict) st sub st' :
  (forall s d, rec1 s = Some d -> rec2 s = Some d) ->
  allof_step rec1 st sub = Some st' -> allof_step rec2 st sub = Some st'.
Proof.
  intros Hrec. unfold allof_step. destruct st as [[merged properties] required].
  destruct (negb (is_dict sub)); [done|].
  destruct (rec1 sub) as [d|] eqn:E; [|discriminate].
  by rewrite (Hrec _ _ E).
Qed.

Lemma allof_loop_mono (rec1 rec2 : json -> option dict) subs :
  (forall s d, rec1 s = Some d -> rec2 s = Some d) ->
  forall st st', allof_loop rec1 st subs = Some st' -> allof_loop rec2 st subs = Some st'.
Proof.
  intros Hrec. induction subs as [|sub subs IH]; simpl; intros st st' H; [done|].
  destruct (allof_step rec1 st sub) as [st1|] eqn:E; [|discriminate].
  rewrite (allof_step_mono _ _ _ _ _ Hrec E). by apply IH.
Qed.

Lemma _normalize_schema_body_mono (rec1 rec2 : json -> option dict) schema d :
  (forall s d, rec1 s = Some d -> rec2 s = Some d) ->
  _normalize_schema_body amb rec1 schema = Some d ->
  _normalize_schema_body amb rec2 schema = Some d.
Proof.
  intros Hrec. unfold _normalize_schema_body.
  destruct schema as [| | | | | |s]; try done.
  destruct (if dhas "allOf" s then pyget "allOf" s else JNull); try done.
  destruct (allof_loop rec1 _ l) as [st|] eqn:E; [|discriminate].
  by rewrite (allof_loop_mono _ _ _ Hrec _ _ E).
Qed.

Lemma _normalize_schema_fuel_mono fuel :
  forall schema d,
    _normalize_schema_fuel amb fuel schema = Some d ->
    _normalize_schema_fuel amb (S fuel) schema = Some d.
Proof.
  induction fuel as [|fuel IH]; intros schema d H; [discriminate|].
  change (_normalize_schema_body amb (_normalize_schema_fuel amb (S fuel)) schema = Some d).
  change (_normalize_schema_body amb (_normalize_schema_fuel amb fuel) schema = Some d) in H.
  by eapply _normalize_schema_body_mono.
Qed.

Lemma _normalize_schema_fuel_le fuel fuel' schema d :
  fuel <= fuel' ->
  _normalize_schema_fuel amb fuel schema = Some d ->
  _normalize_schema_fuel amb fuel' schema = Some d.
Proof.
  induction 1; auto using _normalize_schema_fuel_mono.
Qed.

Lemma allof_loop_total (rec : json -> option dict) (subs : list json) :
  Forall (fun sub => exists d, rec sub = Some d) subs ->
  forall st, exists st', allof_loop rec st subs = Some st'.
Proof.
  induction 1 as [|sub subs [d Hd] _ IH]; simpl; intros st; [eauto|].
  unfold allof_step. destruct st as [[merged properties] required].
  destruct (negb (is_dict sub)); [apply IH|].
  rewrite Hd. apply IH.
Qed.

Lemma pyget_height_lt (k : string) (d : dict) :
  pyget k d <> JNull -> height (pyget k d) < height (JDict d).
Proof.
  intros Hne. destruct (pyget_item k d) as [Hnull|Hin]; [done|].
  apply height_item in Hin. simpl in *. lia.
Qed.

Lemma pyget_elem_height (k : string) (d : dict) (l : list json) (x : json) :
  pyget k d = JList l -> x ∈ l -> S (S (height x)) <= height (JDict d).
Proof.
  intros Hget Hx. pose proof (pyget_height_lt k d) as Hh. rewrite Hget in Hh.
  pose proof (height_elem _ _ Hx). specialize (Hh ltac:(done)). simpl in *. lia.
Qed.

Lemma _normalize_schema_fuel_total :
  forall fuel schema, height schema < fuel ->
  exists d, _normalize_schema_fuel amb fuel schema = Some d.
Proof.
  induction fuel as [|fuel IH]; intros schema Hh; [lia|].
  change (exists d, _normalize_schema_body amb (_normalize_schema_fuel amb fuel) schema = Some d).
  unfold _normalize_schema_body.
  destruct schema as [| | | | | |s]; eauto.
  destruct (dhas "allOf" s); eauto.
  destruct (pyget "allOf" s) as [| | | | |subs|] eqn:Hsubs; eauto.
  assert (Hsubs' : Forall (fun sub => exists d, _normalize_schema_fuel amb fuel sub = Some d) subs).
  { apply Forall_forall. intros sub Hsub. apply IH.
    pose proof (pyget_elem_height _ _ _ _ Hsubs Hsub). lia. }
  match goal with
  | |- context [allof_loop ?r ?st ?l] =>
      destruct (allof_loop_total r l Hsubs' st) as [[[merged properties] required] ->]
  end.
  eauto.
Qed.

Lemma _normalize_schema_of_fuel fuel schema d :
  _normalize_schema_fuel amb fuel schema = Some d -> _normalize_schema amb schema = d.
Proof.
  intros Hrun. unfold _normalize_schema.
  destruct (_normalize_schema_fuel_total (S (height schema)) schema) as [d' Hd']; [lia|].
  rewrite Hd'.
  pose proof (_normalize_schema_fuel_le fuel (fuel + S (height schema)) _ _ ltac:(lia) Hrun).
  pose proof (_normalize_schema_fuel_le (S (height schema)) (fuel + S (height schema)) _ _
                ltac:(lia) Hd').
  congruence.
Qed.

(** [_normalize_schema] satisfies the recursive equation of the source. *)
Lemma _normalize_schema_unfold schema :
  _normalize_schema_body amb (fun s => Some (_normalize_schema amb s)) schema
  = Some (_normalize_schema amb schema).
Proof.
  destruct (_normalize_schema_fuel_total (S (S (height schema))) schema) as [d Hd]; [lia|].
  rewrite (_normalize_schema_of_fuel _ _ _ Hd).
  change (_normalize_schema_body amb (_normalize_schema_fuel amb (S (height schema))) schema
          = Some d) in Hd.
  apply (_normalize_schema_body_mono (_normalize_schema_fuel amb (S (height schema))));
    [|exact Hd].
  intros s d' Hs. f_equal. by apply (_normalize_schema_of_fuel _ _ _ Hs).
Qed.

(** *** [_generate_from_schema] *)


Lemma object_loop_mono (rec1 rec2 : generator) properties provided required path depth :
  below rec1 rec2 ->
  forall prop_names output unknowns r,
    object_loop rec1 properties provided required path depth prop_names output unknowns
    = Some r ->
    object_loop rec2 properties provided required path depth prop_names output unknowns
    = Some r.
Proof.
  intros Hrec. induction prop_names as [|prop_name rest IH]; intros output unknowns r;
    simpl; [done|].
  destruct (negb (is_dict _)); [apply IH|].
  destruct (_ || _); [|apply IH].
  apply fbind_mono; [apply Hrec | intros a y; apply IH].
Qed.

Lemma items_loop_mono (rec1 rec2 : generator) items_schema path depth field_name :
  below rec1 rec2 ->
  forall items idx unknowns r,
    items_loop rec1 items_schema path depth field_name idx items unknowns = Some r ->
    items_loop rec2 items_schema path depth field_name idx items unknowns = Some r.
Proof.
  intros Hrec. induction items as [|item rest IH]; intros idx unknowns r; simpl; [done|].
  apply fbind_mono; [apply Hrec|]. intros a y.
  apply fbind_mono; [apply IH | done].
Qed.

Lemma _generate_object_body_mono (rec1 rec2 : generator) schema provided path unknowns
    discriminator depth r :
  below rec1 rec2 ->
  _generate_object_body lib amb rec1 schema provided path unknowns discriminator depth = Some r ->
  _generate_object_body lib amb rec2 schema provided path unknowns discriminator depth = Some r.
Proof.
  intros Hrec. unfold _generate_object_body.
  apply fbind_mono; [|done]. intros x. by apply object_loop_mono.
Qed.

Lemma _generate_from_schema_body_mono (rec1 rec2 : generator) :
  below rec1 rec2 ->
  below (_generate_from_schema_body lib amb rec1) (_generate_from_schema_body lib amb rec2).
Proof.
  intros Hrec schema provided path unknowns depth field_name r.
  unfold _generate_from_schema_body.
  destruct (Nat.ltb MAX_DEPTH depth); [done|].
  apply fbind_mono; [done|]. intros selected y.
  destruct (negb (is_none provided)).
  - destruct provided; try done.
    + destruct (str_is _ "array"); [|done].
      apply fbind_mono; [|done]. intros x. by apply items_loop_mono.
    + destruct (str_is _ "object"); [|done]. by apply _generate_object_body_mono.
  - destruct (dhas "const" _); [done|]. destruct (dhas "default" _); [done|].
    match goal with
    | |- context [match ?e with JList _ => _ | _ => _ end] => destruct e as [| | | | |[|first others]|]
    end.
    all: try (destruct (str_is _ "object"); [by apply _generate_object_body_mono|];
              destruct (str_is _ "array"); [|done];
              apply fbind_mono; [apply Hrec | done]).
    done.
Qed.

Lemma _generate_from_schema_fuel_mono fuel :
  below (_generate_from_schema_fuel lib amb fuel) (_generate_from_schema_fuel lib amb (S fuel)).
Proof.
  induction fuel as [|fuel IH]; [by intros ? ? ? ? ? ? ?|].
  change (below (_generate_from_schema_body lib amb (_generate_from_schema_fuel lib amb fuel))
            (_generate_from_schema_body lib amb (_generate_from_schema_fuel lib amb (S fuel)))).
  by apply _generate_from_schema_body_mono.
Qed.

Lemma _generate_from_schema_fuel_le fuel fuel' :
  fuel <= fuel' ->
  below (_generate_from_schema_fuel lib amb fuel) (_generate_from_schema_fuel lib amb fuel').
Proof.
  induction 1 as [|fuel' _ IH]; [by intros ? ? ? ? ? ? ?|].
  intros s p pa u d f r H. by apply _generate_from_schema_fuel_mono, IH.
Qed.

Lemma object_loop_total (rec : generator) properties provided required path depth :
  total_at rec (depth + 1) ->
  forall prop_names output unknowns,
    exists r, object_loop rec properties provided required path depth
                prop_names output unknowns = Some r.
Proof.
  intros Hrec. induction prop_names as [|prop_name rest IH]; intros output unknowns;
    simpl; [by eexists|].
  destruct (negb (is_dict _)); [apply IH|].
  destruct (_ || _); [|apply IH].
  apply fbind_some; [apply Hrec | intros a; apply IH].
Qed.

Lemma items_loop_total (rec : generator) items_schema path depth field_name :
  total_at rec (depth + 1) ->
  forall items idx unknowns,
    exists r, items_loop rec items_schema path depth field_name idx items unknowns
              = Some r.
Proof.
  intros Hrec. induction items as [|item rest IH]; intros idx unknowns; simpl;
    [by eexists|].
  apply fbind_some; [apply Hrec|]. intros a.
  apply fbind_some; [apply IH | by eexists].
Qed.

Lemma _generate_object_body_total (rec : generator) schema provided path unknowns
    discriminator depth :
  total_at rec (depth + 1) ->
  exists r, _generate_object_body lib amb rec schema provided path unknowns
              discriminator depth = Some r.
Proof.
  intros Hrec. unfold _generate_object_body.
  apply fbind_some; [by apply object_loop_total|]. intros a.
  destruct discriminator as [[discriminator_name discriminator_value]|]; [|by eexists].
  repeat (match goal with
          | |- context [if ?c then _ else _] => destruct c
          end; try (by eexists)).
  apply fbind_some; [by eexists | by eexists].
Qed.

Lemma _generate_from_schema_body_total (rec : generator) (depth : nat) :
  total_at rec (depth + 1) ->
  total_at (_generate_from_schema_body lib amb rec) depth.
Proof.
  intros Hrec schema provided path unknowns field_name.
  unfold _generate_from_schema_body.
  destruct (Nat.ltb MAX_DEPTH depth); [by eexists|].
  apply fbind_some; [by eexists|]. intros selected.
  destruct (negb (is_none provided)).
  - destruct provided; try (by eexists).
    + destruct (str_is _ "array"); [|by eexists].
      apply fbind_some; [by apply items_loop_total | by eexists].
    + destruct (str_is _ "object"); [|by eexists]. by apply _generate_object_body_total.
  - destruct (dhas "const" _); [by eexists|]. destruct (dhas "default" _); [by eexists|].
    match goal with
    | |- context [match ?e with JList _ => _ | _ => _ end] => destruct e as [| | | | |[|first others]|]
    end.
    all: try (destruct (str_is _ "object"); [by apply _generate_object_body_total|];
              destruct (str_is _ "array");
              [apply fbind_some; [apply Hrec | by eexists]|];
              apply fbind_some; [by eexists|]; intros guess;
              repeat (match goal with
                      | |- context [if ?c then _ else _] => destruct c
                      end; try (by eexists))).
    by eexists.
Qed.

Lemma _generate_from_schema_fuel_total :
  forall fuel depth, S (S MAX_DEPTH - depth) <= fuel ->
  total_at (_generate_from_schema_fuel lib amb fuel) depth.
Proof.
  induction fuel as [|fuel IH]; intros depth Hfuel; [lia|].
  change (total_at (_generate_from_schema_body lib amb (_generate_from_schema_fuel lib amb fuel))
            depth).
  destruct (Nat.ltb MAX_DEPTH depth) eqn:Hd.
  - intros schema provided path unknowns field_name.
    unfold _generate_from_schema_body. rewrite Hd. by eexists.
  - apply Nat.ltb_ge in Hd. apply _generate_from_schema_body_total, IH.
    unfold MAX_DEPTH in *. lia.
Qed.

Lemma _generate_from_schema_of_fuel fuel schema provided path unknowns depth field_name r :
  _generate_from_schema_fuel lib amb fuel schema provided path unknowns depth field_name
  = Some r ->
  _generate_from_schema lib amb schema provided path unknowns depth field_name = r.
Proof.
  intros Hrun. unfold _generate_from_schema.
  destruct (_generate_from_schema_fuel_total (S (S MAX_DEPTH - depth)) depth ltac:(lia)
              schema provided path unknowns field_name) as [r' Hr'].
  rewrite Hr'.
  pose proof (_generate_from_schema_fuel_le fuel (fuel + S (S MAX_DEPTH - depth))
                ltac:(lia) _ _ _ _ _ _ _ Hrun).
  pose proof (_generate_from_schema_fuel_le (S (S MAX_DEPTH - depth))
                (fuel + S (S MAX_DEPTH - depth)) ltac:(lia) _ _ _ _ _ _ _ Hr').
  congruence.
Qed.

(** [_generate_from_schema] satisfies the recursive equation of the source:
    the fuel never runs out. *)
Lemma _generate_from_schema_unfold schema provided path unknowns depth field_name :
  _generate_from_schema_body lib amb
    (fun s p pa u d f => Some (_generate_from_schema lib amb s p pa u d f))
    schema provided path unknowns depth field_name
  = Some (_generate_from_schema lib amb schema provided path unknowns depth field_name).
Proof.
  destruct (_generate_from_schema_fuel_total (S (S (S MAX_DEPTH - depth))) depth ltac:(lia)
              schema provided path unknowns field_name) as [r Hr].
  rewrite (_generate_from_schema_of_fuel _ _ _ _ _ _ _ _ Hr).
  change (_generate_from_schema_body lib amb
            (_generate_from_schema_fuel lib amb (S (S MAX_DEPTH - depth)))
            schema provided path unknowns depth field_name = Some r) in Hr.
  apply (_generate_from_schema_body_mono
           (_generate_from_schema_fuel lib amb (S (S MAX_DEPTH - depth)))); [|exact Hr].
  intros s p pa u d f r' Hr'. f_equal.
  by apply (_generate_from_schema_of_fuel _ _ _ _ _ _ _ _ Hr').
Qed.

End PayloadTotality.

(** ** Placeholders: the fuel never runs out *)
Section PlaceholderTotality.
Import Resolve Payloads.
Context (lib : library) (amb : ambient).

Lemma fbind_some_at {A B} (r : fueled A) (k : A -> fueled B) :
  (exists x, r = Some x) -> (forall a, r = Some (Ok a) -> exists y, k a = Some y) ->
  exists y, fbind r k = Some y.
Proof.
  intros [[a|e] ->] Hk; simpl; eauto.
Qed.

Lemma entries_below_le (n m : nat) (d : dict) :
  n <= m -> entries_below n d -> entries_below m d.
Proof.
  intros Hle Hd. eapply Forall_impl; [exact Hd|].
  intros kv [H|H]; [by left | right; lia].
Qed.

Lemma entries_below_dset (n : nat) (k : string) (v : json) (d : dict) :
  entries_below n d -> written_key k = true \/ height v <= n ->
  entries_below n (dset k v d).
Proof.
  intros Hd Hv. induction Hd as [|[k0 v0] d H0 Hd IH]; cbn [dset].
  - constructor; [done | constructor].
  - destruct (String.eqb k k0); constructor; auto.
Qed.

Lemma entries_below_dmerge (n : nat) (a b : dict) :
  entries_below n a -> entries_below n b -> entries_below n (dmerge a b).
Proof.
  unfold dmerge. intros Ha Hb. revert a Ha.
  induction Hb as [|kv b Hkv Hb IH]; intros a Ha; cbn [fold_left]; [done|].
  apply IH. by apply entries_below_dset.
Qed.

Lemma entries_below_dict (d : dict) : entries_below (pred (height (JDict d))) d.
Proof.
  apply Forall_forall. intros kv Hin. right. cbn [height pred].
  by apply height_item.
Qed.

Lemma entries_below_pyget (n : nat) (k : string) (d : dict) :
  entries_below n d -> written_key k = false -> height (pyget k d) <= n.
Proof.
  intros Hd Hk. destruct (pyget_item k d) as [->|Hin]; [cbn; lia|].
  unfold entries_below in Hd. rewrite Forall_forall in Hd. destruct (Hd _ Hin) as [H|H]; [|done].
  cbn in H. congruence.
Qed.

Lemma entries_below_infer_type (n : nat) (d : dict) :
  entries_below n d -> entries_below n (infer_type d).
Proof.
  intros Hd. unfold infer_type. destruct (negb _); [|done].
  destruct (is_dict _); [apply entries_below_dset; [done | by left]|].
  destruct (is_dict _); [apply entries_below_dset; [done | by left]|done].
Qed.

Lemma allof_step_entries (rec : json -> option dict) n merged properties required sub st' :
  (forall d, rec sub = Some d -> entries_below n d) ->
  entries_below n merged ->
  allof_step rec (merged, properties, required) sub = Some st' ->
  entries_below n (fst (fst st')).
Proof.
  intros Hrec Hm. unfold allof_step.
  destruct (negb (is_dict sub)); [by intros [= <-]|].
  destruct (rec sub) as [sub_schema|] eqn:Esub; [|done].
  specialize (Hrec _ eq_refl). intros [= <-]. cbn [fst snd].
  clear Esub. revert merged Hm.
  induction Hrec as [|kv rest Hkv _ IH]; intros merged Hm; cbn [fold_left]; [done|].
  apply IH. destruct (_ || _); [done|]. destruct (dhas (fst kv) merged); [done|].
  by apply entries_below_dset.
Qed.

Lemma allof_loop_entries (rec : json -> option dict) n subs :
  (forall sub d, sub ∈ subs -> rec sub = Some d -> entries_below n d) ->
  forall merged properties required st',
    entries_below n merged ->
    allof_loop rec (merged, properties, required) subs = Some st' ->
    entries_below n (fst (fst st')).
Proof.
  induction subs as [|sub subs IH]; intros Hrec merged properties required st' Hm;
    cbn [allof_loop].
  - by intros [= <-].
  - destruct (allof_step rec (merged, properties, required) sub)
      as [[[m1 p1] r1]|] eqn:Estep; [|done].
    intros Hloop. refine (IH _ m1 p1 r1 st' _ Hloop).
    + intros sub' d Hin Hd. apply (Hrec sub' d); [by right | done].
    + apply (allof_step_entries rec n merged properties required sub (m1, p1, r1));
        [|done|done].
      intros d Hd. apply (Hrec sub d); [by left | done].
Qed.

Lemma _normalize_schema_fuel_entries fuel :
  forall schema d,
    _normalize_schema_fuel amb fuel schema = Some d ->
    entries_below (pred (height schema)) d.
Proof.
  induction fuel as [|fuel IH]; intros schema d; [done|].
  change (_normalize_schema_fuel amb (S fuel) schema)
    with (_normalize_schema_body amb (_normalize_schema_fuel amb fuel) schema).
  unfold _normalize_schema_body.
  destruct schema as [| | | | | |s]; try (intros [= <-]; constructor).
  pose proof (entries_below_dict s) as Hs.
  destruct (dhas "allOf" s); [|intros [= <-]; by apply entries_below_infer_type].
  destruct (pyget "allOf" s) as [| | | | |subs|] eqn:Esubs;
    try (intros [= <-]; by apply entries_below_infer_type).
  destruct (allof_loop _ _ subs) as [[[merged properties] required]|] eqn:Eloop; [|done].
  assert (Hm : entries_below (pred (height (JDict s))) merged).
  { refine (allof_loop_entries (_normalize_schema_fuel amb fuel) _ subs _
              [] [] ∅ (merged, properties, required) _ Eloop); [|constructor].
    intros sub d' Hin Hsub. apply IH in Hsub.
    eapply entries_below_le; [|exact Hsub].
    pose proof (pyget_elem_height _ _ _ _ Esubs Hin). lia. }
  intros [= <-]. apply entries_below_infer_type, entries_below_dmerge; [done|].
  assert (Hm1 : entries_below (pred (height (JDict s)))
            (if truthy (JDict properties)
             then dset "type"
                    (pyget_default "type" (JStr "object")
                       (dset "properties" (JDict properties) merged))
                    (dset "properties" (JDict properties) merged)
             else merged)).
  { destruct (truthy (JDict properties)); [|done].
    apply entries_below_dset; [|by left]. apply entries_below_dset; [done | by left]. }
  destruct (negb (bool_decide (required = ∅))); [|done].
  apply entries_below_dset; [done | by left].
Qed.

(** What [_normalize_schema] returns under [items] lies inside the schema. *)
Lemma _normalize_schema_items (schema : json) :
  height (pyget "items" (_normalize_schema amb schema)) <= pred (height schema).
Proof.
  apply entries_below_pyget; [|done].
  destruct (_normalize_schema_fuel_total amb (S (height schema)) schema ltac:(lia))
    as [d Hd].
  rewrite (_normalize_schema_of_fuel amb _ _ _ Hd).
  by apply (_normalize_schema_fuel_entries _ _ _ Hd).
Qed.

Lemma first_option_height (test : dict -> bool) (options : list json) (n : nat) :
  Forall (fun o => height o <= n) options -> height (first_option test options) <= n.
Proof.
  induction 1 as [|option rest Ho _ IH]; [cbn; lia|].
  cbn [first_option]. destruct option; try done. by destruct (test d).
Qed.

Lemma _select_by_discriminator_height options prop_name value mapping r n :
  Forall (fun o => height o <= n) options -> height mapping <= S n ->
  _select_by_discriminator amb options prop_name value mapping = Ok r ->
  height r <= n.
Proof.
  intros Ho Hm. unfold _select_by_discriminator.
  pose proof (first_option_height
                (fun o => _option_matches_discriminator amb (JDict o) prop_name value)
                options n Ho) as Hby.
  destruct mapping as [| | | | | |m]; try (by intros [= <-]).
  destruct (negb (truthy (JDict m))); [by intros [= <-]|].
  destruct (in_dict value m) as [known|e]; [|done]. cbn [mbind result_bind].
  destruct known; [|by intros [= <-]].
  destruct value as [| | | |key| |]; try (by intros [= <-]).
  pose proof (pyget_height_lt key m) as Htarget.
  destruct (pyget key m) as [| | | |target| |target]; try (by intros [= <-]).
  - set (found := first_option
                    (fun o => py_eq (pyget "$ref" o) (JStr target)
                              || py_eq (pyget "$id" o) (JStr target)
                              || py_eq (pyget "title" o) (JStr target))
                    options).
    assert (Hfound : height found <= n) by (by apply first_option_height).
    destruct found; by intros [= <-].
  - intros [= <-]. specialize (Htarget ltac:(done)). lia.
Qed.

Lemma _infer_discriminator_option_height options prop_name option value n :
  Forall (fun o => height o <= n) options ->
  _infer_discriminator_option amb options prop_name = Some (option, value) ->
  height option <= n.
Proof.
  induction 1 as [|o rest Ho _ IH]; [done|].
  cbn [_infer_discriminator_option].
  destruct (negb (is_dict o)); [done|].
  destruct (negb (is_none _)); [|done]. by intros [= <- <-].
Qed.

Lemma select_discriminated_height schema options selected discriminator n :
  Forall (fun o => height o <= n) options -> height (JDict schema) <= S n ->
  select_discriminated amb schema options JNull = Ok (Some (selected, discriminator)) ->
  height selected <= n.
Proof.
  intros Ho Hs. unfold select_discriminated.
  pose proof (pyget_height_lt "discriminator" schema) as Hd.
  destruct (pyget "discriminator" schema) as [| | | | | |discriminator0]; try done.
  specialize (Hd ltac:(done)).
  destruct (negb (truthy (JDict discriminator0))); [done|].
  pose proof (pyget_height "mapping" discriminator0) as Hm.
  destruct (pyget "propertyName" discriminator0) as [| | | |prop_name| |]; try done.
  cbn [is_none negb mbind result_bind truthy].
  assert (Hinfer : forall r,
            match _infer_discriminator_option amb options prop_name with
            | Some (option, value) => Ok (Some (option, Some (prop_name, value)))
            | None => Ok None
            end = Ok (Some (selected, r)) -> height selected <= n).
  { intros r. destruct (_infer_discriminator_option amb options prop_name)
      as [[option value]|] eqn:Einfer; [|done].
    intros [= <- <-]. by eapply _infer_discriminator_option_height. }
  destruct (is_dict (pyget "mapping" discriminator0)); [|by apply Hinfer].
  destruct (pyget "mapping" discriminator0) as [| | | | | |m] eqn:Em;
    try (by apply Hinfer).
  destruct (truthy (JDict m)); [|by apply Hinfer].
  destruct (_select_by_discriminator amb options prop_name _ (JDict m))
    as [sel|e] eqn:Esel; [|done].
  cbn [mbind result_bind].
  assert (Hsel : height sel <= n).
  { eapply _select_by_discriminator_height; [exact Ho| |exact Esel]. lia. }
  destruct (truthy sel); intros [= <- <-]; [done|].
  destruct Ho; [cbn; lia | done].
Qed.

Lemma select_union_loop_height schema keys selected discriminator :
  select_union_loop amb schema JNull keys = Ok (selected, discriminator) ->
  height selected <= height (JDict schema).
Proof.
  induction keys as [|key keys IH]; cbn [select_union_loop].
  - by intros [= <- <-].
  - destruct (pyget key schema) as [| | | | |[|first others]|] eqn:Eoptions; try done.
    assert (Ho : Forall (fun o => height o <= pred (height (JDict schema)))
                   (first :: others)).
    { apply Forall_forall. intros o Hin.
      pose proof (pyget_elem_height _ _ _ _ Eoptions Hin). lia. }
    destruct (select_discriminated amb schema (first :: others) JNull)
      as [[[sel disc]|]|e] eqn:Esel; [| |done]; cbn [mbind result_bind].
    + intros [= <- <-].
      assert (Hs : height (JDict schema) <= S (pred (height (JDict schema)))) by lia.
      pose proof (select_discriminated_height _ _ _ _ _ Ho Hs Esel). lia.
    + destruct (is_dict first); [|done]. intros [= <- <-].
      inversion Ho; subst. lia.
Qed.

Lemma _select_union_schema_height schema selected discriminator :
  _select_union_schema amb schema JNull = Ok (selected, discriminator) ->
  height selected <= height schema \/ selected = JDict [].
Proof.
  unfold _select_union_schema.
  destruct schema; try (intros [= <- <-]; by right).
  intros H. left. by eapply select_union_loop_height.
Qed.

Lemma _placeholder_for_schema_body_mono
    (rec1 rec2 : json -> option string -> fueled json) schema field_name r :
  (forall s f y, rec1 s f = Some y -> rec2 s f = Some y) ->
  _placeholder_for_schema_body lib amb rec1 schema field_name = Some r ->
  _placeholder_for_schema_body lib amb rec2 schema field_name = Some r.
Proof.
  intros Hrec. unfold _placeholder_for_schema_body.
  destruct (negb (is_dict schema)); [done|].
  apply fbind_mono; [done|]. intros selected y.
  destruct (dhas "const" _); [done|].
  apply fbind_mono; [done|]. intros guess y'.
  repeat (match goal with
          | |- context [if ?c then _ else _] => destruct c
          end; try done).
  all: apply fbind_mono; [apply Hrec | done].
Qed.

Lemma _placeholder_for_schema_fuel_le fuel fuel' schema field_name r :
  fuel <= fuel' ->
  _placeholder_for_schema_fuel lib amb fuel schema field_name = Some r ->
  _placeholder_for_schema_fuel lib amb fuel' schema field_name = Some r.
Proof.
  intros Hle. revert fuel' Hle schema field_name r.
  induction fuel as [|fuel IH]; intros fuel' Hle schema field_name r; [done|].
  destruct fuel' as [|fuel']; [lia|].
  cbn [_placeholder_for_schema_fuel]. apply _placeholder_for_schema_body_mono.
  intros s f y. apply IH. lia.
Qed.

Lemma _placeholder_for_schema_body_empty
    (rec : json -> option string -> fueled json) field_name :
  _placeholder_for_schema_body lib amb rec (JDict []) field_name
  = Some (Ok (JStr "<string>")).
Proof. reflexivity. Qed.

Lemma _placeholder_for_schema_body_total
    (rec : json -> option string -> fueled json) (n : nat) schema field_name :
  (forall s f, height s <= n \/ s = JDict [] -> exists r, rec s f = Some r) ->
  height schema <= S n ->
  exists r, _placeholder_for_schema_body lib amb rec schema field_name = Some r.
Proof.
  intros Hrec Hschema. unfold _placeholder_for_schema_body.
  destruct (is_dict schema) eqn:Edict; cbn [negb]; [|by eexists].
  apply fbind_some_at; [by eexists|]. intros [selected discriminator] [= Hsel].
  cbn [fst].
  destruct (dhas "const" _); [by eexists|].
  apply fbind_some; [by eexists|]. intros guess.
  destruct (negb (is_none guess)); [by eexists|].
  repeat (match goal with
          | |- context [if str_is ?a ?b then _ else _] => destruct (str_is a b)
          end; try (by eexists)).
  apply fbind_some; [|by eexists]. apply Hrec.
  destruct (is_dict (pyget "items" (_normalize_schema amb selected)));
    [left | by right].
  pose proof (_normalize_schema_items selected) as Hitems.
  destruct (_select_union_schema_height _ _ _ Hsel) as [Hle| ->]; [lia|].
  change (pred (height (JDict []))) with 0 in Hitems. lia.
Qed.

(** The recursion of [_placeholder_for_schema] descends into [items]: the
    height of the schema bounds it. *)
Lemma _placeholder_for_schema_fuel_total :
  forall n schema field_name,
    height schema <= n \/ schema = JDict [] ->
    exists r, _placeholder_for_schema_fuel lib amb (S n) schema field_name = Some r.
Proof.
  induction n as [|n IH]; intros schema field_name [Hschema| ->];
    cbn [_placeholder_for_schema_fuel];
    try (rewrite _placeholder_for_schema_body_empty; by eexists).
  - unfold _placeholder_for_schema_body.
    destruct schema; try (by eexists); cbn in Hschema; lia.
  - apply (_placeholder_for_schema_body_total _ n); [|done].
    intros s f Hs. by apply IH.
Qed.

Lemma _placeholder_for_schema_of_fuel fuel schema field_name r :
  _placeholder_for_schema_fuel lib amb fuel schema field_name = Some r ->
  _placeholder_for_schema lib amb schema field_name = r.
Proof.
  intros Hrun. unfold _placeholder_for_schema.
  destruct (_placeholder_for_schema_fuel_total (height schema) schema field_name
              ltac:(left; lia)) as [r' Hr'].
  rewrite Hr'.
  pose proof (_placeholder_for_schema_fuel_le fuel (fuel + S (height schema)) _ _ _
                ltac:(lia) Hrun).
  pose proof (_placeholder_for_schema_fuel_le (S (height schema))
                (fuel + S (height schema)) _ _ _ ltac:(lia) Hr').
  congruence.
Qed.

(** [_placeholder_for_schema] satisfies the recursive equation of the
    source: the fuel never runs out. *)
Lemma _placeholder_for_schema_unfold schema field_name :
  _placeholder_for_schema_body lib amb
    (fun s f => Some (_placeholder_for_schema lib amb s f)) schema field_name
  = Some (_placeholder_for_schema lib amb schema field_name).
Proof.
  destruct (_placeholder_for_schema_fuel_total (S (height schema)) schema field_name
              ltac:(left; lia)) as [r Hr].
  rewrite (_placeholder_for_schema_of_fuel _ _ _ _ Hr).
  cbn [_placeholder_for_schema_fuel] in Hr.
  apply (_placeholder_for_schema_body_mono
           (_placeholder_for_schema_fuel lib amb (S (height schema)))); [|exact Hr].
  intros s f r' Hr'. f_equal.
  by apply (_placeholder_for_schema_of_fuel _ _ _ _ Hr').
Qed.

End PlaceholderTotality.

(** ** Payload synthesis: nesting of generated bodies *)
Section PayloadDepth.
Import Resolve Payloads.
Context (lib : library) (amb : ambient).


Lemma dhas_dset (k k' : string) (v : json) (d : dict) :
  dhas k (dset k' v d) = String.eqb k k' || dhas k d.
Proof.
  induction d as [|[k0 v0] d IH]; simpl.
  - by destruct (String.eqb k k').
  - destruct (String.eqb_spec k' k0) as [->|Hne]; simpl.
    + by destruct (String.eqb k k0).
    + rewrite IH. destruct (String.eqb_spec k k0) as [->|]; [|done].
      by rewrite orb_true_r.
Qed.

Lemma literal_height_dict (n : nat) (d : dict) :
  literal_height (JDict d) <= n <->
  Forall (fun kv => (literal_key (fst kv) = true -> carried_height (fst kv) (snd kv) <= n)
                    /\ literal_height (snd kv) <= n) d.
Proof.
  cbn [literal_height]. rewrite list_max_le, List.Forall_map.
  split; intros H; (eapply List.Forall_impl; [|exact H]); cbn beta; intros kv.
  - destruct (literal_key (fst kv)); split; try done; lia.
  - intros [H1 H2]. destruct (literal_key (fst kv)); [specialize (H1 eq_refl)|]; lia.
Qed.

Lemma literal_height_list (n : nat) (l : list json) :
  literal_height (JList l) <= n <-> Forall (fun x => literal_height x <= n) l.
Proof. cbn [literal_height]. by rewrite list_max_le, List.Forall_map. Qed.

Lemma literal_height_pyget (n : nat) (k : string) (d : dict) :
  literal_height (JDict d) <= n -> literal_height (pyget k d) <= n.
Proof.
  intros H%literal_height_dict.
  destruct (pyget_item k d) as [->|Hin]; [cbn; lia|].
  rewrite Forall_forall in H. by destruct (H _ Hin).
Qed.

Lemma carried_height_pyget (n : nat) (k : string) (d : dict) :
  literal_height (JDict d) <= n -> literal_key k = true ->
  carried_height k (pyget k d) <= n.
Proof.
  intros H%literal_height_dict Hk.
  destruct (pyget_item k d) as [->|Hin].
  - unfold carried_height. destruct (String.eqb k "enum"); cbn; lia.
  - rewrite Forall_forall in H. destruct (H _ Hin) as [Hc _]. by apply Hc.
Qed.

Lemma literal_height_dset (n : nat) (k : string) (v : json) (d : dict) :
  (literal_key k = true -> carried_height k v <= n) -> literal_height v <= n ->
  literal_height (JDict d) <= n -> literal_height (JDict (dset k v d)) <= n.
Proof.
  intros Hk Hv Hd%literal_height_dict. apply literal_height_dict.
  induction Hd as [|[k0 v0] d H0 Hd IH]; cbn [dset].
  - by repeat constructor.
  - destruct (String.eqb k k0); constructor; auto.
Qed.

Lemma literal_height_dmerge (n : nat) (a b : dict) :
  literal_height (JDict a) <= n -> literal_height (JDict b) <= n ->
  literal_height (JDict (dmerge a b)) <= n.
Proof.
  unfold dmerge. intros Ha Hb%literal_height_dict. revert a Ha.
  induction Hb as [|kv b [H1 H2] Hb IH]; intros a Ha; cbn [fold_left]; [done|].
  apply IH. by apply literal_height_dset.
Qed.

Lemma literal_height_strings (n : nat) (l : list string) :
  literal_height (JList (map JStr l)) <= n.
Proof.
  apply literal_height_list, Forall_forall.
  intros x [s [-> _]]%list_elem_of_fmap. cbn. lia.
Qed.

Lemma literal_height_infer_type (n : nat) (d : dict) :
  literal_height (JDict d) <= n -> literal_height (JDict (infer_type d)) <= n.
Proof.
  intros Hd. unfold infer_type.
  destruct (negb (dhas "type" d)); [|done].
  destruct (is_dict (pyget "properties" d));
    [apply literal_height_dset; [done | cbn; lia | done]|].
  destruct (is_dict (pyget "items" d)); [|done].
  apply literal_height_dset; [done | cbn; lia | done].
Qed.

Lemma allof_step_literal_height (n : nat) (rec : json -> option dict)
    merged properties required sub st' :
  (forall s d, literal_height s <= n -> rec s = Some d -> literal_height (JDict d) <= n) ->
  literal_height (JDict merged) <= n -> literal_height (JDict properties) <= n ->
  literal_height sub <= n ->
  allof_step rec (merged, properties, required) sub = Some st' ->
  literal_height (JDict (fst (fst st'))) <= n
  /\ literal_height (JDict (snd (fst st'))) <= n.
Proof.
  intros Hrec Hm Hp Hsub. unfold allof_step.
  destruct (negb (is_dict sub)); [by intros [= <-]|].
  destruct (rec sub) as [sub_schema|] eqn:Esub; [|done].
  specialize (Hrec _ _ Hsub Esub). intros [= <-]. cbn [fst snd]. split.
  - apply literal_height_dict in Hrec as Hall. clear Esub Hrec. revert merged Hm.
    induction Hall as [|kv rest [H1 H2] Hall IH]; intros merged Hm; cbn [fold_left];
      [done|].
    apply IH.
    destruct (_ || _); [done|]. destruct (dhas (fst kv) merged); [done|].
    by apply literal_height_dset.
  - pose proof (literal_height_pyget n "properties" _ Hrec) as Hprops.
    destruct (pyget "properties" sub_schema); try done.
    by apply literal_height_dmerge.
Qed.

Lemma allof_loop_literal_height (n : nat) (rec : json -> option dict) subs :
  (forall s d, literal_height s <= n -> rec s = Some d -> literal_height (JDict d) <= n) ->
  Forall (fun sub => literal_height sub <= n) subs ->
  forall merged properties required st',
    literal_height (JDict merged) <= n -> literal_height (JDict properties) <= n ->
    allof_loop rec (merged, properties, required) subs = Some st' ->
    literal_height (JDict (fst (fst st'))) <= n
    /\ literal_height (JDict (snd (fst st'))) <= n.
Proof.
  intros Hrec. induction 1 as [|sub subs Hsub _ IH];
    intros merged properties required st' Hm Hp; cbn [allof_loop].
  - by intros [= <-].
  - destruct (allof_step rec (merged, properties, required) sub)
      as [[[m1 p1] r1]|] eqn:Estep; [|done].
    destruct (allof_step_literal_height n rec merged properties required sub (m1, p1, r1)
                Hrec Hm Hp Hsub Estep) as [Hm1 Hp1].
    by apply IH.
Qed.

Lemma _normalize_schema_fuel_literal_height (n : nat) fuel :
  forall schema d,
    literal_height schema <= n ->
    _normalize_schema_fuel amb fuel schema = Some d ->
    literal_height (JDict d) <= n.
Proof.
  induction fuel as [|fuel IH]; intros schema d Hlf; [done|].
  change (_normalize_schema_fuel amb (S fuel) schema)
    with (_normalize_schema_body amb (_normalize_schema_fuel amb fuel) schema).
  unfold _normalize_schema_body.
  destruct schema as [| | | | | |s]; try (intros [= <-]; cbn; lia).
  pose proof (literal_height_pyget n "allOf" _ Hlf) as Hsubs.
  destruct (dhas "allOf" s); [|intros [= <-]; by apply literal_height_infer_type].
  destruct (pyget "allOf" s) as [| | | | |subs|];
    try (intros [= <-]; by apply literal_height_infer_type).
  destruct (allof_loop _ _ subs) as [[[merged properties] required]|] eqn:Eloop; [|done].
  destruct (allof_loop_literal_height n _ _ IH (proj1 (literal_height_list _ _) Hsubs)
              [] [] ∅ _ ltac:(cbn; lia) ltac:(cbn; lia) Eloop) as [Hm Hp].
  cbn [fst snd] in Hm, Hp.
  intros [= <-]. apply literal_height_infer_type, literal_height_dmerge; [done|].
  assert (Hm1 : literal_height (JDict
            (if truthy (JDict properties)
             then dset "type"
                    (pyget_default "type" (JStr "object")
                       (dset "properties" (JDict properties) merged))
                    (dset "properties" (JDict properties) merged)
             else merged)) <= n).
  { destruct (truthy (JDict properties)); [|done].
    assert (literal_height (JDict (dset "properties" (JDict properties) merged)) <= n)
      by (by apply literal_height_dset).
    apply literal_height_dset; [done| |done].
    unfold pyget_default. destruct (dhas "type" _); [|cbn; lia].
    by apply literal_height_pyget. }
  destruct (negb (bool_decide (required = ∅))); [|done].
  apply literal_height_dset; [done | apply literal_height_strings | done].
Qed.

Lemma _normalize_schema_literal_height (n : nat) (schema : json) :
  literal_height schema <= n -> literal_height (JDict (_normalize_schema amb schema)) <= n.
Proof.
  intros Hlf. unfold _normalize_schema.
  destruct (_normalize_schema_fuel amb _ schema) as [d|] eqn:E; [|cbn; lia].
  by eapply _normalize_schema_fuel_literal_height.
Qed.

Lemma dhas_false_pyget (k : string) (d : dict) :
  dhas k d = false -> pyget k d = JNull.
Proof.
  induction d as [|[k0 v0] d IH]; simpl; [done|].
  destruct (String.eqb k k0); [done | exact IH].
Qed.


Lemma first_option_literal_height (n : nat) (test : dict -> bool) (options : list json) :
  literal_height (JList options) <= n ->
  literal_height (first_option test options) <= n.
Proof.
  intros H%literal_height_list. induction H as [|option rest Ho _ IH]; [cbn; lia|].
  cbn [first_option]. destruct option; try done. by destruct (test d).
Qed.

Lemma _select_by_discriminator_literal_height (n : nat) options prop_name value mapping r :
  literal_height (JList options) <= n -> literal_height mapping <= n ->
  _select_by_discriminator amb options prop_name value mapping = Ok r ->
  literal_height r <= n.
Proof.
  intros Ho Hm. unfold _select_by_discriminator.
  pose proof (first_option_literal_height n
                (fun o => _option_matches_discriminator amb (JDict o) prop_name value)
                options Ho) as Hby.
  destruct mapping as [| | | | | |m]; try (by intros [= <-]).
  destruct (negb (truthy (JDict m))); [by intros [= <-]|].
  destruct (in_dict value m) as [known|e]; [|done]. cbn [mbind result_bind].
  destruct known; [|by intros [= <-]].
  destruct value as [| | | |key| |]; try (by intros [= <-]).
  pose proof (literal_height_pyget n key _ Hm) as Htarget.
  destruct (pyget key m) as [| | | |target| |target]; try (by intros [= <-]).
  set (found := first_option
                  (fun o => py_eq (pyget "$ref" o) (JStr target)
                            || py_eq (pyget "$id" o) (JStr target)
                            || py_eq (pyget "title" o) (JStr target))
                  options).
  assert (Hfound : literal_height found <= n)
    by (by apply first_option_literal_height).
  destruct found; by intros [= <-].
Qed.

Lemma _infer_discriminator_value_nesting (n : nat) option prop_name :
  literal_height option <= n ->
  height (_infer_discriminator_value amb option prop_name) <= n.
Proof.
  intros Ho. apply _normalize_schema_literal_height in Ho.
  unfold _infer_discriminator_value.
  pose proof (literal_height_pyget n "properties" _ Ho) as Hp.
  assert (Hprops : literal_height
            (JDict match pyget "properties" (_normalize_schema amb option) with
                   | JDict p => p
                   | _ => []
                   end) <= n).
  { destruct (pyget "properties" (_normalize_schema amb option)); try done; cbn; lia. }
  pose proof (literal_height_pyget n prop_name _ Hprops) as Hs.
  destruct (pyget prop_name _) as [| | | | | |prop_schema]; try (cbn; lia).
  pose proof (carried_height_pyget n "const" _ Hs eq_refl) as Hconst.
  pose proof (carried_height_pyget n "default" _ Hs eq_refl) as Hdefault.
  pose proof (carried_height_pyget n "enum" _ Hs eq_refl) as Henum.
  unfold carried_height in *. cbn [String.eqb Ascii.eqb Bool.eqb] in *.
  destruct (dhas "const" prop_schema); [done|].
  destruct (pyget "enum" prop_schema) as [| | | | |[|first others]|];
    try (destruct (dhas "default" prop_schema); [done | cbn; lia]).
  cbn [height map list_max fold_right] in Henum. cbn in Henum. lia.
Qed.

Lemma _infer_discriminator_option_nesting (n : nat) options prop_name option value :
  literal_height (JList options) <= n ->
  _infer_discriminator_option amb options prop_name = Some (option, value) ->
  literal_height option <= n /\ value <> JNull /\ height value <= n.
Proof.
  intros H%literal_height_list. induction H as [|first rest Ho _ IH]; [done|].
  cbn [_infer_discriminator_option].
  destruct (negb (is_dict first)); [done|].
  destruct (negb (is_none _)) eqn:Enone; [|done].
  intros [= <- <-]. split; [done|]. split.
  - intros Hnull. by rewrite Hnull in Enone.
  - by apply _infer_discriminator_value_nesting.
Qed.

Lemma select_discriminated_literal_height (n : nat) schema options provided selected
    discriminator :
  literal_height (JDict schema) <= n -> literal_height (JList options) <= n ->
  select_discriminated amb schema options provided = Ok (Some (selected, discriminator)) ->
  literal_height selected <= n /\ discriminator_below provided n discriminator.
Proof.
  intros Hs Ho. unfold select_discriminated.
  pose proof (literal_height_pyget n "discriminator" _ Hs) as Hd.
  destruct (pyget "discriminator" schema) as [| | | | | |discriminator0]; try done.
  destruct (negb (truthy (JDict discriminator0))); [done|].
  pose proof (literal_height_pyget n "mapping" _ Hd) as Hm.
  set (mapping := if is_dict (pyget "mapping" discriminator0)
                  then pyget "mapping" discriminator0 else JNull).
  assert (Hmapping : literal_height mapping <= n)
    by (unfold mapping; destruct (is_dict _); [done | cbn; lia]).
  clearbody mapping.
  destruct (pyget "propertyName" discriminator0) as [| | | |prop_name| |]; try done.
  set (provided_value := match provided with JDict p => pyget prop_name p | _ => JNull end).
  assert (Hvalue : provided_value <> JNull ->
                   height provided_value <= Nat.max (pred (height provided)) n).
  { unfold provided_value. destruct provided as [| | | | | |p]; try done.
    intros Hne%pyget_height_lt. lia. }
  clearbody provided_value.
  assert (Hinfer :
    match _infer_discriminator_option amb options prop_name with
    | Some (option, value) => Ok (Some (option, Some (prop_name, value)))
    | None => Ok None
    end = Ok (Some (selected, discriminator)) ->
    literal_height selected <= n /\ discriminator_below provided n discriminator).
  { destruct (_infer_discriminator_option amb options prop_name) as [[option value]|]
      eqn:Einfer; [|done].
    destruct (_infer_discriminator_option_nesting n _ _ _ _ Ho Einfer) as (H1 & H2 & H3).
    intros [= <- <-]. split; [done|]. cbn. split; [done | lia]. }
  destruct (is_none provided_value) eqn:Enone; cbn [negb mbind result_bind].
  - cbn [truthy]. destruct mapping as [| | | | | |m]; try exact Hinfer.
    destruct (truthy (JDict m)); [|exact Hinfer].
    destruct (_select_by_discriminator amb options prop_name _ (JDict m))
      as [sel|e] eqn:Esel; [|done].
    cbn [mbind result_bind].
    pose proof (_select_by_discriminator_literal_height n _ _ _ _ _ Ho Hmapping Esel)
      as Hsel.
    destruct (truthy sel); intros [= <- <-]; (split; [|cbn; split; [done | lia]]);
      [done|].
    apply literal_height_list in Ho. destruct Ho; [cbn; lia | done].
  - destruct (_select_by_discriminator amb options prop_name provided_value mapping)
      as [by_provided|e] eqn:Eby; [|done].
    cbn [mbind result_bind].
    pose proof (_select_by_discriminator_literal_height n _ _ _ _ _ Ho Hmapping Eby)
      as Hby.
    destruct (truthy by_provided).
    { intros [= <- <-]. split; [done|]. cbn. split.
      - intros Hnull. by rewrite Hnull in Enone.
      - apply Hvalue. intros Hnull. by rewrite Hnull in Enone. }
    destruct mapping as [| | | | | |m]; try exact Hinfer.
    destruct (truthy (JDict m)); [|exact Hinfer].
    destruct (_select_by_discriminator amb options prop_name (JStr _) (JDict m))
      as [sel|e'] eqn:Esel; [|done].
    cbn [mbind result_bind].
    pose proof (_select_by_discriminator_literal_height n _ _ _ _ _ Ho Hmapping Esel)
      as Hsel.
    destruct (truthy sel); intros [= <- <-]; (split; [|cbn; split; [done | lia]]);
      [done|].
    apply literal_height_list in Ho. destruct Ho; [cbn; lia | done].
Qed.

Lemma select_union_loop_literal_height (n : nat) schema provided keys selected
    discriminator :
  literal_height (JDict schema) <= n ->
  select_union_loop amb schema provided keys = Ok (selected, discriminator) ->
  literal_height selected <= n /\ discriminator_below provided n discriminator.
Proof.
  intros Hs. induction keys as [|key keys IH]; cbn [select_union_loop].
  - by intros [= <- <-].
  - pose proof (literal_height_pyget n key _ Hs) as Ho.
    destruct (pyget key schema) as [| | | | |[|first others]|]; try done.
    destruct (select_discriminated amb schema (first :: others) provided)
      as [[[sel disc]|]|e] eqn:Esel; [| |done]; cbn [mbind result_bind].
    + intros [= <- <-]. by eapply select_discriminated_literal_height.
    + destruct (is_dict first); [|done]. intros [= <- <-]. split; [|done].
      apply literal_height_list in Ho. by inversion Ho.
Qed.

Lemma _select_union_schema_literal_height (n : nat) schema provided selected
    discriminator :
  literal_height schema <= n ->
  _select_union_schema amb schema provided = Ok (selected, discriminator) ->
  literal_height selected <= n /\ discriminator_below provided n discriminator.
Proof.
  intros Hs. unfold _select_union_schema.
  destruct schema; try (intros [= <- <-]; split; [cbn; lia | done]).
  by apply select_union_loop_literal_height.
Qed.

Lemma _guess_value_height field_name schema g :
  _guess_value lib amb field_name schema = Ok g -> height g = 0.
Proof.
  unfold _guess_value, provide, provide_moment.
  repeat match goal with
         | |- Ok _ = Ok _ -> _ => intros [= <-]; reflexivity
         | |- Raise _ = Ok _ -> _ => discriminate
         | |- context [mbind _ ?r] => destruct r; cbn [mbind result_bind]
         | |- context [if ?c then _ else _] => destruct c
         end.
Qed.

Lemma dset_heights (n : nat) (k : string) (v : json) (d : dict) :
  Forall (fun kv => height (snd kv) <= n) d -> height v <= n ->
  Forall (fun kv => height (snd kv) <= n) (dset k v d).
Proof.
  intros Hd Hv. induction Hd as [|[k0 v0] d H0 Hd IH]; cbn [dset].
  - by repeat constructor.
  - destruct (String.eqb k k0); constructor; auto.
Qed.

Lemma height_dict_bound (n : nat) (d : dict) :
  Forall (fun kv => height (snd kv) <= n) d -> height (JDict d) <= S n.
Proof.
  intros Hd. cbn [height]. apply le_n_S.
  induction Hd as [|kv d H0 Hd IH]; simpl; lia.
Qed.

Lemma pyget_height_pred (k : string) (d : dict) :
  height (pyget k d) <= pred (height (JDict d)).
Proof.
  destruct (pyget_item k d) as [->|Hin]; simpl; [lia|].
  by apply height_item in Hin.
Qed.

Lemma height_list_bound (n : nat) (l : list json) :
  Forall (fun x => height x <= n) l -> height (JList l) <= S n.
Proof.
  intros Hl. cbn [height]. apply le_n_S.
  induction Hl as [|x l H0 Hl IH]; simpl; lia.
Qed.

Lemma object_loop_nesting (rec : generator) (n : nat) properties provided required path
    depth :
  nesting_ok rec (depth + 1) -> literal_height (JDict properties) <= n ->
  forall prop_names output unknowns output' unknowns',
    Forall (fun kv => height (snd kv)
                      <= Nat.max (pred (height (JDict provided)))
                           (S MAX_DEPTH - (depth + 1) + n)) output ->
    object_loop rec properties provided required path depth prop_names output unknowns
    = Some (Ok (output', unknowns')) ->
    Forall (fun kv => height (snd kv)
                      <= Nat.max (pred (height (JDict provided)))
                           (S MAX_DEPTH - (depth + 1) + n)) output'.
Proof.
  intros Hrec Hprops.
  induction prop_names as [|prop_name rest IH]; intros output unknowns output' unknowns' Hout;
    cbn [object_loop].
  - by intros [= <- <-].
  - pose proof (literal_height_pyget n prop_name _ Hprops) as Hschema.
    destruct (negb (is_dict _)); [by apply IH|].
    destruct (existsb (String.eqb prop_name) required
              || negb (is_none (pyget prop_name provided))); [|by apply IH].
    destruct (rec _ _ _ _ (depth + 1) _) as [[[v u1]|e]|] eqn:Erec; try done.
    cbn [fbind fst snd]. apply IH, dset_heights; [done|].
    apply Hrec in Erec. pose proof (pyget_height_pred prop_name provided). lia.
Qed.

Lemma _generate_object_body_nesting (rec : generator) (n : nat) schema provided path
    unknowns discriminator depth v unknowns' :
  nesting_ok rec (depth + 1) -> literal_height (JDict schema) <= n ->
  discriminator_below (JDict provided) n discriminator -> depth <= MAX_DEPTH ->
  _generate_object_body lib amb rec schema provided path unknowns discriminator depth
  = Some (Ok (v, unknowns')) ->
  height v <= Nat.max (height (JDict provided)) (S MAX_DEPTH - depth + n).
Proof.
  intros Hrec Hschema Hdisc Hdepth. unfold _generate_object_body.
  pose proof (literal_height_pyget n "properties" _ Hschema) as Hp.
  set (properties := match pyget "properties" schema with JDict p => p | _ => [] end).
  assert (Hprops : literal_height (JDict properties) <= n)
    by (unfold properties; destruct (pyget "properties" schema); try done; cbn; lia).
  destruct (object_loop rec properties provided _ path depth _ [] unknowns)
    as [[[output u1]|e]|] eqn:Eloop; try done.
  pose proof (object_loop_nesting _ n _ _ _ _ _ Hrec Hprops _ _ _ _ _
                ltac:(constructor) Eloop) as Hout.
  cbn [fbind fst snd].
  assert (Hplain : height (JDict output)
                   <= Nat.max (height (JDict provided)) (S MAX_DEPTH - depth + n)).
  { apply height_dict_bound in Hout. unfold MAX_DEPTH in *. cbn [height] in *. lia. }
  destruct discriminator as [[name value]|]; [|by intros [= <- <-]].
  destruct Hdisc as [Hvalue Hheight].
  assert (Htagged : height (JDict (dset name value output))
                    <= Nat.max (height (JDict provided)) (S MAX_DEPTH - depth + n)).
  { pose proof (height_dict_bound _ _ (dset_heights _ name value _ Hout
                                         ltac:(lia))).
    unfold MAX_DEPTH in *. cbn [height] in *. lia. }
  assert (Hnone : is_none value = false) by (by destruct value).
  rewrite Hnone. cbn [negb].
  repeat match goal with
         | |- context [if ?c then _ else _] => destruct c
         end; intros [= <- <-]; auto.
Qed.

Lemma items_loop_nesting (rec : generator) (bound : nat) items_schema path depth
    field_name :
  nesting_ok rec (depth + 1) ->
  forall items idx unknowns output unknowns',
    Forall (fun item => Nat.max (height item)
                          (S MAX_DEPTH - (depth + 1) + literal_height items_schema)
                        <= bound) items ->
    items_loop rec items_schema path depth field_name idx items unknowns
    = Some (Ok (output, unknowns')) ->
    Forall (fun x => height x <= bound) output.
Proof.
  intros Hrec. induction items as [|item rest IH]; intros idx unknowns output unknowns' Hitems;
    cbn [items_loop].
  - by intros [= <- <-].
  - apply Forall_cons in Hitems as [Hitem Hrest].
    destruct (rec _ item _ _ (depth + 1) _) as [[[v u1]|e]|] eqn:Erec; try done.
    cbn [fbind fst snd].
    destruct (items_loop rec items_schema path depth field_name (S idx) rest u1)
      as [[[vs u2]|e]|] eqn:Eloop; try done.
    cbn [fbind fst snd]. intros [= <- <-]. constructor.
    + apply Hrec in Erec. lia.
    + by eapply IH.
Qed.

Lemma _generate_from_schema_body_nesting (rec : generator) (depth : nat) :
  nesting_ok rec (depth + 1) ->
  nesting_ok (_generate_from_schema_body lib amb rec) depth.
Proof.
  intros Hrec schema provided path unknowns field_name v unknowns'.
  unfold _generate_from_schema_body.
  destruct (Nat.ltb MAX_DEPTH depth) eqn:Hdepth.
  { intros [= <- <-]. simpl. lia. }
  apply Nat.ltb_ge in Hdepth.
  destruct (_select_union_schema amb schema provided) as [[selected discriminator]|e]
    eqn:Esel; [|done].
  cbn [lift fbind fst snd].
  destruct (_select_union_schema_literal_height (literal_height schema) _ _ _ _
              (Nat.le_refl _) Esel) as [Hsel Hdisc].
  pose proof (_normalize_schema_literal_height _ _ Hsel) as Hnorm.
  set (normal := _normalize_schema amb selected) in *.
  set (n := literal_height schema) in *.
  assert (Hitems : literal_height
            (if is_dict (pyget "items" normal) then pyget "items" normal else JDict [])
          <= n).
  { destruct (is_dict _); [by apply literal_height_pyget | cbn; lia]. }
  assert (Hobject : forall p,
            discriminator_below (JDict p) n discriminator ->
            _generate_object_body lib amb rec normal p path unknowns discriminator depth
            = Some (Ok (v, unknowns')) ->
            height v <= Nat.max (height (JDict p)) (S MAX_DEPTH - depth + n))
    by (intros p Hp; by apply _generate_object_body_nesting).
  destruct provided as [| | | | |l|p]; cbn [is_none negb];
    try (intros [= <- <-]; lia).
  - pose proof (carried_height_pyget n "const" _ Hnorm eq_refl) as Hconst.
    pose proof (carried_height_pyget n "default" _ Hnorm eq_refl) as Hdefault.
    pose proof (carried_height_pyget n "enum" _ Hnorm eq_refl) as Henum.
    unfold carried_height in *. cbn [String.eqb Ascii.eqb Bool.eqb] in *.
    destruct (dhas "const" normal); [intros [= <- <-]; lia|].
    destruct (dhas "default" normal); [intros [= <- <-]; lia|].
    assert (Hsynth :
      (if str_is (pyget "type" normal) "object"
       then _generate_object_body lib amb rec normal [] path unknowns discriminator depth
       else if str_is (pyget "type" normal) "array"
       then fbind (rec (if is_dict (pyget "items" normal) then pyget "items" normal
                        else JDict [])
                     JNull (path ++ "[0]")%string unknowns (depth + 1) field_name)
              (fun r => lift (Ok (JList [fst r], snd r)))
       else fbind (lift (_guess_value lib amb (name_or field_name path) normal))
              (fun guess =>
                 if negb (is_none guess) then lift (Ok (guess, unknowns))
                 else if str_is (pyget "type" normal) "integer"
                 then lift (Ok (JInt 0, unknowns))
                 else if str_is (pyget "type" normal) "number"
                 then lift (Ok (JFloat 0, unknowns))
                 else if str_is (pyget "type" normal) "boolean"
                 then lift (Ok (JBool false, unknowns))
                 else lift (Ok (JStr "<string>", unknowns))))
      = Some (Ok (v, unknowns')) ->
      height v <= Nat.max (height JNull) (S MAX_DEPTH - depth + n)).
    { destruct (str_is (pyget "type" normal) "object").
      { intros Hrun. apply Hobject in Hrun; [|exact Hdisc].
        unfold MAX_DEPTH in *. cbn [height list_max map fold_right] in *. lia. }
      destruct (str_is (pyget "type" normal) "array").
      - destruct (rec _ JNull _ unknowns (depth + 1) field_name) as [[[item u1]|e]|]
          eqn:Erec; try done.
        cbn [lift fbind fst snd]. intros [= <- <-]. apply Hrec in Erec.
        cbn [height list_max map fold_right] in *. unfold MAX_DEPTH in *. lia.
      - destruct (_guess_value lib amb _ normal) as [guess|e] eqn:Eguess; [|done].
        cbn [lift fbind]. apply _guess_value_height in Eguess.
        repeat match goal with
               | |- context [if ?c then _ else _] => destruct c
               end; intros [= <- <-]; simpl; lia. }
    destruct (dhas "enum" normal); [|exact Hsynth].
    destruct (pyget "enum" normal) as [| | | | |[|first others]|]; try exact Hsynth.
    intros [= <- <-]. cbn [height map list_max fold_right] in Henum. cbn in Henum. lia.
  - destruct (str_is (pyget "type" normal) "array"); [|intros [= <- <-]; lia].
    destruct (items_loop rec _ path depth field_name 0 l unknowns)
      as [[[output u1]|e]|] eqn:Eloop; try done.
    cbn [lift fbind fst snd]. intros [= <- <-].
    assert (Hout : Forall (fun x => height x
                                    <= Nat.max (list_max (map height l))
                                         (S MAX_DEPTH - (depth + 1) + n)) output).
    { eapply (items_loop_nesting rec); [exact Hrec | | exact Eloop].
      apply Forall_forall. intros item Hin%height_elem. lia. }
    apply height_list_bound in Hout.
    cbn [height] in *. unfold MAX_DEPTH in *. lia.
  - destruct (str_is (pyget "type" normal) "object"); [|intros [= <- <-]; lia].
    by apply Hobject.
Qed.

Lemma _generate_from_schema_fuel_nesting :
  forall fuel depth, nesting_ok (_generate_from_schema_fuel lib amb fuel) depth.
Proof.
  induction fuel as [|fuel IH]; intros depth; [by intros ? ? ? ? ? ? ?|].
  apply _generate_from_schema_body_nesting, IH.
Qed.

(** C2: called with [depth > MAX_DEPTH = 3] the generator returns the
    sentinel ["<recursion_limit>"] for every schema and every provided
    value.  Consequently what it returns at a depth nests no deeper than
    the larger of two bounds: the nesting of the provided value, and the
    [MAX_DEPTH + 1 - depth] levels the guard leaves, four from the top,
    raised by the nesting of the deepest literal the schema carries
    under [const], [default] or [enum].  A body generated from a schema
    whose literals are all scalars, for a provided value of at most that
    many levels, has at most [MAX_DEPTH + 1 - depth] levels. *)
Theorem generate_depth_guard (schema provided : json) (path : string)
    (unknowns : list string) (depth : nat) (field_name : option string) :
  MAX_DEPTH = 3
  /\ (3 < depth ->
        _generate_from_schema lib amb schema provided path unknowns depth field_name
        = Ok (JStr "<recursion_limit>", unknowns))
  /\ (forall v unknowns',
        _generate_from_schema lib amb schema provided path unknowns depth field_name
        = Ok (v, unknowns') ->
        height v <= Nat.max (height provided) (4 - depth + literal_height schema)
        /\ (literal_height schema = 0 -> height provided <= 4 - depth ->
            height v <= 4 - depth)).
Proof.
  split; [reflexivity|]. split.
  - intros Hdepth.
    apply (_generate_from_schema_of_fuel lib amb 1). cbn [_generate_from_schema_fuel].
    unfold _generate_from_schema_body.
    by replace (Nat.ltb MAX_DEPTH depth) with true
      by (symmetry; apply Nat.ltb_lt; unfold MAX_DEPTH; lia).
  - intros v unknowns' Hrun.
    assert (Hbound : height v
                     <= Nat.max (height provided) (4 - depth + literal_height schema)).
    { unfold _generate_from_schema in Hrun.
      destruct (_generate_from_schema_fuel lib amb _ schema provided path unknowns depth
                  field_name) as [r|] eqn:Efuel.
      + subst r. apply (_generate_from_schema_fuel_nesting _ _ _ _ _ _ _ _ _ Efuel).
      + injection Hrun as <- <-. simpl. lia. }
    split; [exact Hbound | lia].
Qed.

End PayloadDepth.

(** Six nested objects: the fifth level is the sentinel, and the body has
    four nesting levels; and an object whose property is one of two
    listed strings. *)
Lemma generate_depth_guard_witness :
  3 < 4
  /\ Payloads._generate_from_schema sample_library sample_ambient
       (nested_schema 6) JNull "body" [] 4 (Some "body")
     = Ok (JStr "<recursion_limit>", [])
  /\ literal_height (nested_schema 6) = 0
  /\ Resolve.height
       (JDict [("next", JDict [("next", JDict [("next",
          JDict [("next", JStr "<recursion_limit>")])])])]) <= 4 - 0
  /\ literal_height listed_schema = 0
  /\ Resolve.height (JDict [("kind", JStr "cat")]) <= 4 - 0.
Proof.
  pose proof (generate_depth_guard sample_library sample_ambient (nested_schema 6) JNull
                "body" [] 4 (Some "body")) as [_ [Hguard _]].
  pose proof (generate_depth_guard sample_library sample_ambient (nested_schema 6) JNull
                "body" [] 0 (Some "body")) as [_ [_ Hnest]].
  pose proof (generate_depth_guard sample_library sample_ambient listed_schema JNull
                "body" [] 0 (Some "body")) as [_ [_ Hlisted]].
  split; [lia|]. split; [apply Hguard; lia|]. split; [reflexivity|].
  split.
  { apply (Hnest _ ["body.next"; "body.next.next"; "body.next.next.next";
                    "body.next.next.next.next"]);
      [vm_compute; reflexivity | reflexivity | simpl; lia]. }
  split; [reflexivity|].
  apply (Hlisted _ ["body.kind"]); [vm_compute; reflexivity | reflexivity | simpl; lia].
Defined.

(** A body of more than four nesting levels in which the sentinel does not
    occur: a provided value of five levels is returned as it is where the
    schema declares no object, and a property that is required and not
    provided takes the [default] its schema carries. *)
Lemma generate_depth_counterexample :
  (Payloads._generate_from_schema sample_library sample_ambient
     (JDict []) (nested_value 5) "body" [] 0 (Some "body")
   = Ok (nested_value 5, [])
   /\ 4 < Resolve.height (nested_value 5)
   /\ has_sentinel (nested_value 5) = false)
  /\ (let body := JDict [("next", nested_value 5)] in
      Payloads._generate_from_schema sample_library sample_ambient
        defaulted_schema JNull "body" [] 0 (Some "body")
      = Ok (body, ["body.next"])
      /\ 4 < Resolve.height body
      /\ has_sentinel body = false).
Proof.
  split; (split; [vm_compute; reflexivity|]); (split; [simpl; lia | reflexivity]).
Qed.


(** ** Unknown endpoints *)
Section UnknownEndpoint.
Import Engine.
Context (ext : externals CatalogEngine).

Lemma lookup_absent (self : CatalogEngine) (endpoint_id : string) (rows : list dict) :
  Index.operations (_index self) = Some rows ->
  Forall (fun row => pyget "id" row <> JStr endpoint_id) rows ->
  lookup self endpoint_id = Ok JNull.
Proof.
  intros Hrows Habsent. unfold lookup, Index.get_operation_by_endpoint_id,
    Index.fetchone_where. rewrite Hrows. clear Hrows.
  replace (filter _ rows) with (@nil dict); [done|].
  symmetry. induction Habsent as [|row rows Hrow _ IH]; [done|].
  rewrite filter_cons, <- IH.
  destruct (decide _) as [Hyes|]; [|done]. exfalso. apply Hrow.
  destruct (pyget "id" row); try done. simpl in Hyes.
  apply Is_true_true, String.eqb_eq in Hyes. by subst.
Qed.

(** C4, as the code has it: for an [endpoint_id] with no row in a ready
    index, [payload_validate] answers with its usual [{ok, errors}] shape,
    one error with empty path and message "Unknown endpointId";
    [execute_request] answers [{ok:false, error:"Unknown endpointId"}] when
    execution is enabled and the execution-disabled error otherwise;
    [endpoint_get] and [payload_generate] return the empty mapping; the
    engine is left as it was. *)
Theorem unknown_endpoint_contract (self : CatalogEngine) (endpoint_id : string)
    (rows : list dict) (request : dict) (auth_token : json) (full : bool)
    (provided_fields : option dict) :
  Index.operations (_index self) = Some rows ->
  Forall (fun row => pyget "id" row <> JStr endpoint_id) rows ->
  payload_validate ext self endpoint_id request
  = (Ok (JDict [("ok", JBool false);
                ("errors", JList [JDict [("path", JStr "");
                                         ("message", JStr "Unknown endpointId")]])]),
     self)
  /\ execute_request ext self endpoint_id request auth_token
     = (Ok (if String.eqb (default "0" (getenv ext "OPENAPI_EXECUTION")) "1"
            then JDict [("ok", JBool false); ("error", JStr "Unknown endpointId")]
            else JDict [("ok", JBool false);
                        ("error",
                         JStr "Execution disabled. Set OPENAPI_EXECUTION=1 to enable.")]),
        self)
  /\ endpoint_get ext self endpoint_id full = (Ok (JDict []), self)
  /\ payload_generate ext self endpoint_id provided_fields = (Ok (JDict []), self).
Proof.
  intros Hrows Habsent.
  pose proof (lookup_absent self endpoint_id rows Hrows Habsent) as Hlookup.
  unfold payload_validate, execute_request, endpoint_get, payload_generate.
  rewrite Hlookup. repeat split.
  by destruct (String.eqb _ "1").
Qed.

End UnknownEndpoint.

Lemma unknown_endpoint_contract_witness :
  Index.operations (Engine._index sample_engine) = Some []
  /\ Forall (fun row => pyget "id" row <> JStr "pets:missing") []
  /\ Engine.endpoint_get (sample_externals None) sample_engine "pets:missing" true
     = (Ok (JDict []), sample_engine).
Proof.
  split; [reflexivity|]. split; [constructor|].
  exact (proj1 (proj2 (proj2
           (unknown_endpoint_contract (sample_externals None) sample_engine "pets:missing"
              [] [] JNull true None eq_refl (@List.Forall_nil _ _))))).
Defined.

(** C4 as stated fails: on an unknown endpoint [payload_validate] does not
    return [{ok:false, error:"Unknown endpointId"}], and neither does
    [execute_request] while execution is disabled. *)
Lemma unknown_endpoint_counterexample :
  fst (Engine.payload_validate (sample_externals None) sample_engine "pets:missing" [])
  <> Ok (JDict [("ok", JBool false); ("error", JStr "Unknown endpointId")])
  /\ fst (Engine.execute_request (sample_externals None) sample_engine "pets:missing" []
            JNull)
     <> Ok (JDict [("ok", JBool false); ("error", JStr "Unknown endpointId")]).
Proof.
  split; vm_compute; discriminate.
Qed.

(** ** Sorting *)
Section SortingFacts.
Context {A : Type} (leb : A -> A -> bool).

Lemma insert_sorted_perm (x : A) (l : list A) : insert_sorted leb x l ≡ₚ x :: l.
Proof.
  induction l as [|y l IH]; simpl; [done|].
  destruct (leb x y); [done|]. rewrite IH. apply Permutation_swap.
Qed.

Lemma py_sorted_perm (l : list A) : py_sorted leb l ≡ₚ l.
Proof.
  induction l as [|x l IH]; simpl; [done|].
  by rewrite insert_sorted_perm, IH.
Qed.

Lemma py_sorted_elem_of (x : A) (l : list A) : x ∈ py_sorted leb l <-> x ∈ l.
Proof. by rewrite py_sorted_perm. Qed.


Hypothesis leb_total : forall x y, leb x y = true \/ leb y x = true.

Lemma insert_sorted_sorted (x : A) (l : list A) :
  Sorted (leb_rel leb) l -> Sorted (leb_rel leb) (insert_sorted leb x l).
Proof.
  induction 1 as [|y l Hl IH Hy]; simpl; [by repeat constructor|].
  destruct (leb x y) eqn:Hxy.
  - constructor; [by constructor | by constructor].
  - constructor; [done|].
    assert (Hyx : leb_rel leb y x) by (destruct (leb_total x y); [congruence | done]).
    destruct l as [|z l]; simpl; [by constructor|].
    destruct (leb x z); constructor; [done|]. by inversion Hy.
Qed.

Lemma py_sorted_sorted (l : list A) : Sorted (leb_rel leb) (py_sorted leb l).
Proof.
  induction l as [|x l IH]; simpl; [constructor | by apply insert_sorted_sorted].
Qed.

End SortingFacts.

(** ** Extraction of operations *)
Section ExtractionFacts.
Import Model Engine.

Lemma pyget_dset_ne (k k' : string) (v : json) (d : dict) :
  k <> k' -> pyget k (dset k' v d) = pyget k d.
Proof.
  intros Hne. induction d as [|[k0 v0] d IH]; simpl.
  - by apply String.eqb_neq in Hne as ->.
  - destruct (String.eqb_spec k' k0) as [->|Hne']; simpl.
    + by apply String.eqb_neq in Hne as ->.
    + by rewrite IH.
Qed.


Lemma extract_operation_from sid path path_item method op :
  extract_operation sid path path_item method = Ok (Some op) ->
  extracted_from sid op /\ Model.method op = method /\ Model.path op = path.
Proof.
  unfold extract_operation.
  destruct (pyget method path_item) as [| | | | | |operation]; try done.
  set (merged := _merge_parameters _ _).
  destruct (if truthy (pyget "tags" operation) then _ else _) as [tags_list|e]; [|done].
  cbn [mbind result_bind]. intros [= <-]. cbn.
  repeat split. eexists. split; [reflexivity|].
  destruct merged; [done|]. by rewrite pyget_dset_ne.
Qed.

Lemma extract_methods_from sid path path_item methods ops :
  extract_methods sid path path_item methods = Ok ops ->
  Forall (fun op => extracted_from sid op /\ Model.path op = path
                    /\ Model.method op ∈ methods) ops.
Proof.
  revert ops. induction methods as [|method rest IH]; intros ops; cbn [extract_methods].
  - intros [= <-]. constructor.
  - destruct (extract_operation sid path path_item method) as [op|e] eqn:Eop; [|done].
    cbn [mbind result_bind].
    destruct (extract_methods sid path path_item rest) as [more|e]; [|done].
    cbn [mbind result_bind]. intros [= <-].
    specialize (IH _ eq_refl).
    assert (Hmore : Forall (fun op => extracted_from sid op /\ Model.path op = path
                                      /\ Model.method op ∈ method :: rest) more).
    { eapply Forall_impl; [exact IH|]. intros o (? & ? & ?).
      split; [done|]. split; [done|]. by right. }
    destruct op as [op|]; [|done].
    constructor; [|done].
    destruct (extract_operation_from _ _ _ _ _ Eop) as (? & <- & ?).
    split; [done|]. split; [done|]. left.
Qed.

Lemma extract_paths_from sid items ops :
  extract_paths sid items = Ok ops ->
  Forall (fun op => extracted_from sid op
                    /\ Model.method op ∈ Ingest.list_http_methods) ops.
Proof.
  revert ops. induction items as [|[path path_item] rest IH]; intros ops;
    cbn [extract_paths].
  - intros [= <-]. constructor.
  - destruct path_item as [| | | | | |path_item]; try apply IH.
    destruct (extract_methods sid path path_item _) as [here|e] eqn:Ehere; [|done].
    cbn [mbind result_bind].
    destruct (extract_paths sid rest) as [more|e]; [|done].
    cbn [mbind result_bind]. intros [= <-].
    apply Forall_app. split; [|by apply IH].
    eapply Forall_impl; [exact (extract_methods_from _ _ _ _ _ Ehere)|].
    by intros o (? & ? & ?).
Qed.

(** C9: every extracted operation whose source [operationId] is missing, not
    a string, or the empty string is keyed ["{spec_id}:{method}:{path}"];
    one with a non-empty string [operationId] is keyed
    ["{spec_id}:{operation_id}"]. *)
Theorem op_key_without_operation_id (sid : string) (spec : json)
    (ops : list Operation) (op : Operation) :
  _extract_operations sid spec = Ok ops -> op ∈ ops ->
  exists payload,
    operation op = JDict payload
    /\ Model.method op ∈ Ingest.list_http_methods
    /\ (is_str (pyget "operationId" payload) = false \/ pyget "operationId" payload = JStr "" ->
          op_key op = (sid ++ ":" ++ Model.method op ++ ":" ++ Model.path op)%string)
    /\ (forall id, pyget "operationId" payload = JStr id -> id <> "" ->
          op_key op = (sid ++ ":" ++ id)%string).
Proof.
  unfold _extract_operations. intros Hrun Hin.
  destruct spec as [| | | | | |s]; try (injection Hrun as <-; by apply elem_of_nil in Hin).
  destruct (pyget "paths" s) as [| | | | | |paths];
    try (injection Hrun as <-; by apply elem_of_nil in Hin).
  destruct (extract_paths sid (sorted_items paths)) as [operations|e] eqn:Epaths; [|done].
  cbn [mbind result_bind] in Hrun. injection Hrun as <-.
  apply py_sorted_elem_of in Hin.
  pose proof (extract_paths_from _ _ _ Epaths) as Hall.
  rewrite Forall_forall in Hall.
  destruct (Hall _ Hin) as [[Hsid (payload & Hpayload & Hid)] Hmethod].
  exists payload. split; [done|]. split; [done|].
  unfold op_key. rewrite Hid, Hsid. split.
  - intros [Hnot | Hempty].
    + by rewrite Hnot.
    + by rewrite Hempty.
  - intros id Hop Hne. rewrite Hop. cbn.
    by apply String.eqb_neq in Hne as ->.
Qed.

End ExtractionFacts.

Lemma op_key_without_operation_id_witness :
  Engine._extract_operations "pets"
    (JDict [("paths", JDict [("/pets", JDict [("post",
       JDict [("operationId", JStr "")])])])])
  = Ok [{| Model.spec_id := "pets"; Model.operation_id := JStr "";
           Model.method := "post"; Model.path := "/pets";
           Model.summary := JNull; Model.description := JNull; Model.tags := [];
           Model.operation := JDict [("operationId", JStr "")] |}]
  /\ Model.op_key
       {| Model.spec_id := "pets"; Model.operation_id := JStr "";
          Model.method := "post"; Model.path := "/pets";
          Model.summary := JNull; Model.description := JNull; Model.tags := [];
          Model.operation := JDict [("operationId", JStr "")] |}
     = "pets:post:/pets".
Proof.
  split; [reflexivity|].
  destruct (op_key_without_operation_id "pets"
              (JDict [("paths", JDict [("/pets", JDict [("post",
                 JDict [("operationId", JStr "")])])])])
              _ {| Model.spec_id := "pets"; Model.operation_id := JStr "";
                   Model.method := "post"; Model.path := "/pets";
                   Model.summary := JNull; Model.description := JNull; Model.tags := [];
                   Model.operation := JDict [("operationId", JStr "")] |}
              eq_refl ltac:(left))
    as (payload & Hpayload & _ & Hkey & _).
  injection Hpayload as <-. apply Hkey. by right.
Defined.

(** ** Validation of request bodies *)
Section ValidationFacts.
Import Resolve Payloads Validate.
Context (lib : validators).

Lemma _extract_request_body_without_schema (operation spec : json) :
  declared_body_schema operation = JNull ->
  _extract_request_body operation spec = Ok JNull
  \/ exists rb, _extract_request_body operation spec = Ok (JDict rb)
                /\ pyget "schema" rb = JNull.
Proof.
  unfold declared_body_schema, _extract_request_body.
  destruct operation as [| | | | | |op]; auto.
  destruct (pyget "requestBody" op) as [| | | | | |request_body]; auto.
  destruct (pyget "content" request_body) as [| | | | | |[|entry content]]; auto.
  cbn [truthy negb].
  set (content_type := if dhas "application/json" (entry :: content) then _ else _).
  destruct (pyget content_type (entry :: content)) as [| | | | | |media];
    try (intros _; right; eexists; split; reflexivity).
  destruct (is_dict (pyget "schema" media)) eqn:Hschema.
  - intros Hnull. rewrite Hnull in Hschema. discriminate.
  - intros _. right. eexists. split; reflexivity.
Qed.

Lemma _extract_request_body_depends (op op' : dict) (spec : json) :
  pyget "requestBody" op = pyget "requestBody" op' ->
  _extract_request_body (JDict op) spec = _extract_request_body (JDict op') spec.
Proof.
  intros Heq. unfold _extract_request_body. by rewrite Heq.
Qed.

(** C10: when the operation declares no body schema (no [requestBody]
    mapping, no non-empty [content] mapping, or no mapping-valued [schema]
    for the chosen media type) the verdict is [{ok: true, errors: []}]
    whatever the request; and in every case the verdict depends on the
    operation only through its [requestBody] and on the request only
    through its body, so path, query and header parameters are not
    validated. *)
Theorem validate_payload_body_only (record request : dict) (spec_version spec : json) :
  (declared_body_schema (pyget "operation" record) = JNull ->
     validate_payload lib record request spec_version spec
     = Ok (JDict [("ok", JBool true); ("errors", JList [])]))
  /\ (forall (record' request' op op' : dict),
        pyget "operation" record = JDict op ->
        pyget "operation" record' = JDict op' ->
        pyget "requestBody" op = pyget "requestBody" op' ->
        _extract_body request = _extract_body request' ->
        validate_payload lib record request spec_version spec
        = validate_payload lib record' request' spec_version spec).
Proof.
  split.
  - intros Hnone. unfold validate_payload.
    destruct (_extract_request_body_without_schema _ spec Hnone) as [-> | (rb & -> & Hrb)];
      [done|].
    cbn [mbind result_bind]. by rewrite Hrb.
  - intros record' request' op op' Hop Hop' Hbody Hreq. unfold validate_payload.
    rewrite Hop, Hop', (_extract_request_body_depends op op' spec Hbody), Hreq.
    reflexivity.
Qed.

End ValidationFacts.

Lemma validate_payload_body_only_witness :
  declared_body_schema
    (pyget "operation"
       [("operation", JDict [("parameters",
           JList [JDict [("name", JStr "id"); ("in", JStr "path");
                         ("required", JBool true)]])])]) = JNull
  /\ Validate.validate_payload sample_validators
       [("operation", JDict [("parameters",
           JList [JDict [("name", JStr "id"); ("in", JStr "path");
                         ("required", JBool true)]])])]
       [("parameters", JDict [("path", JDict [])]); ("body", JInt 1)]
       (JStr "3.0.3") JNull
     = Ok (JDict [("ok", JBool true); ("errors", JList [])]).
Proof.
  split; [reflexivity|].
  apply (proj1 (validate_payload_body_only sample_validators _ _ _ _)).
  reflexivity.
Defined.

(** ** Query sanitisation *)
Section SanitizeFacts.
Import Index.





Lemma lstrip_head (s : string) :
  match head_char (lstrip s) with
  | Some c => isspace c = false
  | None => True
  end.
Proof.
  induction s as [|c s IH]; [done|]. simpl.
  destruct (isspace c) eqn:Hc; [done|]. done.
Qed.




















End SanitizeFacts.


(** ** Spec identifiers *)
Section SpecIdFacts.
Import Ingest.

Lemma append_inj_r (a b c : string) : (a ++ b)%string = (a ++ c)%string -> b = c.
Proof.
  induction a as [|x a IH]; simpl; [done|]. intros [= H]. by apply IH.
Qed.

Lemma str_of_nat_inj (n m : nat) : str_of_nat n = str_of_nat m -> n = m.
Proof.
  unfold str_of_nat. intros H.
  apply DecimalNat.Unsigned.to_uint_inj.
  assert (Hs : Some (Nat.to_uint n) = Some (Nat.to_uint m))
    by (by rewrite <- !NilEmpty.usu, H).
  by injection Hs.
Qed.

Global Instance suffixed_inj (base_id : string) : Inj (=) (=) (suffixed base_id).
Proof.
  intros n m H. unfold suffixed in H.
  by apply append_inj_r, append_inj_r, str_of_nat_inj in H.
Qed.

Lemma ensure_unique_loop_some fuel base_id used start r :
  ensure_unique_loop fuel base_id used start = Some r ->
  exists n, start <= n /\ r = suffixed base_id n /\ (r ∉ used)
            /\ forall m, start <= m < n -> suffixed base_id m ∈ used.
Proof.
  revert start. induction fuel as [|fuel IH]; intros start; cbn [ensure_unique_loop];
    [done|].
  destruct (decide (suffixed base_id start ∈ used)) as [Hin|Hnotin].
  - intros (n & Hle & -> & Hfresh & Hbelow)%IH.
    exists n. repeat split; [lia | done |].
    intros m Hm. destruct (decide (m = start)) as [->|]; [done|]. apply Hbelow. lia.
  - intros [= <-]. exists start. repeat split; [lia | done |]. intros m Hm. lia.
Qed.

Lemma ensure_unique_loop_none fuel base_id used start :
  ensure_unique_loop fuel base_id used start = None ->
  forall m, start <= m < start + fuel -> suffixed base_id m ∈ used.
Proof.
  revert start. induction fuel as [|fuel IH]; intros start; cbn [ensure_unique_loop].
  - intros _ m Hm. lia.
  - destruct (decide (suffixed base_id start ∈ used)) as [Hin|]; [|done].
    intros Hnone m Hm. destruct (decide (m = start)) as [->|]; [done|].
    apply (IH _ Hnone). lia.
Qed.

(** The loop ends: [size used + 1] candidates cannot all be in [used]. *)
Lemma ensure_unique_loop_total base_id (used : gset string) start :
  exists r, ensure_unique_loop (S (size used)) base_id used start = Some r.
Proof.
  destruct (ensure_unique_loop (S (size used)) base_id used start) as [r|] eqn:E;
    [by eexists|].
  exfalso. pose proof (ensure_unique_loop_none _ _ _ _ E) as Hall.
  assert (Hsub : list_to_set (C := gset string)
                   (suffixed base_id <$> seq start (S (size used))) ⊆ used).
  { intros x [n [-> Hn]]%elem_of_list_to_set%list_elem_of_fmap.
    apply Hall. apply elem_of_seq in Hn. lia. }
  apply subseteq_size in Hsub.
  rewrite size_list_to_set in Hsub by (apply NoDup_fmap_2, NoDup_seq; apply _).
  rewrite length_fmap, length_seq in Hsub. lia.
Qed.

Lemma _ensure_unique_spec base_id (used : gset string) :
  (base_id ∉ used -> _ensure_unique base_id used = base_id)
  /\ (base_id ∈ used ->
        exists n, 2 <= n /\ _ensure_unique base_id used = suffixed base_id n
                  /\ (suffixed base_id n ∉ used)
                  /\ forall m, 2 <= m < n -> suffixed base_id m ∈ used).
Proof.
  unfold _ensure_unique. split.
  - intros H. by destruct (decide (base_id ∉ used)).
  - intros H. destruct (decide (base_id ∉ used)) as [Hno|_]; [done|].
    destruct (ensure_unique_loop_total base_id used 2) as [r Hr]. rewrite Hr.
    destruct (ensure_unique_loop_some _ _ _ _ _ Hr) as (n & ? & -> & ? & ?).
    by exists n.
Qed.

Lemma _ensure_unique_fresh base_id (used : gset string) :
  _ensure_unique base_id used ∉ used.
Proof.
  destruct (_ensure_unique_spec base_id used) as [H1 H2].
  destruct (decide (base_id ∈ used)) as [Hin|Hnotin].
  - destruct (H2 Hin) as (n & _ & -> & Hfresh & _). done.
  - by rewrite H1.
Qed.

Context (sys : os).

Lemma base_id_agrees (raw : json) (path : string) :
  match _spec_id_override raw with
  | JStr o => if truthy (_spec_id_override raw) then o else _default_spec_id sys path
  | _ => _default_spec_id sys path
  end = base_spec_id sys raw path.
Proof.
  unfold base_spec_id, declared_spec_id, _spec_id_override, _default_spec_id.
  destruct raw as [| | | | | |r]; try done.
  destruct (pyget "info" r) as [| | | | | |info]; try done.
  destruct (pyget "x-spec-id" info) as [| | | |value| |]; try done.
  cbn [truthy]. destruct (String.eqb (strip value) "") eqn:E; cbn [negb]; [done|].
  cbn [truthy]. by rewrite E.
Qed.


Lemma build_loop_spec spec_dir files :
  forall used_ids specs result,
    used_ids = list_to_set (map spec_id specs) ->
    NoDup (map spec_id specs) ->
    (forall i f, specs !! i = Some f -> placed sys (take i specs) f) ->
    build_loop sys spec_dir files used_ids specs = Ok result ->
    map path result = map path specs ++ files
    /\ NoDup (map spec_id result)
    /\ (forall i f, result !! i = Some f -> placed sys (take i result) f).
Proof.
  induction files as [|file files IH]; intros used_ids specs result Hused Hnodup Hplaced;
    cbn [build_loop].
  - intros [= <-]. by rewrite app_nil_r.
  - destruct (load_raw_spec sys file) as [raw0|e] eqn:Eload; [|done].
    cbn [mbind result_bind]. rewrite base_id_agrees.
    set (id := _ensure_unique (base_spec_id sys raw0 file) used_ids).
    set (new := {| path := file; relative_path := relpath sys file spec_dir;
                   raw := raw0; spec_id := id |}).
    intros Hrun. apply IH in Hrun.
    + destruct Hrun as (Hpaths & Hnd & Hpl). split; [|done].
      rewrite Hpaths, map_app, <- app_assoc. done.
    + rewrite map_app, list_to_set_app_L. simpl. set_solver.
    + rewrite map_app. apply NoDup_app. split; [done|]. split.
      * intros x Hx [->|[]%elem_of_nil]%elem_of_cons.
        apply (_ensure_unique_fresh (base_spec_id sys raw0 file) used_ids).
        fold id. rewrite Hused. by apply elem_of_list_to_set.
      * apply NoDup_singleton.
    + intros i f Hi. destruct (decide (i < length specs)) as [Hlt|Hge].
      * rewrite lookup_app_l in Hi by done.
        rewrite take_app_le by lia. by apply Hplaced.
      * rewrite lookup_app_r in Hi by lia.
        destruct (i - length specs) as [|k] eqn:Ek; [|by destruct k].
        injection Hi as <-. assert (i = length specs) as -> by lia.
        rewrite take_app_length. unfold placed. cbn [path raw spec_id new].
        rewrite <- Hused.
        split; [done|]. apply _ensure_unique_spec.
Qed.

(** C8, as the code has it: files are taken in discovery order; each gets
    the trimmed [info.x-spec-id] when that is a string and non-empty after
    trimming, else the base name without extension, unless an earlier file
    already has that identifier, in which case it gets the first of
    [base-2], [base-3], ... not yet assigned; the identifiers are pairwise
    distinct and each depends only on the files before it. *)
Theorem spec_ids_assigned (spec_dir : string) (specs : list SpecFile) :
  build_spec_files sys spec_dir = Ok specs ->
  map path specs = discover_spec_files sys (abspath sys spec_dir)
  /\ NoDup (map spec_id specs)
  /\ (forall i f, specs !! i = Some f ->
        let used : gset string := list_to_set (map spec_id (take i specs)) in
        let base := base_spec_id sys (raw f) (path f) in
        load_raw_spec sys (path f) = Ok (raw f)
        /\ (base ∉ used -> spec_id f = base)
        /\ (base ∈ used ->
              exists n, 2 <= n /\ spec_id f = suffixed base n
                        /\ (suffixed base n ∉ used)
                        /\ forall m, 2 <= m < n -> suffixed base m ∈ used)).
Proof.
  unfold build_spec_files. intros Hrun.
  apply build_loop_spec in Hrun; [done | done | constructor |].
  intros i f Hi. by rewrite lookup_nil in Hi.
Qed.

End SpecIdFacts.

(** Two files declaring the same identifier: the second one gets suffix 2. *)
Lemma spec_ids_assigned_witness :
  Ingest.build_spec_files
    (directory_os [("a.json", JDict [("info", JDict [("x-spec-id", JStr "pets")])]);
                   ("b.json", JDict [("info", JDict [("x-spec-id", JStr "pets")])])])
    "specs"
  = Ok [{| Ingest.path := "specs/a.json"; Ingest.relative_path := "a.json";
           Ingest.raw := JDict [("info", JDict [("x-spec-id", JStr "pets")])];
           Ingest.spec_id := "pets" |};
        {| Ingest.path := "specs/b.json"; Ingest.relative_path := "b.json";
           Ingest.raw := JDict [("info", JDict [("x-spec-id", JStr "pets")])];
           Ingest.spec_id := "pets-2" |}]
  /\ NoDup ["pets"; "pets-2"].
Proof.
  assert (Hrun :
    Ingest.build_spec_files
      (directory_os [("a.json", JDict [("info", JDict [("x-spec-id", JStr "pets")])]);
                     ("b.json", JDict [("info", JDict [("x-spec-id", JStr "pets")])])])
      "specs"
    = Ok [{| Ingest.path := "specs/a.json"; Ingest.relative_path := "a.json";
             Ingest.raw := JDict [("info", JDict [("x-spec-id", JStr "pets")])];
             Ingest.spec_id := "pets" |};
          {| Ingest.path := "specs/b.json"; Ingest.relative_path := "b.json";
             Ingest.raw := JDict [("info", JDict [("x-spec-id", JStr "pets")])];
             Ingest.spec_id := "pets-2" |}])
    by (vm_compute; reflexivity).
  split; [exact Hrun|].
  exact (proj1 (proj2 (spec_ids_assigned _ _ _ Hrun))).
Defined.

(** C8 as stated fails: an override padded with spaces is present and
    non-empty, yet the identifier assigned is not its value. *)
Lemma spec_id_override_counterexample :
  exists f,
    Ingest.build_spec_files
      (directory_os [("a.json", JDict [("info", JDict [("x-spec-id", JStr " pets ")])])])
      "specs" = Ok [f]
    /\ Ingest.raw f = JDict [("info", JDict [("x-spec-id", JStr " pets ")])]
    /\ Ingest.spec_id f <> " pets ".
Proof.
  eexists. split; [vm_compute; reflexivity|]. split; [reflexivity | discriminate].
Qed.

(** ** The cache protocol *)
Section CacheFacts.
Import Ingest Engine.

Lemma string_leb_ltb (a b : string) : String.leb a b = negb (String.ltb b a).
Proof.
  unfold String.leb, String.ltb. rewrite (String.compare_antisym b a).
  by destruct (String.compare a b).
Qed.







Context (ext : externals CatalogEngine).



End CacheFacts.



(** ** Rank fusion *)
Section StringOrder.

Lemma ascii_compare_lt_trans (a b c : ascii) :
  Ascii.compare a b = Lt -> Ascii.compare b c = Lt -> Ascii.compare a c = Lt.
Proof. unfold Ascii.compare. rewrite !N.compare_lt_iff. lia. Qed.

Lemma string_compare_lt_trans (a b c : string) :
  String.compare a b = Lt -> String.compare b c = Lt -> String.compare a c = Lt.
Proof.
  revert b c. induction a as [|x a IH]; intros [|y b] [|z c]; cbn; try done.
  destruct (Ascii.compare x y) eqn:Exy; try done.
  - apply Ascii.compare_eq_iff in Exy as ->.
    destruct (Ascii.compare y z); try done. apply IH.
  - destruct (Ascii.compare y z) eqn:Eyz; try done.
    + apply Ascii.compare_eq_iff in Eyz as <-. by rewrite Exy.
    + by rewrite (ascii_compare_lt_trans _ _ _ Exy Eyz).
Qed.

Lemma string_leb_trans (a b c : string) :
  String.leb a b = true -> String.leb b c = true -> String.leb a c = true.
Proof.
  unfold String.leb.
  destruct (String.compare a b) eqn:Eab; try done;
    destruct (String.compare b c) eqn:Ebc; try done; intros _ _.
  - apply String.compare_eq_iff in Eab as ->. by rewrite Ebc.
  - apply String.compare_eq_iff in Eab as ->. by rewrite Ebc.
  - apply String.compare_eq_iff in Ebc as <-. by rewrite Eab.
  - by rewrite (string_compare_lt_trans _ _ _ Eab Ebc).
Qed.

End StringOrder.

Section FusionFacts.
Import Engine.
Context {F : Type}.
Context (zero : F) (add : F -> F -> F) (quot : F -> Z -> F) (fle : F -> F -> bool).


Lemma score_get_set (id : string) (v : F) (scores : list (string * F)) :
  score_get zero id (score_set id v scores) = v.
Proof.
  induction scores as [|[k v'] rest IH]; cbn.
  - unfold Engine.score_get. cbn. by rewrite String.eqb_refl.
  - destruct (String.eqb id k) eqn:E.
    + unfold Engine.score_get. cbn. by rewrite E.
    + unfold Engine.score_get in *. cbn. by rewrite E.
Qed.

Lemma score_get_set_ne (id id' : string) (v : F) (scores : list (string * F)) :
  id <> id' -> score_get zero id (score_set id' v scores) = score_get zero id scores.
Proof.
  intros Hne. induction scores as [|[k v'] rest IH]; cbn.
  - unfold Engine.score_get. cbn.
    by destruct (String.eqb_spec id id').
  - destruct (String.eqb_spec id' k) as [->|Hk].
    + unfold Engine.score_get. cbn. by destruct (String.eqb_spec id k).
    + unfold Engine.score_get in *. cbn.
      by destruct (String.eqb_spec id k).
Qed.

Lemma score_set_keys (id : string) (v : F) (scores : list (string * F)) :
  map fst (score_set id v scores)
  = if bool_decide (id ∈ map fst scores) then map fst scores
    else map fst scores ++ [id].
Proof.
  induction scores as [|[k v'] rest IH]; cbn; [done|].
  destruct (String.eqb_spec id k) as [->|Hk]; cbn.
  - rewrite bool_decide_true; [done|]. apply elem_of_cons. by left.
  - rewrite IH. destruct (bool_decide (id ∈ map fst rest)) eqn:E.
    + apply bool_decide_eq_true in E. rewrite bool_decide_true; [done|].
      apply elem_of_cons. by right.
    + apply bool_decide_eq_false in E. rewrite bool_decide_false; [done|].
      rewrite elem_of_cons. by intros [?|?].
Qed.

Lemma score_set_keys_NoDup (id : string) (v : F) (scores : list (string * F)) :
  NoDup (map fst scores) -> NoDup (map fst (score_set id v scores)).
Proof.
  intros Hnd. rewrite score_set_keys. case_bool_decide as Hin; [done|].
  apply NoDup_app. split; [done|]. split; [|apply NoDup_singleton].
  intros x Hx ->%list_elem_of_singleton. done.
Qed.

Lemma score_set_keys_elem_of (x id : string) (v : F) (scores : list (string * F)) :
  x ∈ map fst (score_set id v scores) <-> x ∈ map fst scores \/ x = id.
Proof.
  rewrite score_set_keys. case_bool_decide as Hin.
  - split; [by left|]. by intros [?| ->].
  - rewrite elem_of_app, list_elem_of_singleton. done.
Qed.

Lemma accumulate_keys_NoDup weight k rank ids scores :
  NoDup (map fst scores) -> NoDup (map fst (accumulate zero add quot weight k rank ids scores)).
Proof.
  revert rank scores. induction ids as [|id ids IH]; intros rank scores Hnd; [done|].
  cbn. apply IH. by apply score_set_keys_NoDup.
Qed.

Lemma accumulate_keys_elem_of x weight k rank ids scores :
  x ∈ map fst (accumulate zero add quot weight k rank ids scores)
  <-> x ∈ map fst scores \/ x ∈ ids.
Proof.
  revert rank scores. induction ids as [|id ids IH]; intros rank scores; cbn.
  - rewrite elem_of_nil. tauto.
  - rewrite IH, score_set_keys_elem_of, elem_of_cons. tauto.
Qed.

Lemma rank_from_not_in start ids id : id ∉ ids -> rank_from start ids id = None.
Proof.
  revert start. induction ids as [|x ids IH]; intros start Hnot; [done|].
  cbn. rewrite not_elem_of_cons in Hnot. destruct Hnot as [Hne Hnot].
  destruct (String.eqb_spec id x); [done|]. by apply IH.
Qed.

(** One pass of the loop adds to the score of an id its contribution. *)
Lemma accumulate_score weight k rank ids scores id :
  NoDup ids ->
  score_get zero id (accumulate zero add quot weight k rank ids scores)
  = match rank_from rank ids id with
    | Some r => add (score_get zero id scores) (quot weight (k + r))
    | None => score_get zero id scores
    end.
Proof.
  revert rank scores. induction ids as [|x ids IH]; intros rank scores Hnd; [done|].
  apply NoDup_cons in Hnd as [Hx Hnd]. cbn. rewrite (IH _ _ Hnd).
  destruct (String.eqb_spec id x) as [->|Hne].
  - by rewrite (rank_from_not_in _ _ _ Hx), score_get_set.
  - by rewrite (score_get_set_ne _ _ _ _ Hne).
Qed.

Lemma score_get_elem_of id v (scores : list (string * F)) :
  NoDup (map fst scores) -> (id, v) ∈ scores -> score_get zero id scores = v.
Proof.
  induction scores as [|[k v'] rest IH]; intros Hnd Hin.
  - by apply elem_of_nil in Hin.
  - cbn in Hnd. apply NoDup_cons in Hnd as [Hk Hnd].
    apply elem_of_cons in Hin as [Heq|Hin].
    + injection Heq as -> ->. unfold Engine.score_get. cbn. by rewrite String.eqb_refl.
    + unfold Engine.score_get in *. cbn. destruct (String.eqb_spec id k) as [->|Hne].
      * exfalso. apply Hk. apply list_elem_of_fmap. by exists (k, v).
      * by apply IH.
Qed.

Hypothesis add_zero_l : forall x, add zero x = x.
Hypothesis add_zero_r : forall x, add x zero = x.
Hypothesis fle_total : forall a b, fle a b = true \/ fle b a = true.
Hypothesis fle_trans : forall a b c, fle a b = true -> fle b c = true -> fle a c = true.

Lemma rank_leb_spec (a b : string * F) :
  rank_leb fle a b = true
  <-> fle (snd b) (snd a) = true
      /\ (fle (snd a) (snd b) = true -> String.leb (fst a) (fst b) = true).
Proof.
  unfold Engine.rank_leb.
  destruct (fle (snd a) (snd b)), (fle (snd b) (snd a)); cbn; naive_solver.
Qed.

Lemma rank_leb_total (a b : string * F) : rank_leb fle a b = true \/ rank_leb fle b a = true.
Proof.
  rewrite !rank_leb_spec.
  destruct (fle_total (snd a) (snd b)) as [Hab|Hba];
    destruct (String.leb_total (fst a) (fst b));
    destruct (fle (snd a) (snd b)) eqn:E1, (fle (snd b) (snd a)) eqn:E2;
    naive_solver.
Qed.

#[local] Instance rank_leb_transitive : Transitive (leb_rel (rank_leb fle)).
Proof.
  intros a b c. unfold leb_rel. rewrite !rank_leb_spec.
  intros [Hba Hab] [Hcb Hbc]. split; [by eapply fle_trans|].
  intros Hac. eapply string_leb_trans; [apply Hab|apply Hbc]; by eapply fle_trans.
Qed.

Lemma fused_scores k weight_fts weight_sem fts_ids semantic_ids id :
  NoDup fts_ids -> NoDup semantic_ids ->
  score_get zero id (accumulate zero add quot weight_sem k 1 semantic_ids (accumulate zero add quot weight_fts k 1 fts_ids []))
  = rrf_score zero add quot k weight_fts weight_sem fts_ids semantic_ids id.
Proof.
  intros Hfts Hsem. rewrite !accumulate_score by done.
  unfold rrf_score, contribution.
  change (score_get zero id []) with zero.
  destruct (rank_from 1 fts_ids id), (rank_from 1 semantic_ids id);
    by rewrite ?add_zero_l, ?add_zero_r.
Qed.

Lemma StronglySorted_keys (score : string -> F) (ranked : list (string * F)) :
  Forall (fun kv => snd kv = score (fst kv)) ranked ->
  StronglySorted (leb_rel (rank_leb fle)) ranked ->
  StronglySorted (fused_before fle score) (map fst ranked).
Proof.
  intros Hscores. induction 1 as [|kv ranked Hsorted IH Hall]; cbn; constructor.
  - apply IH. by inversion Hscores.
  - apply Forall_fmap. inversion Hscores as [|? ? Hkv Hrest]; subst.
    rewrite Forall_forall in Hall, Hrest |- *. intros kv' Hin.
    specialize (Hall _ Hin). unfold leb_rel in Hall. apply rank_leb_spec in Hall.
    cbn. unfold fused_before. by rewrite <- Hkv, <- (Hrest _ Hin).
Qed.

(** C6: the ids of the two ranked lists, each scored
    [weight_fts / (k + rank_fts) + weight_sem / (k + rank_sem)] with ranks
    counted from one and nothing added for a list the id is not in, are
    put in the order of [(-score, id)], so that of two ids with the same
    score the smaller one comes first, and the first [limit] of them are
    returned; the call of the search passes [k = 60] and the weights
    [0.7] and [0.3]. *)
Theorem rrf_merge_fusion (fts_ids semantic_ids : list string) (limit k : Z)
    (weight_fts weight_sem : F) :
  NoDup fts_ids -> NoDup semantic_ids -> (0 <= limit)%Z ->
  exists fused : list string,
    _rrf_merge zero add quot fle fts_ids semantic_ids limit k weight_fts weight_sem
    = firstn (Z.to_nat limit) fused
    /\ NoDup fused
    /\ (forall id, id ∈ fused <-> id ∈ fts_ids \/ id ∈ semantic_ids)
    /\ StronglySorted
         (fused_before fle
            (rrf_score zero add quot k weight_fts weight_sem fts_ids semantic_ids))
         fused
    /\ forall literal : Q -> F,
         _rrf_merge_defaults zero add quot fle literal fts_ids semantic_ids limit
         = _rrf_merge zero add quot fle fts_ids semantic_ids limit 60
             (literal (7 # 10)%Q) (literal (3 # 10)%Q).
Proof.
  intros Hfts Hsem Hlimit.
  set (scores := accumulate zero add quot weight_sem k 1 semantic_ids
                   (accumulate zero add quot weight_fts k 1 fts_ids [])).
  assert (Hkeys : NoDup (map fst scores)).
  { apply accumulate_keys_NoDup, accumulate_keys_NoDup. constructor. }
  exists (map fst (py_sorted (rank_leb fle) scores)). split; [|split; [|split; [|split]]].
  - unfold _rrf_merge, py_take. fold scores.
    destruct (Z.ltb_spec limit 0); [lia|]. by rewrite firstn_map.
  - by rewrite py_sorted_perm.
  - intros id. rewrite py_sorted_perm. unfold scores.
    rewrite !accumulate_keys_elem_of. cbn. rewrite elem_of_nil. tauto.
  - apply StronglySorted_keys.
    + rewrite Forall_forall. intros [id v] Hin. apply py_sorted_elem_of in Hin.
      cbn. rewrite <- (fused_scores k weight_fts weight_sem) by done.
      symmetry. by apply score_get_elem_of.
    + apply Sorted_StronglySorted; [apply _|].
      apply py_sorted_sorted, rank_leb_total.
  - done.
Qed.

End FusionFacts.

Lemma rrf_merge_fusion_witness :
  exists fused : list string,
    Engine._rrf_merge (Q2Qc 0) Qcplus rational_quot rational_fle
      ["a"; "b"] ["b"; "c"] 2 60 (Q2Qc (7 # 10)) (Q2Qc (3 # 10))
    = firstn 2 fused
    /\ NoDup fused
    /\ (forall id, id ∈ fused <-> id ∈ ["a"; "b"] \/ id ∈ ["b"; "c"])
    /\ StronglySorted
         (fused_before rational_fle
            (rrf_score (Q2Qc 0) Qcplus rational_quot 60 (Q2Qc (7 # 10)) (Q2Qc (3 # 10))
               ["a"; "b"] ["b"; "c"]))
         fused
    /\ forall literal : Q -> Qc,
         Engine._rrf_merge_defaults (Q2Qc 0) Qcplus rational_quot rational_fle literal
           ["a"; "b"] ["b"; "c"] 2
         = Engine._rrf_merge (Q2Qc 0) Qcplus rational_quot rational_fle
             ["a"; "b"] ["b"; "c"] 2 60 (literal (7 # 10)%Q) (literal (3 # 10)%Q).
Proof.
  apply (rrf_merge_fusion (Q2Qc 0) Qcplus rational_quot rational_fle).
  - apply Qcplus_0_l.
  - apply Qcplus_0_r.
  - intros a b. unfold rational_fle. rewrite !Qle_bool_iff.
    destruct (Qlt_le_dec a b) as [Hlt|Hle]; [left; by apply Qlt_le_weak|by right].
  - intros a b c. unfold rational_fle. rewrite !Qle_bool_iff. apply Qle_trans.
  - by apply (bool_decide_unpack _).
  - by apply (bool_decide_unpack _).
  - lia.
Defined.

Example rrf_merge_example :
  Engine._rrf_merge (Q2Qc 0) Qcplus rational_quot rational_fle
    ["a"; "b"] ["b"; "c"] 2 60 (Q2Qc (7 # 10)) (Q2Qc (3 # 10)) = ["b"; "a"].
Proof. vm_compute. reflexivity. Qed.

(** ** Determinism of the generated payloads *)
Section PayloadDeterminism.
Import Payloads.

#[local] Instance string_leb_rel_transitive : Transitive (leb_rel String.leb).
Proof. intros a b c. apply string_leb_trans. Qed.

#[local] Instance string_leb_rel_antisymm : AntiSymm (=) (leb_rel String.leb).
Proof. intros a b. apply String.leb_antisym. Qed.

(** [sorted] forgets the order of its argument. *)
Lemma sorted_strings_perm (l1 l2 : list string) :
  l1 ≡ₚ l2 -> sorted_strings l1 = sorted_strings l2.
Proof.
  intros Hperm. unfold sorted_strings.
  apply (Sorted_unique (leb_rel String.leb)).
  - apply py_sorted_sorted, String.leb_total.
  - apply py_sorted_sorted, String.leb_total.
  - by rewrite !py_sorted_perm.
Qed.

Context (lib : library) (amb1 amb2 : ambient).
Hypothesis amb1_ok : ambient_ok amb1.
Hypothesis amb2_ok : ambient_ok amb2.
Hypothesis same_clock : clock amb1 = clock amb2.

Lemma sorted_of_set_ambient : sorted_of_set amb1 = sorted_of_set amb2.
Proof.
  apply functional_extensionality. intros X. unfold sorted_of_set.
  apply sorted_strings_perm. by rewrite (amb1_ok X), (amb2_ok X).
Qed.

Lemma _normalize_schema_body_ambient :
  _normalize_schema_body amb1 = _normalize_schema_body amb2.
Proof. unfold _normalize_schema_body. by rewrite sorted_of_set_ambient. Qed.

Lemma _normalize_schema_fuel_ambient (fuel : nat) :
  _normalize_schema_fuel amb1 fuel = _normalize_schema_fuel amb2 fuel.
Proof.
  induction fuel as [|fuel IH]; [done|].
  apply functional_extensionality. intros schema. cbn [_normalize_schema_fuel].
  by rewrite IH, _normalize_schema_body_ambient.
Qed.

Lemma _normalize_schema_ambient : _normalize_schema amb1 = _normalize_schema amb2.
Proof.
  apply functional_extensionality. intros schema. unfold _normalize_schema.
  by rewrite _normalize_schema_fuel_ambient.
Qed.

Lemma _option_matches_discriminator_ambient :
  _option_matches_discriminator amb1 = _option_matches_discriminator amb2.
Proof. unfold _option_matches_discriminator. by rewrite _normalize_schema_ambient. Qed.

Lemma _infer_discriminator_value_ambient :
  _infer_discriminator_value amb1 = _infer_discriminator_value amb2.
Proof. unfold _infer_discriminator_value. by rewrite _normalize_schema_ambient. Qed.

Lemma _infer_discriminator_option_ambient (options : list json) :
  _infer_discriminator_option amb1 options = _infer_discriminator_option amb2 options.
Proof.
  induction options as [|option rest IH]; [done|].
  apply functional_extensionality. intros prop_name.
  cbn [_infer_discriminator_option].
  by rewrite IH, _infer_discriminator_value_ambient.
Qed.

Lemma _select_by_discriminator_ambient :
  _select_by_discriminator amb1 = _select_by_discriminator amb2.
Proof.
  unfold _select_by_discriminator. by rewrite _option_matches_discriminator_ambient.
Qed.

Lemma select_discriminated_ambient : select_discriminated amb1 = select_discriminated amb2.
Proof.
  unfold select_discriminated. rewrite _select_by_discriminator_ambient.
  assert (Hinfer : _infer_discriminator_option amb1 = _infer_discriminator_option amb2).
  { apply functional_extensionality, _infer_discriminator_option_ambient. }
  by rewrite Hinfer.
Qed.

Lemma select_union_loop_ambient (schema : dict) (provided : json) (keys : list string) :
  select_union_loop amb1 schema provided keys = select_union_loop amb2 schema provided keys.
Proof.
  induction keys as [|key keys IH]; [done|].
  cbn [select_union_loop]. by rewrite IH, select_discriminated_ambient.
Qed.

Lemma _select_union_schema_ambient : _select_union_schema amb1 = _select_union_schema amb2.
Proof.
  apply functional_extensionality. intros schema.
  apply functional_extensionality. intros provided.
  unfold _select_union_schema. destruct schema; try done.
  apply select_union_loop_ambient.
Qed.

(** The state a fresh generator starts in is overwritten by the seed. *)
Lemma _faker_for_key_seed (amb : ambient) (key : string) :
  _faker_for_key lib amb key
  = seed ← stable_seed lib key; Ok {| random_state := seed |}.
Proof. reflexivity. Qed.

Lemma _faker_for_key_ambient : _faker_for_key lib amb1 = _faker_for_key lib amb2.
Proof. reflexivity. Qed.

Lemma _guess_value_ambient : _guess_value lib amb1 = _guess_value lib amb2.
Proof.
  unfold _guess_value, provide_moment. by rewrite _faker_for_key_ambient, same_clock.
Qed.

Lemma _placeholder_for_schema_body_ambient :
  _placeholder_for_schema_body lib amb1 = _placeholder_for_schema_body lib amb2.
Proof.
  unfold _placeholder_for_schema_body.
  by rewrite _select_union_schema_ambient, _normalize_schema_ambient, _guess_value_ambient.
Qed.

Lemma _placeholder_for_schema_fuel_ambient (fuel : nat) :
  _placeholder_for_schema_fuel lib amb1 fuel = _placeholder_for_schema_fuel lib amb2 fuel.
Proof.
  induction fuel as [|fuel IH]; [done|].
  apply functional_extensionality. intros schema.
  apply functional_extensionality. intros field_name.
  cbn [_placeholder_for_schema_fuel].
  by rewrite IH, _placeholder_for_schema_body_ambient.
Qed.

Lemma _placeholder_for_schema_ambient :
  _placeholder_for_schema lib amb1 = _placeholder_for_schema lib amb2.
Proof.
  apply functional_extensionality. intros schema.
  apply functional_extensionality. intros field_name.
  unfold _placeholder_for_schema. by rewrite _placeholder_for_schema_fuel_ambient.
Qed.

Lemma _generate_object_body_ambient :
  _generate_object_body lib amb1 = _generate_object_body lib amb2.
Proof.
  unfold _generate_object_body. by rewrite _placeholder_for_schema_ambient.
Qed.

Lemma _generate_from_schema_body_ambient :
  _generate_from_schema_body lib amb1 = _generate_from_schema_body lib amb2.
Proof.
  unfold _generate_from_schema_body.
  by rewrite ?_generate_object_body_ambient, ?_select_union_schema_ambient,
    ?_normalize_schema_ambient, ?_guess_value_ambient,
    ?_placeholder_for_schema_ambient.
Qed.

Lemma _generate_from_schema_fuel_ambient (fuel : nat) :
  _generate_from_schema_fuel lib amb1 fuel = _generate_from_schema_fuel lib amb2 fuel.
Proof.
  induction fuel as [|fuel IH]; [done|].
  cbn [_generate_from_schema_fuel].
  by rewrite IH, _generate_from_schema_body_ambient.
Qed.

Lemma _generate_from_schema_ambient :
  _generate_from_schema lib amb1 = _generate_from_schema lib amb2.
Proof.
  unfold _generate_from_schema.
  do 5 (apply functional_extensionality; intro).
  apply functional_extensionality. intros field_name.
  by rewrite _generate_from_schema_fuel_ambient.
Qed.

Lemma parameters_loop_ambient (parameters : list json) (provided : dict) :
  parameters_loop lib amb1 parameters provided
  = parameters_loop lib amb2 parameters provided.
Proof.
  induction parameters as [|param rest IH]; [done|].
  apply functional_extensionality. intros buckets.
  apply functional_extensionality. intros unknowns.
  cbn [parameters_loop]. by rewrite IH, _placeholder_for_schema_ambient.
Qed.

Lemma _build_parameters_ambient :
  _build_parameters lib amb1 = _build_parameters lib amb2.
Proof.
  apply functional_extensionality. intros parameters.
  apply functional_extensionality. intros provided.
  unfold _build_parameters. destruct (py_iter parameters) as [params|e]; [|done].
  cbn [mbind result_bind]. by rewrite parameters_loop_ambient.
Qed.

Lemma _build_body_ambient : _build_body lib amb1 = _build_body lib amb2.
Proof. unfold _build_body. by rewrite _generate_from_schema_ambient. Qed.

Lemma sorted_set_ambient : sorted_set amb1 = sorted_set amb2.
Proof. unfold sorted_set. by rewrite sorted_of_set_ambient. Qed.

Lemma build_payload_ambient : build_payload lib amb1 = build_payload lib amb2.
Proof.
  unfold build_payload.
  by rewrite _build_parameters_ambient, _build_body_ambient, sorted_set_ambient.
Qed.

End PayloadDeterminism.

Section EngineDeterminism.
Import Engine.
Context (ext : externals CatalogEngine).

Lemma dset_dset (k : string) (v : json) (d : dict) : dset k v (dset k v d) = dset k v d.
Proof.
  induction d as [|[k' v'] d IH]; cbn.
  - by rewrite String.eqb_refl.
  - destruct (String.eqb k k') eqn:E; cbn.
    + by rewrite String.eqb_refl.
    + by rewrite E, IH.
Qed.

Lemma pyget_dset (k : string) (v : json) (d : dict) : pyget k (dset k v d) = v.
Proof.
  induction d as [|[k' v'] d IH]; cbn.
  - by rewrite String.eqb_refl.
  - destruct (String.eqb k k') eqn:E; cbn.
    + by rewrite String.eqb_refl.
    + by rewrite E.
Qed.

(** A specification that was fetched is found again, and the engine is
    then left as it is. *)
Lemma _get_spec_again (self : CatalogEngine) (spec_id : json) :
  _get_spec ext (snd (_get_spec ext self spec_id)) spec_id = _get_spec ext self spec_id.
Proof.
  unfold _get_spec at 2.
  destruct (is_none (get_by spec_id (_specs self))) eqn:Ecached; cbn [negb];
    [|cbn [snd]; unfold _get_spec; by rewrite Ecached].
  destruct spec_id as [| | | |key| |]; try (cbn [snd]; unfold _get_spec; by rewrite Ecached).
  destruct (path_of (JStr key) (_spec_paths self)) as [path|] eqn:Epath;
    [|cbn [snd]; unfold _get_spec; by rewrite Ecached, Epath].
  destruct (String.eqb path "") eqn:Eempty;
    [cbn [snd]; unfold _get_spec; by rewrite Ecached, Epath, Eempty|].
  destruct (Ingest.load_raw_spec (sys ext) path) as [raw|e] eqn:Eload;
    [|cbn [snd]; unfold _get_spec; by rewrite Ecached, Epath, Eempty, Eload].
  cbn [snd]. unfold _get_spec. destruct self. cbn in *.
  rewrite pyget_dset, Ecached, Epath, Eempty, Eload. cbn [negb].
  unfold _load_spec, set_spec_versions, set_specs. cbn. rewrite !dset_dset.
  by destruct (negb _).
Qed.

Lemma _get_spec_index (self : CatalogEngine) (spec_id : json) :
  _index (snd (_get_spec ext self spec_id)) = _index self.
Proof.
  unfold _get_spec. repeat (case_match; try done).
Qed.

Lemma payload_generate_again (self : CatalogEngine) (endpoint_id : string)
    (provided_fields : option dict) :
  payload_generate ext (snd (payload_generate ext self endpoint_id provided_fields))
    endpoint_id provided_fields
  = payload_generate ext self endpoint_id provided_fields.
Proof.
  unfold payload_generate at 2.
  destruct (lookup self endpoint_id) as [record|e] eqn:Elookup;
    [|cbn [snd]; unfold payload_generate; by rewrite Elookup].
  destruct record as [| | | | | |record];
    try (cbn [snd]; unfold payload_generate; by rewrite Elookup).
  destruct (truthy (JDict record)) eqn:Etruthy; cbn [negb];
    [|cbn [snd]; unfold payload_generate; by rewrite Elookup, Etruthy].
  pose proof (_get_spec_again self (pyget "specId" record)) as Hagain.
  pose proof (_get_spec_index self (pyget "specId" record)) as Hindex.
  destruct (_get_spec ext self (pyget "specId" record)) as [[spec|e] self'] eqn:Espec;
    cbn [snd] in *; unfold payload_generate, lookup in *;
    by rewrite Hindex, Elookup, Etruthy, Hagain, Espec.
Qed.

(** [payload_generate] returns the same payload in every run of the
    interpreter that reads the same time off the clock, whatever the order
    in which it iterates sets and the state its generators start in, and
    returns it again when it is asked again; and the value guessed for a
    field is the same in every such run. *)
Theorem payload_generate_same_clock (amb' : Payloads.ambient) (self : CatalogEngine)
    (endpoint_id : string) (provided_fields : option dict) :
  Payloads.ambient_ok (interpreter ext) -> Payloads.ambient_ok amb' ->
  Payloads.clock amb' = Payloads.clock (interpreter ext) ->
  payload_generate (with_interpreter ext amb') self endpoint_id provided_fields
  = payload_generate ext self endpoint_id provided_fields
  /\ payload_generate ext (snd (payload_generate ext self endpoint_id provided_fields))
       endpoint_id provided_fields
     = payload_generate ext self endpoint_id provided_fields
  /\ (forall field_name schema,
        Payloads._guess_value (faker_library ext) amb' field_name schema
        = Payloads._guess_value (faker_library ext) (interpreter ext) field_name schema).
Proof.
  intros Hok Hok' Hclock. split; [|split].
  - unfold payload_generate.
    change (_get_spec (with_interpreter ext amb')) with (_get_spec ext).
    cbn [faker_library interpreter with_interpreter].
    by rewrite (build_payload_ambient (faker_library ext) amb' (interpreter ext)).
  - apply payload_generate_again.
  - intros field_name schema.
    by rewrite (_guess_value_ambient (faker_library ext) amb' (interpreter ext)).
Qed.

End EngineDeterminism.

(** The interpreter that iterates sets backwards and starts its generators
    elsewhere builds the same payload. *)
Lemma payload_generate_same_clock_witness :
  Engine.payload_generate (with_interpreter (sample_externals None) reversed_ambient)
    pets_engine "pets:createPet" None
  = Engine.payload_generate (sample_externals None) pets_engine "pets:createPet" None
  /\ fst (Engine.payload_generate (sample_externals None) pets_engine "pets:createPet" None)
     = Ok (JDict [("endpointId", JStr "pets:createPet");
                  ("request",
                   JDict [("method", JStr "post");
                          ("path", JStr "/pets");
                          ("contentType", JStr "application/json");
                          ("parameters",
                           JDict [("path", JDict []); ("query", JDict []);
                                  ("header", JDict [])]);
                          ("body",
                           JDict [("name", JStr "Ada Lovelace");
                                  ("tag", JStr "word")])]);
                  ("unknownRequiredFields",
                   JList [JStr "body.name"; JStr "body.tag"])]).
Proof.
  split.
  - apply (payload_generate_same_clock (sample_externals None) reversed_ambient
             pets_engine "pets:createPet" None).
    + intros X. reflexivity.
    + intros X. symmetry. apply Permutation_rev.
    + reflexivity.
  - vm_compute. reflexivity.
Defined.

(** ** What a generated payload reads off the clock *)
Section ClockDependence.
Import Engine.
Context (ext : externals CatalogEngine).

Lemma guess_when (lib : Payloads.library) (amb : Payloads.ambient) (seed : Z) :
  stable_seed lib "when" = Ok seed ->
  Payloads._guess_value lib amb "when"
    [("type", JStr "string"); ("format", JStr "date-time")]
  = Ok (JStr (Payloads.iso8601 lib seed (Payloads.clock amb))).
Proof.
  intros Hseed. unfold Payloads._guess_value, Payloads._faker_for_key.
  change (Payloads.int16 (String.substring 0 8 (Payloads.sha256_hexdigest lib "when")))
    with (stable_seed lib "when").
  rewrite Hseed. reflexivity.
Qed.

Lemma generate_when (lib : Payloads.library) (amb : Payloads.ambient) (seed : Z) :
  stable_seed lib "when" = Ok seed ->
  Payloads._generate_from_schema lib amb
    (JDict [("type", JStr "object"); ("required", JList [JStr "when"]);
            ("properties",
             JDict [("when", JDict [("type", JStr "string");
                                    ("format", JStr "date-time")])])])
    (JDict []) "body" [] 0 (Some "body")
  = Ok (JDict [("when", JStr (Payloads.iso8601 lib seed (Payloads.clock amb)))],
        ["body.when"]).
Proof.
  intros Hseed.
  apply (_generate_from_schema_of_fuel lib amb 2).
  cbn [Payloads._generate_from_schema_fuel].
  unfold Payloads._generate_from_schema_body at 1.
  cbn -[Payloads._guess_value Payloads._generate_from_schema_body].
  unfold Payloads._generate_object_body.
  cbn -[Payloads._guess_value Payloads._generate_from_schema_body].
  unfold Payloads._generate_from_schema_body.
  cbn -[Payloads._guess_value].
  rewrite (guess_when lib amb seed Hseed).
  reflexivity.
Qed.

(** C1, where it fails: the value generated for a [date-time] string is
    what the [iso8601] provider returns for the seed of the field name and
    for the time the clock shows during the run; so two runs over the same
    engine with the same arguments, for which the provider draws different
    moments, return different payloads. *)
Theorem payload_generate_reads_clock (seed : Z) :
  let lib := faker_library ext in
  stable_seed lib "when" = Ok seed ->
  (forall amb,
     fst (payload_generate (with_interpreter ext amb) events_engine
            "events:createEvent" None)
     = Ok (event_payload (Payloads.iso8601 lib seed (Payloads.clock amb))
             (Payloads.sorted_set amb ["body.when"])))
  /\ (forall amb amb',
        Payloads.iso8601 lib seed (Payloads.clock amb)
        <> Payloads.iso8601 lib seed (Payloads.clock amb') ->
        fst (payload_generate (with_interpreter ext amb) events_engine
               "events:createEvent" None)
        <> fst (payload_generate (with_interpreter ext amb') events_engine
                  "events:createEvent" None)).
Proof.
  intros lib Hseed.
  assert (Hrun : forall amb,
            fst (payload_generate (with_interpreter ext amb) events_engine
                   "events:createEvent" None)
            = Ok (event_payload (Payloads.iso8601 lib seed (Payloads.clock amb))
                    (Payloads.sorted_set amb ["body.when"]))).
  { intros amb.
    assert (Hlookup : lookup events_engine "events:createEvent" = Ok (JDict event_record))
      by (vm_compute; reflexivity).
    assert (Hbody : Payloads._extract_request_body event_operation
                      (JDict [("openapi", JStr "3.0.3")])
                    = Ok (JDict [("required", JBool true);
                                 ("contentType", JStr "application/json");
                                 ("schema",
                                  JDict [("type", JStr "object");
                                         ("required", JList [JStr "when"]);
                                         ("properties",
                                          JDict [("when",
                                                  JDict [("type", JStr "string");
                                                         ("format", JStr "date-time")])])])]))
      by (vm_compute; reflexivity).
    unfold payload_generate. rewrite Hlookup.
    cbn -[Payloads.build_payload]. unfold Payloads.build_payload.
    cbn -[Payloads._build_body Payloads._extract_request_body Payloads.sorted_set].
    rewrite Hbody. cbn -[Payloads._generate_from_schema Payloads.sorted_set].
    fold lib. rewrite (generate_when lib amb seed Hseed).
    cbn -[Payloads.sorted_set]. reflexivity. }
  split; [exact Hrun|].
  intros amb amb' Hdiff. rewrite !Hrun. intros [= Heq]. by apply Hdiff.
Qed.
End ClockDependence.

(** Two runs over the same engine with the same arguments, the second 59
    seconds after the first: the moments differ, and so do the payloads. *)
Lemma payload_generate_reads_clock_witness :
  let ext := with_library (sample_externals None) clocked_library in
  stable_seed clocked_library "when" = Ok 42%Z
  /\ fst (Engine.payload_generate (with_interpreter ext sample_ambient) events_engine
            "events:createEvent" None)
     = Ok (event_payload "1970-01-01T00:00:00" ["body.when"])
  /\ fst (Engine.payload_generate (with_interpreter ext later_ambient) events_engine
            "events:createEvent" None)
     = Ok (event_payload "1970-01-01T00:00:42" ["body.when"])
  /\ fst (Engine.payload_generate (with_interpreter ext sample_ambient) events_engine
            "events:createEvent" None)
     <> fst (Engine.payload_generate (with_interpreter ext later_ambient) events_engine
               "events:createEvent" None).
Proof.
  intros ext.
  split; [reflexivity|]. split; [vm_compute; reflexivity|].
  split; [vm_compute; reflexivity|].
  apply (proj2 (payload_generate_reads_clock ext 42%Z eq_refl) sample_ambient
           later_ambient).
  vm_compute. discriminate.
Defined.

(** * Further properties *)

(** ** Orders on tuples of strings *)
Section TupleOrders.

Lemma string_ltb_compare (a b : string) : String.ltb a b = true <-> String.compare a b = Lt.
Proof. unfold String.ltb. by destruct (String.compare a b). Qed.

Lemma string_leb_compare (a b : string) : String.leb a b = true <-> String.compare a b <> Gt.
Proof. unfold String.leb. by destruct (String.compare a b). Qed.

Lemma string_compare_refl (a : string) : String.compare a a = Eq.
Proof.
  induction a as [|c a IH]; [done|]. cbn.
  unfold Ascii.compare. by rewrite N.compare_refl.
Qed.

Lemma string_compare_eq (a b : string) : String.compare a b = Eq <-> a = b.
Proof.
  split; [apply String.compare_eq_iff|]. intros ->. apply string_compare_refl.
Qed.

Lemma string_compare_gt_lt (a b : string) : String.compare a b = Gt <-> String.compare b a = Lt.
Proof.
  rewrite (String.compare_antisym b a). by destruct (String.compare a b).
Qed.

Lemma pair_leb_spec (a b : string * string) :
  pair_leb a b = true
  <-> String.compare (fst a) (fst b) = Lt
      \/ (fst a = fst b /\ String.leb (snd a) (snd b) = true).
Proof.
  unfold pair_leb. rewrite orb_true_iff, andb_true_iff, string_ltb_compare, String.eqb_eq.
  done.
Qed.

Lemma pair_leb_total (a b : string * string) : pair_leb a b = true \/ pair_leb b a = true.
Proof.
  rewrite !pair_leb_spec.
  destruct (String.compare (fst a) (fst b)) eqn:E.
  - apply string_compare_eq in E.
    destruct (String.leb_total (snd a) (snd b)); [left | right]; by right.
  - by left; left.
  - right; left. by apply string_compare_gt_lt.
Qed.

Lemma pair_leb_trans (a b c : string * string) :
  pair_leb a b = true -> pair_leb b c = true -> pair_leb a c = true.
Proof.
  rewrite !pair_leb_spec. intros [Hab|[Hab Hab']] [Hbc|[Hbc Hbc']].
  - left. by eapply string_compare_lt_trans.
  - left. by rewrite <- Hbc.
  - left. by rewrite Hab.
  - right. split; [congruence|]. by eapply string_leb_trans.
Qed.

Lemma pair_leb_antisym (a b : string * string) :
  pair_leb a b = true -> pair_leb b a = true -> a = b.
Proof.
  rewrite !pair_leb_spec. destruct a as [a1 a2], b as [b1 b2]. cbn.
  intros [Hab|[-> Hab]] [Hba|[Hba' Hba]].
  - apply string_compare_gt_lt in Hba. congruence.
  - subst. rewrite string_compare_refl in Hab. done.
  - rewrite string_compare_refl in Hba. done.
  - f_equal. by apply String.leb_antisym.
Qed.

Lemma triple_leb_spec (a b : string * string * string) :
  triple_leb a b = true
  <-> String.compare (fst (fst a)) (fst (fst b)) = Lt
      \/ (fst (fst a) = fst (fst b)
          /\ pair_leb (snd (fst a), snd a) (snd (fst b), snd b) = true).
Proof.
  unfold triple_leb. rewrite orb_true_iff, andb_true_iff, string_ltb_compare, String.eqb_eq.
  done.
Qed.

Lemma triple_leb_total (a b : string * string * string) :
  triple_leb a b = true \/ triple_leb b a = true.
Proof.
  rewrite !triple_leb_spec.
  destruct (String.compare (fst (fst a)) (fst (fst b))) eqn:E.
  - apply string_compare_eq in E.
    destruct (pair_leb_total (snd (fst a), snd a) (snd (fst b), snd b));
      [left | right]; by right.
  - by left; left.
  - right; left. by apply string_compare_gt_lt.
Qed.

Lemma triple_leb_trans (a b c : string * string * string) :
  triple_leb a b = true -> triple_leb b c = true -> triple_leb a c = true.
Proof.
  rewrite !triple_leb_spec. intros [Hab|[Hab Hab']] [Hbc|[Hbc Hbc']].
  - left. by eapply string_compare_lt_trans.
  - left. by rewrite <- Hbc.
  - left. by rewrite Hab.
  - right. split; [congruence|]. by eapply pair_leb_trans.
Qed.

(** A sorted list stays sorted under a map that respects the order on its
    members. *)
Lemma Sorted_map_in {A B} (R : A -> A -> Prop) (R' : B -> B -> Prop) (f : A -> B)
    (l : list A) :
  (forall x y, x ∈ l -> y ∈ l -> R x y -> R' (f x) (f y)) ->
  Sorted R l -> Sorted R' (map f l).
Proof.
  intros Hf Hs. induction Hs as [|x l Hs IH Hhd]; cbn; constructor.
  - apply IH. intros a b Ha Hb. apply Hf; by right.
  - destruct Hhd as [|y l' Hxy]; cbn; constructor.
    apply Hf; [by left | right; by left | done].
Qed.

End TupleOrders.

(** ** Sanitising a schema for validation *)
Section SanitizeForValidation.
Import Validate.

Lemma sanitize_dict_free (d : dict) :
  Forall (fun kv => discriminator_free (_sanitize_for_validation (snd kv)) = true) d ->
  discriminator_free (_sanitize_for_validation (JDict d)) = true.
Proof.
  intros Hd. cbn [_sanitize_for_validation discriminator_free].
  apply andb_true_iff. split.
  - clear Hd. induction d as [|[k v] d IH]; [done|].
    destruct (String.eqb k "discriminator") eqn:E; [done|].
    cbn [dhas]. rewrite String.eqb_sym, E. done.
  - induction Hd as [|[k v] d Hv Hd IH]; [done|].
    destruct (String.eqb k "discriminator"); [done|].
    cbn [forallb snd] in *. by rewrite Hv.
Qed.

Lemma sanitize_free (value : json) :
  discriminator_free (_sanitize_for_validation value) = true.
Proof.
  induction value using json_ind; try done.
  - cbn [_sanitize_for_validation discriminator_free].
    rewrite forallb_forall. intros x Hin. apply in_map_iff in Hin as (y & <- & Hy).
    rewrite List.Forall_forall in H. by apply H.
  - by apply sanitize_dict_free.
Qed.

Lemma dhas_forallb_key (k : string) (d : dict) :
  dhas k d = false -> Forall (fun kv => String.eqb (fst kv) k = false) d.
Proof.
  induction d as [|[k' v] d IH]; [constructor|]. cbn [dhas].
  destruct (String.eqb k k') eqn:E; [done|]. intros Hd. constructor; [|by apply IH].
  cbn. by rewrite String.eqb_sym.
Qed.

Lemma sanitize_fixed (value : json) :
  discriminator_free value = true -> _sanitize_for_validation value = value.
Proof.
  induction value using json_ind; try done.
  - cbn [_sanitize_for_validation discriminator_free]. intros Hl. f_equal.
    induction H as [|x l Hx Hrest IH]; [done|]. cbn in Hl.
    apply andb_true_iff in Hl as [H1 H2]. cbn. by rewrite Hx, IH.
  - cbn [_sanitize_for_validation discriminator_free].
    intros [Hkey Hvals]%andb_true_iff. f_equal.
    apply negb_true_iff, dhas_forallb_key in Hkey.
    induction H as [|[k v] d Hv Hrest IH]; [done|].
    inversion Hkey as [|? ? Hk Hkeys]; subst. cbn in Hk, Hvals.
    apply andb_true_iff in Hvals as [H1 H2]. rewrite Hk.
    cbn in Hv. by rewrite Hv, IH.
Qed.

(** The sanitised schema has no [discriminator] at any depth, sanitising
    again changes nothing, a schema without discriminators is left as it
    is, and every other key of a mapping keeps its (sanitised) value. *)
Theorem sanitize_for_validation_drops_discriminators (value : json) :
  discriminator_free (_sanitize_for_validation value) = true
  /\ _sanitize_for_validation (_sanitize_for_validation value)
     = _sanitize_for_validation value
  /\ (discriminator_free value = true -> _sanitize_for_validation value = value)
  /\ (forall d k, value = JDict d -> k <> "discriminator" ->
        exists d', _sanitize_for_validation value = JDict d'
                   /\ dhas k d' = dhas k d
                   /\ pyget k d' = _sanitize_for_validation (pyget k d)).
Proof.
  split; [apply sanitize_free|]. split; [apply sanitize_fixed, sanitize_free|].
  split; [apply sanitize_fixed|].
  intros d k -> Hk. eexists. split; [reflexivity|].
  induction d as [|[k' v] d [IH1 IH2]]; [done|].
  destruct (String.eqb_spec k' "discriminator") as [->|Hne].
  - cbn [dhas pyget]. by destruct (String.eqb_spec k "discriminator").
  - cbn [dhas pyget]. destruct (String.eqb k k'); [done|]. by split.
Qed.

End SanitizeForValidation.

(** ** The verdict of [validate_payload] *)
Section Verdict.
Import Validate.

(** Whatever the operation, the request and the validator, a verdict has
    the keys [ok] and [errors], [ok] holds exactly when there is no error,
    and the errors come in the order of [(path, message)]. *)
Theorem validate_payload_verdict (lib : validators) (record request : dict)
    (spec_version spec verdict : json) :
  validate_payload lib record request spec_version spec = Ok verdict ->
  exists (ok : bool) (errors : list (string * string)),
    verdict = JDict [("ok", JBool ok); ("errors", JList (map error_entry errors))]
    /\ (ok = true <-> errors = [])
    /\ Sorted (leb_rel pair_leb) errors.
Proof.
  unfold validate_payload.
  destruct (Payloads._extract_request_body _ spec) as [request_body|e]; [|done].
  cbn [mbind result_bind].
  assert (Hok : exists (ok : bool) (errors : list (string * string)),
            ok_result = JDict [("ok", JBool ok); ("errors", JList (map error_entry errors))]
            /\ (ok = true <-> errors = []) /\ Sorted (leb_rel pair_leb) errors).
  { exists true, []. by repeat split. }
  destruct request_body as [| | | | | |rb]; try (by intros [= <-]).
  destruct (pyget "schema" rb) as [| | | | | |schema]; try (by intros [= <-]).
  destruct (is_none (_extract_body request)).
  - destruct (truthy _); [|by intros [= <-]].
    intros [= <-]. exists false, [("body", "Request body is required")].
    split; [done|]. split; [done|]. repeat constructor.
  - intros [= <-].
    match goal with
    | |- context [py_sorted pair_leb ?l] => set (errors := py_sorted pair_leb l)
    end.
    exists (match errors with [] => true | _ => false end), errors.
    split; [done|]. split; [by destruct errors|].
    apply py_sorted_sorted, pair_leb_total.
Qed.

End Verdict.

Lemma validate_payload_verdict_witness :
  exists (ok : bool) (errors : list (string * string)),
    JDict [("ok", JBool false);
           ("errors",
            JList [JDict [("path", JStr "/name"); ("message", JStr "is required")];
                   JDict [("path", JStr "/tag"); ("message", JStr "is required")]])]
    = JDict [("ok", JBool ok); ("errors", JList (map error_entry errors))]
    /\ (ok = true <-> errors = [])
    /\ Sorted (leb_rel pair_leb) errors.
Proof.
  apply (validate_payload_verdict strict_validators
           [("operation", pets_operation)] [("body", JDict [])] (JStr "3.0.3") JNull).
  vm_compute. reflexivity.
Defined.

(** ** Merging path-level and operation-level parameters *)
Section MergeParameters.
Import Engine.

Lemma key_eqb_spec (k k' : string * string) :
  String.eqb (fst k) (fst k') && String.eqb (snd k) (snd k') = true <-> k = k'.
Proof.
  destruct k, k'. cbn. rewrite andb_true_iff, !String.eqb_eq. naive_solver.
Qed.

Lemma merged_set_spec (k : string * string) (p : json) merged :
  NoDup (map fst merged) ->
  NoDup (map fst (merged_set k p merged))
  /\ forall kq, kq ∈ merged_set k p merged <-> kq = (k, p) \/ (kq ∈ merged /\ fst kq <> k).
Proof.
  induction merged as [|[k' p'] rest IH]; cbn [merged_set map fst].
  - intros _. split; [apply NoDup_singleton|]. intros kq.
    rewrite list_elem_of_singleton, elem_of_nil. naive_solver.
  - intros [Hk' Hrest]%NoDup_cons. specialize (IH Hrest) as [IH1 IH2].
    destruct (String.eqb (fst k) (fst k') && String.eqb (snd k) (snd k')) eqn:E.
    + apply key_eqb_spec in E as <-. split; [by apply NoDup_cons|].
      intros kq. rewrite !elem_of_cons. split.
      * intros [->|Hin]; [by left|]. right. split; [by right|].
        intros <-. apply Hk'. apply list_elem_of_fmap. by exists kq.
      * intros [->|[[->|Hin] Hne]]; [by left | done | by right].
    + assert (Hne : k <> k') by (intros ->; by rewrite (proj2 (key_eqb_spec _ _)) in E).
      split.
      * cbn [map fst]. apply NoDup_cons. split; [|done].
        intros (kq & Hfst & Hin)%list_elem_of_fmap. apply IH2 in Hin as [->|[Hin _]].
        -- by cbn in Hfst.
        -- apply Hk'. apply list_elem_of_fmap. by exists kq.
      * intros kq. rewrite !elem_of_cons, IH2. split.
        -- intros [->|[->|[Hin Hk]]]; [right; split; [by left|by cbn; congruence]
                                      | by left | right; split; [by right|done]].
        -- intros [->|[[->|Hin] Hk]]; [right; by left | by left | right; right; by split].
Qed.

(** One turn of the loop of [ingest]. *)
Lemma ingest_step (merged : list (string * string * json)) (param : json) :
  match param with
  | JDict p =>
      match pyget "name" p, pyget "in" p with
      | JStr name, JStr location => merged_set (name, location) param merged
      | _, _ => merged
      end
  | _ => merged
  end
  = match parameter_key param with
    | Some k => merged_set k param merged
    | None => merged
    end.
Proof.
  unfold parameter_key. destruct param; try done.
  destruct (pyget "name" d); try done. by destruct (pyget "in" d).
Qed.

Lemma ingest_params (params : json) merged :
  ingest params merged
  = fold_left (fun merged param =>
                 match parameter_key param with
                 | Some k => merged_set k param merged
                 | None => merged
                 end) (params_of params) merged.
Proof.
  unfold ingest, params_of. destruct params; try done.
  revert merged. induction l as [|param l IH]; intros merged; [done|].
  cbn [fold_left]. by rewrite ingest_step, IH.
Qed.

Lemma ingest_spec (params : json) merged :
  NoDup (map fst merged) ->
  (forall kq, kq ∈ merged -> parameter_key (snd kq) = Some (fst kq)) ->
  let r := ingest params merged in
  NoDup (map fst r)
  /\ (forall kq, kq ∈ r -> parameter_key (snd kq) = Some (fst kq))
  /\ (forall kq, kq ∈ r ->
        (kq ∈ merged
         /\ forall p, p ∈ params_of params -> parameter_key p <> Some (fst kq))
        \/ snd kq ∈ params_of params)
  /\ (forall k, k ∈ map fst merged
                \/ (exists p, p ∈ params_of params /\ parameter_key p = Some k) ->
                k ∈ map fst r).
Proof.
  rewrite ingest_params. cbn zeta. generalize (params_of params) as l.
  intros l. revert merged. induction l as [|x l IH]; intros merged Hnd Hkeys;
    cbn [fold_left].
  - split; [done|]. split; [done|]. split.
    + intros kq Hin. left. split; [done|]. intros p Hp. by apply elem_of_nil in Hp.
    + intros k [Hk|(p & Hp & _)]; [done|]. by apply elem_of_nil in Hp.
  - destruct (parameter_key x) as [kx|] eqn:Ex.
    + destruct (merged_set_spec kx x merged Hnd) as [Hnd' Hset].
      destruct (IH (merged_set kx x merged) Hnd') as (H1 & H2 & H3 & H4).
      { intros kq [->|[Hin _]]%Hset; [done | by apply Hkeys]. }
      split; [done|]. split; [done|]. split.
      * intros kq Hin. destruct (H3 kq Hin) as [[Hm Hnone]|Hl]; [|right; by right].
        apply Hset in Hm as [->|[Hm Hne]]; [right; by left|].
        left. split; [done|]. intros p [->|Hp]%elem_of_cons; [congruence | by apply Hnone].
      * intros k Hk. apply H4.
        destruct Hk as [Hk|(p & [->|Hp]%elem_of_cons & Hkey)].
        -- left. apply list_elem_of_fmap in Hk as (kq & -> & Hin).
           destruct (decide (fst kq = kx)) as [<-|Hne].
           ++ apply list_elem_of_fmap. exists (fst kq, x). split; [done|].
              apply Hset. by left.
           ++ apply list_elem_of_fmap. exists kq. split; [done|]. apply Hset. by right.
        -- left. apply list_elem_of_fmap. exists (kx, x). split; [by cbn; congruence|].
           apply Hset. by left.
        -- right. by exists p.
    + destruct (IH merged Hnd Hkeys) as (H1 & H2 & H3 & H4).
      split; [done|]. split; [done|]. split.
      * intros kq Hin. destruct (H3 kq Hin) as [[Hm Hnone]|Hl]; [|right; by right].
        left. split; [done|]. intros p [->|Hp]%elem_of_cons; [congruence | by apply Hnone].
      * intros k Hk. apply H4.
        destruct Hk as [Hk|(p & [->|Hp]%elem_of_cons & Hkey)];
          [by left | congruence | right; by exists p].
Qed.

Lemma entry_keys (entries : list (string * string * json)) :
  (forall kq, kq ∈ entries -> parameter_key (snd kq) = Some (fst kq)) ->
  map parameter_key (map snd entries) = map Some (map fst entries).
Proof.
  induction entries as [|kq entries IH]; intros Hkeys; [done|].
  cbn [map]. rewrite (Hkeys kq) by (by left). f_equal. apply IH.
  intros kq' Hin. apply Hkeys. by right.
Qed.

(** Every merged parameter is a parameter with a string [name] and [in]
    from one of the two lists; there is one per key [(name, in)] and every
    key of the lists has one; they come in the order of [(in, name)]; and
    for a key the operation declares, the parameter kept is the
    operation's, not the path item's. *)
Theorem merge_parameters_by_key (path_params op_params : json) :
  let merged := _merge_parameters path_params op_params in
  Forall (fun q => is_Some (parameter_key q)
                   /\ (q ∈ params_of path_params \/ q ∈ params_of op_params)) merged
  /\ NoDup (map parameter_key merged)
  /\ Sorted parameter_before merged
  /\ (forall p k, p ∈ params_of path_params ++ params_of op_params ->
        parameter_key p = Some k ->
        exists q, q ∈ merged /\ parameter_key q = Some k)
  /\ (forall q p, q ∈ merged -> p ∈ params_of op_params ->
        parameter_key p = parameter_key q -> q ∈ params_of op_params).
Proof.
  cbn zeta. unfold _merge_parameters.
  destruct (ingest_spec path_params [] ltac:(constructor)) as (Hnd1 & Hk1 & Hsrc1 & Hall1).
  { intros kq Hin. by apply elem_of_nil in Hin. }
  destruct (ingest_spec op_params (ingest path_params []) Hnd1 Hk1)
    as (Hnd2 & Hk2 & Hsrc2 & Hall2).
  set (m2 := ingest op_params (ingest path_params [])) in *.
  set (leb := fun a b : string * string * json =>
                pair_leb (snd (fst a), fst (fst a)) (snd (fst b), fst (fst b))).
  assert (Hperm : py_sorted leb m2 ≡ₚ m2) by apply py_sorted_perm.
  assert (Hin : forall kq, kq ∈ py_sorted leb m2 <-> kq ∈ m2)
    by (intros kq; by rewrite Hperm).
  split; [|split; [|split; [|split]]].
  - apply Forall_forall. intros q (kq & -> & Hq%Hin)%list_elem_of_fmap.
    split; [rewrite (Hk2 _ Hq); by eexists|].
    destruct (Hsrc2 _ Hq) as [[Hm _]|Hop]; [|by right].
    destruct (Hsrc1 _ Hm) as [[Hnil _]|Hpath]; [by apply elem_of_nil in Hnil | by left].
  - rewrite (entry_keys (py_sorted leb m2)) by (intros kq Hkq; by apply Hk2, Hin).
    apply (NoDup_fmap_2 Some). by rewrite Hperm.
  - apply (Sorted_map_in (leb_rel leb)).
    + intros a b Ha%Hin Hb%Hin Hab. unfold parameter_before.
      rewrite (Hk2 _ Ha), (Hk2 _ Hb). destruct a as [[na la] pa], b as [[nb lb] pb]. done.
    + apply py_sorted_sorted. intros a b. apply pair_leb_total.
  - intros p k Hp Hkey.
    assert (Hk : k ∈ map fst m2).
    { apply Hall2. apply elem_of_app in Hp as [Hp|Hp]; [left | right; by exists p].
      apply Hall1. right. by exists p. }
    apply list_elem_of_fmap in Hk as (kq & -> & Hkq).
    exists (snd kq). split; [|by apply Hk2].
    apply list_elem_of_fmap. exists kq. split; [done | by apply Hin].
  - intros q p (kq & -> & Hq%Hin)%list_elem_of_fmap Hp Hkey.
    destruct (Hsrc2 _ Hq) as [[_ Hnone]|Hop]; [|done].
    exfalso. apply (Hnone p Hp). by rewrite Hkey, (Hk2 _ Hq).
Qed.

End MergeParameters.

(** ** Extraction of operations: order and coverage *)
Section ExtractOperations.
Import Model Engine.

Lemma extract_operation_some sid path path_item method op :
  extract_operation sid path path_item method = Ok (Some op) ->
  Model.spec_id op = sid /\ Model.path op = path /\ Model.method op = method
  /\ is_dict (pyget method path_item) = true.
Proof.
  unfold extract_operation.
  destruct (pyget method path_item) as [| | | | | |operation]; try done.
  match goal with
  | |- context [mbind _ ?r] => destruct r as [tags_list|e]
  end; [|done].
  cbn [mbind result_bind]. by intros [= <-].
Qed.

Lemma extract_operation_dict sid path path_item method r :
  extract_operation sid path path_item method = Ok r ->
  is_dict (pyget method path_item) = true -> exists op, r = Some op.
Proof.
  unfold extract_operation.
  destruct (pyget method path_item) as [| | | | | |operation]; try done.
  match goal with
  | |- context [mbind _ ?r] => destruct r as [tags_list|e]
  end; [|done].
  cbn [mbind result_bind]. intros [= <-] _. by eexists.
Qed.

Lemma extract_methods_spec sid path path_item methods ops :
  extract_methods sid path path_item methods = Ok ops ->
  (forall op, op ∈ ops ->
     Model.spec_id op = sid /\ Model.path op = path /\ Model.method op ∈ methods
     /\ is_dict (pyget (Model.method op) path_item) = true)
  /\ (forall method, method ∈ methods -> is_dict (pyget method path_item) = true ->
        exists op, op ∈ ops /\ Model.path op = path /\ Model.method op = method).
Proof.
  revert ops. induction methods as [|method rest IH]; intros ops; cbn [extract_methods].
  - intros [= <-]. split; intros x Hx; by apply elem_of_nil in Hx.
  - destruct (extract_operation sid path path_item method) as [r|e] eqn:Eop; [|done].
    cbn [mbind result_bind].
    destruct (extract_methods sid path path_item rest) as [ops'|e] eqn:Erest; [|done].
    cbn [mbind result_bind]. intros [= <-]. destruct (IH _ eq_refl) as [IH1 IH2]. split.
    + intros op Hop.
      assert (Hcases : (r = Some op) \/ op ∈ ops')
        by (destruct r; [apply elem_of_cons in Hop as [->|?]; [by left | by right]
                        | by right]).
      destruct Hcases as [->|Hin].
      * destruct (extract_operation_some _ _ _ _ _ Eop) as (? & ? & <- & ?).
        repeat split; try done. by left.
      * destruct (IH1 _ Hin) as (? & ? & ? & ?). repeat split; try done. by right.
    + intros m [->|Hm]%elem_of_cons Hdict.
      * destruct (extract_operation_dict _ _ _ _ _ Eop Hdict) as [op ->].
        destruct (extract_operation_some _ _ _ _ _ Eop) as (? & ? & ? & ?).
        exists op. split; [by left | done].
      * destruct (IH2 _ Hm Hdict) as (op & Hin & ? & ?). exists op.
        split; [|done]. destruct r; [by right | done].
Qed.

Lemma extract_paths_spec sid items ops :
  extract_paths sid items = Ok ops ->
  (forall op, op ∈ ops ->
     Model.spec_id op = sid /\ Model.method op ∈ Ingest.list_http_methods
     /\ exists path_item, (Model.path op, JDict path_item) ∈ items
                          /\ is_dict (pyget (Model.method op) path_item) = true)
  /\ (forall path path_item method,
        (path, JDict path_item) ∈ items -> method ∈ Ingest.list_http_methods ->
        is_dict (pyget method path_item) = true ->
        exists op, op ∈ ops /\ Model.path op = path /\ Model.method op = method).
Proof.
  revert ops. induction items as [|[path v] rest IH]; intros ops; cbn [extract_paths].
  - intros [= <-]. split; [intros x Hx; by apply elem_of_nil in Hx|].
    intros ? ? ? Hin. by apply elem_of_nil in Hin.
  - assert (Hskip : forall ops, extract_paths sid rest = Ok ops -> is_dict v = false ->
              (forall op, op ∈ ops ->
                 Model.spec_id op = sid /\ Model.method op ∈ Ingest.list_http_methods
                 /\ exists path_item, (Model.path op, JDict path_item) ∈ (path, v) :: rest
                                      /\ is_dict (pyget (Model.method op) path_item) = true)
              /\ (forall path' path_item method,
                    (path', JDict path_item) ∈ (path, v) :: rest ->
                    method ∈ Ingest.list_http_methods ->
                    is_dict (pyget method path_item) = true ->
                    exists op, op ∈ ops /\ Model.path op = path' /\ Model.method op = method)).
    { intros ops' Hrun Hv. destruct (IH _ Hrun) as [IH1 IH2]. split.
      - intros op Hop. destruct (IH1 _ Hop) as (? & ? & item & ? & ?).
        repeat split; try done. exists item. split; [by right | done].
      - intros path' item method [[= -> <-]|Hin]%elem_of_cons; [done|]. by apply IH2. }
    destruct v as [| | | | | |path_item]; try (intros Hrun; by apply Hskip).
    clear Hskip.
    destruct (extract_methods sid path path_item Ingest.list_http_methods)
      as [here|e] eqn:Ehere; [|done].
    cbn [mbind result_bind].
    destruct (extract_paths sid rest) as [more|e] eqn:Emore; [|done].
    cbn [mbind result_bind]. intros [= <-].
    destruct (extract_methods_spec _ _ _ _ _ Ehere) as [Hh1 Hh2].
    destruct (IH _ eq_refl) as [IH1 IH2]. split.
    + intros op [Hop|Hop]%elem_of_app.
      * destruct (Hh1 _ Hop) as (? & Hpath & ? & ?). repeat split; try done.
        exists path_item. rewrite Hpath. split; [by left | done].
      * destruct (IH1 _ Hop) as (? & ? & item & ? & ?). repeat split; try done.
        exists item. split; [by right | done].
    + intros path' item method [[= -> ->]|Hin]%elem_of_cons Hm Hdict.
      * destruct (Hh2 _ Hm Hdict) as (op & ? & ? & ?). exists op.
        split; [apply elem_of_app; by left | done].
      * destruct (IH2 _ _ _ Hin Hm Hdict) as (op & ? & ? & ?). exists op.
        split; [apply elem_of_app; by right | done].
Qed.

(** The operations extracted from a specification come in the order of
    [(path, method, operationId or "")]; each one is a mapping found under
    one of the eight HTTP methods of a mapping-valued path item; and every
    such mapping gives an operation. *)
Theorem extract_operations_sorted_and_complete (sid : string) (spec : json)
    (ops : list Operation) :
  _extract_operations sid spec = Ok ops ->
  Sorted (fun a b => triple_leb (operation_sort_key a) (operation_sort_key b) = true) ops
  /\ (forall op, op ∈ ops ->
        Model.spec_id op = sid /\ Model.method op ∈ Ingest.list_http_methods
        /\ exists s paths path_item,
             spec = JDict s /\ pyget "paths" s = JDict paths
             /\ (Model.path op, JDict path_item) ∈ paths
             /\ is_dict (pyget (Model.method op) path_item) = true)
  /\ (forall s paths path path_item method,
        spec = JDict s -> pyget "paths" s = JDict paths ->
        (path, JDict path_item) ∈ paths -> method ∈ Ingest.list_http_methods ->
        is_dict (pyget method path_item) = true ->
        exists op, op ∈ ops /\ Model.path op = path /\ Model.method op = method).
Proof.
  unfold _extract_operations.
  assert (Hnil : Sorted (fun a b : Operation =>
                    triple_leb (operation_sort_key a) (operation_sort_key b) = true) []
                 /\ (forall op : Operation, op ∈ [] -> False))
    by (split; [constructor | intros op Hop; by apply elem_of_nil in Hop]).
  destruct spec as [| | | | | |s];
    try (intros [= <-]; split; [apply Hnil|]; split;
         [intros op Hop; by apply elem_of_nil in Hop | done]).
  destruct (pyget "paths" s) as [| | | | | |paths] eqn:Epaths;
    try (intros [= <-]; split; [apply Hnil|]; split;
         [intros op Hop; by apply elem_of_nil in Hop|];
         intros s' paths' ? ? ? [= <-] Hp; congruence).
  destruct (extract_paths sid (sorted_items paths)) as [operations|e] eqn:Erun; [|done].
  cbn [mbind result_bind]. intros [= <-].
  destruct (extract_paths_spec _ _ _ Erun) as [H1 H2].
  split; [|split].
  - apply (py_sorted_sorted (fun a b => triple_leb (operation_sort_key a)
                                          (operation_sort_key b))).
    intros a b. apply triple_leb_total.
  - intros op Hop%py_sorted_elem_of. destruct (H1 _ Hop) as (? & ? & item & Hin & ?).
    repeat split; try done. exists s, paths, item. repeat split; try done.
    unfold sorted_items in Hin. by apply py_sorted_elem_of in Hin.
  - intros s' paths' path item method [= <-] Hp Hin Hm Hdict.
    rewrite Epaths in Hp. injection Hp as <-.
    destruct (H2 path item method) as (op & ? & ? & ?); [|done|done|].
    + unfold sorted_items. by apply py_sorted_elem_of.
    + exists op. split; [by apply py_sorted_elem_of | done].
Qed.

End ExtractOperations.

(** The three operations of the sample specification, [/pets] before
    [/pets/{id}] and [get] before [post]. *)
Lemma extract_operations_sorted_and_complete_witness :
  exists ops,
    Engine._extract_operations "pets" pets_spec = Ok ops
    /\ map (fun op => (Model.path op, Model.method op)) ops
       = [("/pets", "get"); ("/pets", "post"); ("/pets/{id}", "get")]
    /\ Sorted (fun a b => triple_leb (Engine.operation_sort_key a)
                            (Engine.operation_sort_key b) = true) ops.
Proof.
  eexists. split; [vm_compute; reflexivity|]. split; [reflexivity|].
  refine (proj1 (extract_operations_sorted_and_complete "pets" pets_spec _ _)).
  vm_compute; reflexivity.
Defined.

(** ** Discovery of specification files *)
Section Discovery.
Import Ingest.
Context (sys : os).

(** The files discovered are exactly the files of the walk whose name ends
    in [.json], [.yaml] or [.yml] in any case, each under the path joined
    from its directory and name, in ascending order of path. *)
Theorem discover_spec_files_sorted_filtered (spec_dir : string) :
  Sorted (leb_rel String.leb) (discover_spec_files sys spec_dir)
  /\ forall p, p ∈ discover_spec_files sys spec_dir
               <-> exists root name, (root, name) ∈ walk sys spec_dir
                                     /\ spec_file_name name = true
                                     /\ p = path_join sys root name.
Proof.
  unfold discover_spec_files, sorted_strings. split.
  - apply py_sorted_sorted, String.leb_total.
  - intros p. rewrite py_sorted_elem_of, list_elem_of_omap. split.
    + intros ([root name] & Hin & Hsome). exists root, name. cbn in Hsome.
      unfold spec_file_name. destruct (_ || _); [|done]. by injection Hsome as <-.
    + intros (root & name & Hin & Hname & ->). exists (root, name). split; [done|].
      cbn. unfold spec_file_name in Hname. by rewrite Hname.
Qed.

Lemma fingerprint_loop_paths spec_dir paths fps :
  fingerprint_loop sys spec_dir paths = Ok fps ->
  map (fun fp => (fp_path fp, fp_relative_path fp)) fps
  = map (fun p => (p, relpath sys p spec_dir)) paths
  /\ Forall (fun fp => stat sys (fp_path fp) = Ok (fp_size fp, fp_mtime fp)) fps.
Proof.
  revert fps. induction paths as [|p rest IH]; intros fps; cbn [fingerprint_loop].
  - by intros [= <-].
  - destruct (stat sys p) as [[size mtime]|e] eqn:Estat; [|done]. cbn [mbind result_bind].
    destruct (fingerprint_loop sys spec_dir rest) as [fps'|e]; [|done].
    cbn [mbind result_bind]. intros [= <-]. destruct (IH _ eq_refl) as [IH1 IH2].
    split; [cbn; by rewrite IH1 | by constructor].
Qed.

Lemma build_loop_paths spec_dir files :
  forall used_ids specs result,
    build_loop sys spec_dir files used_ids specs = Ok result ->
    map (fun f => (path f, relative_path f)) result
    = map (fun f => (path f, relative_path f)) specs
      ++ map (fun p => (p, relpath sys p spec_dir)) files.
Proof.
  induction files as [|file files IH]; intros used_ids specs result; cbn [build_loop].
  - intros [= <-]. by rewrite app_nil_r.
  - destruct (load_raw_spec sys file) as [raw0|e]; [|done]. cbn [mbind result_bind].
    intros Hrun%IH. rewrite Hrun, map_app, <- app_assoc. done.
Qed.

(** The fingerprints of a directory and its specification files go
    together: entry by entry the same path and the same relative path,
    which is the path relative to the absolute directory, and each
    fingerprint holds the size and modification time [os.stat] reports. *)
Theorem fingerprints_follow_spec_files (spec_dir : string)
    (fps : list SpecFingerprint) (specs : list SpecFile) :
  fingerprint_spec_files sys spec_dir = Ok fps ->
  build_spec_files sys spec_dir = Ok specs ->
  map fp_path fps = map path specs
  /\ map fp_relative_path fps = map relative_path specs
  /\ Forall (fun fp => fp_relative_path fp
                       = relpath sys (fp_path fp) (abspath sys spec_dir)
                       /\ stat sys (fp_path fp) = Ok (fp_size fp, fp_mtime fp)) fps
  /\ map fp_path fps = discover_spec_files sys (abspath sys spec_dir).
Proof.
  unfold fingerprint_spec_files, build_spec_files. intros Hfp Hbuild.
  destruct (fingerprint_loop_paths _ _ _ Hfp) as [Hfps Hstat].
  apply build_loop_paths in Hbuild. cbn [map app] in Hbuild.
  assert (Hpairs : map (fun fp => (fp_path fp, fp_relative_path fp)) fps
                   = map (fun f => (path f, relative_path f)) specs) by congruence.
  split; [|split; [|split]].
  - apply (f_equal (map fst)) in Hpairs. by rewrite !map_map in Hpairs.
  - apply (f_equal (map snd)) in Hpairs. by rewrite !map_map in Hpairs.
  - apply Forall_forall. intros fp Hin. split.
    + assert (Hp : (fp_path fp, fp_relative_path fp)
                   ∈ map (fun p => (p, relpath sys p (abspath sys spec_dir)))
                       (discover_spec_files sys (abspath sys spec_dir))).
      { rewrite <- Hfps. apply list_elem_of_fmap. by exists fp. }
      apply list_elem_of_fmap in Hp as (p & [= -> ->] & _). done.
    + rewrite Forall_forall in Hstat. by apply Hstat.
  - apply (f_equal (map fst)) in Hfps. rewrite !map_map in Hfps. cbn in Hfps.
    by rewrite map_id in Hfps.
Qed.

End Discovery.

(** ** The cache of loaded specifications *)
Section SpecCache.
Import Engine.

(** A specification that was fetched is kept: asking again returns it and
    leaves the engine as it is, without reading any file and whatever
    parser or file system is then at hand. *)
Theorem get_spec_served_from_cache (ext ext' : externals CatalogEngine)
    (self self' : CatalogEngine) (spec_id spec : json) :
  _get_spec ext self spec_id = (Ok spec, self') -> spec <> JNull ->
  _get_spec ext' self' spec_id = (Ok spec, self')
  /\ get_by spec_id (_specs self') = spec
  /\ _index self' = _index self
  /\ _spec_paths self' = _spec_paths self.
Proof.
  intros Hrun Hspec.
  assert (Hcached : get_by spec_id (_specs self') = spec
                    /\ _index self' = _index self /\ _spec_paths self' = _spec_paths self).
  { revert Hrun. unfold _get_spec.
    destruct (is_none (get_by spec_id (_specs self))) eqn:Ecached; cbn [negb].
    - destruct spec_id as [| | | |key| |]; try (intros [= <- <-]; done).
      destruct (path_of (JStr key) (_spec_paths self)) as [path|];
        [|intros [= <- <-]; done].
      destruct (String.eqb path ""); [intros [= <- <-]; done|].
      destruct (Ingest.load_raw_spec (sys ext) path) as [raw|e]; [|done].
      intros [= <- <-]. cbn. by rewrite pyget_dset.
    - by intros [= <- <-]. }
  destruct Hcached as (Hget & Hidx & Hpaths). split; [|done].
  unfold _get_spec. rewrite Hget.
  destruct spec; try done.
Qed.

End SpecCache.

(** A directory of two specification files, listed out of order. *)
Lemma fingerprints_follow_spec_files_witness :
  let sys := directory_os [("b.json", JDict []); ("a.json", JDict [])] in
  exists fps specs,
    Ingest.fingerprint_spec_files sys "specs" = Ok fps
    /\ Ingest.build_spec_files sys "specs" = Ok specs
    /\ map Ingest.fp_path fps = ["specs/a.json"; "specs/b.json"]
    /\ map Ingest.fp_path fps = map Ingest.path specs.
Proof.
  intros sys. do 2 eexists.
  split; [vm_compute; reflexivity|]. split; [vm_compute; reflexivity|].
  split; [reflexivity|].
  refine (proj1 (fingerprints_follow_spec_files sys "specs" _ _ _ _));
    vm_compute; reflexivity.
Defined.

(** The engine that holds the specification [pets] serves it whether or
    not a file can be read. *)
Lemma get_spec_served_from_cache_witness :
  Engine._get_spec (sample_externals None) pets_engine (JStr "pets")
  = (Ok (JDict [("openapi", JStr "3.0.3")]), pets_engine)
  /\ Engine._get_spec
       (sample_externals (Some JNull)) pets_engine (JStr "pets")
     = (Ok (JDict [("openapi", JStr "3.0.3")]), pets_engine).
Proof.
  split; [reflexivity|].
  refine (proj1 (get_spec_served_from_cache (sample_externals None)
                   (sample_externals (Some JNull)) pets_engine pets_engine
                   (JStr "pets") (JDict [("openapi", JStr "3.0.3")]) _ _)).
  - reflexivity.
  - discriminate.
Defined.

(** ** Reference resolution: values without references, JSON Pointers *)
Section ResolveMore.
Import Resolve.

Lemma combine_fst_snd {A B} (l : list (A * B)) : combine (map fst l) (map snd l) = l.
Proof. induction l as [|[a b] l IH]; [done|]. cbn. by rewrite IH. Qed.

Lemma resolve_each_fixed (f : json -> gset string -> result (json * gset string))
    (vs : list json) (seen : gset string) :
  Forall (fun v => f v seen = Ok (v, seen)) vs ->
  resolve_each (fun v s => Some (f v s)) vs seen = Some (Ok (vs, seen)).
Proof.
  induction 1 as [|v vs Hv _ IH]; [done|]. cbn [resolve_each]. by rewrite Hv, IH.
Qed.

Lemma ref_free_fixed (spec value : json) :
  ref_free value = true ->
  forall seen, deep_resolve_refs_seen value spec seen = Ok (value, seen).
Proof.
  assert (Hspec : spec = JNull \/ spec <> JNull)
    by (destruct spec; (by left) || (by right)).
  destruct Hspec as [->|Hspec]; [done|].
  induction value using json_ind; intros Hfree seen;
    match goal with
    | |- deep_resolve_refs_seen ?v _ _ = _ =>
        pose proof (deep_resolve_refs_seen_unfold spec v seen Hspec) as Hunfold
    end;
    cbn [deep_resolve_refs_body] in Hunfold; try (by injection Hunfold as <-).
  - (* lists *)
    cbn [ref_free] in Hfree. rewrite forallb_forall in Hfree.
    rewrite (resolve_each_fixed (fun v s => deep_resolve_refs_seen v spec s)) in Hunfold.
    + by injection Hunfold as <-.
    + rewrite List.Forall_forall in H. apply Forall_forall. intros v Hv.
      apply list_elem_of_In in Hv. apply H; [done | by apply Hfree].
  - (* mappings *)
    cbn [ref_free] in Hfree. apply andb_true_iff in Hfree as [Hkey Hvals].
    rewrite forallb_forall in Hvals.
    assert (Hmembers : Forall (fun v => deep_resolve_refs_seen v spec seen = Ok (v, seen))
                         (map snd d)).
    { apply Forall_forall. intros v (kv & -> & Hkv)%list_elem_of_fmap.
      apply list_elem_of_In in Hkv. rewrite List.Forall_forall in H.
      apply (H kv Hkv). by apply Hvals. }
    destruct (pyget "$ref" d); try done;
      rewrite (resolve_each_fixed (fun v s => deep_resolve_refs_seen v spec s)) in Hunfold
        by done;
      rewrite combine_fst_snd in Hunfold; by injection Hunfold as <-.
Qed.

(** A value without references resolves to itself; and a reference whose
    target has none is replaced by that very target. *)
Theorem deep_resolve_refs_without_references (spec value : json) :
  (ref_free value = true -> deep_resolve_refs value spec = Ok value)
  /\ (forall d ref,
        value = JDict d -> pyget "$ref" d = JStr ref -> spec <> JNull ->
        _resolve_ref_pointer spec ref <> JNull ->
        ref_free (_resolve_ref_pointer spec ref) = true ->
        deep_resolve_refs value spec = Ok (_resolve_ref_pointer spec ref)).
Proof.
  split.
  - intros Hfree. unfold deep_resolve_refs. by rewrite (ref_free_fixed _ _ Hfree).
  - intros d ref -> Href Hspec Htarget Hfree. unfold deep_resolve_refs.
    pose proof (deep_resolve_refs_seen_unfold spec (JDict d) ∅ Hspec) as Hunfold.
    cbn [deep_resolve_refs_body] in Hunfold. rewrite Href in Hunfold.
    destruct (decide (ref ∈ (∅ : gset string))) as [Hin|_]; [set_solver|].
    destruct (is_none (_resolve_ref_pointer spec ref)) eqn:Enone;
      [by destruct (_resolve_ref_pointer spec ref)|].
    rewrite (ref_free_fixed _ _ Hfree) in Hunfold.
    destruct (decide (ref ∈ {[ref]} ∪ (∅ : gset string))) as [_|Hout]; [|set_solver].
    injection Hunfold as <-. done.
Qed.

(** *** JSON Pointers *)

(** Every path of keys can be written as a pointer, each key escaped, and
    the pointer leads to the member the path leads to.  The path of the
    single empty key is the exception: its pointer [#/] gives the whole
    document; and a reference that does not start with [#/] gives
    nothing. *)
Theorem resolve_ref_pointer_round_trip (spec : json) (keys : list string) :
  keys <> [] -> keys <> [""] ->
  _resolve_ref_pointer spec ("#/" ++ join "/" (map escape_part keys)) = lookup_path keys spec
  /\ Forall (fun key => unescape_part (escape_part key) = key) keys
  /\ _resolve_ref_pointer spec "#/" = spec
  /\ (forall ref, startswith "#/" ref = false -> _resolve_ref_pointer spec ref = JNull).
Proof.
  intros Hne Hempty. split; [|split; [|split]].
  - unfold _resolve_ref_pointer. rewrite startswith_local. cbn [negb].
    assert (Hdrop : str_drop 2 ("#/" ++ join "/" (map escape_part keys))
                    = join "/" (map escape_part keys)).
    { apply str_drop_local. }
    rewrite Hdrop.
    destruct (String.eqb_spec (join "/" (map escape_part keys)) "") as [He|_].
    + by destruct (join_escaped_empty _ He).
    + rewrite str_split_join.
      * apply walk_pointer_escaped.
      * by destruct keys.
      * apply Forall_forall. intros p (key & -> & _)%list_elem_of_fmap.
        apply escape_part_no_slash.
  - apply Forall_forall. intros key _. apply unescape_escape.
  - done.
  - intros ref Href. unfold _resolve_ref_pointer. by rewrite Href.
Qed.

End ResolveMore.

(** The pointer to the schema named [a/b~c] of the sample specification. *)
Lemma resolve_ref_pointer_round_trip_witness :
  join "/" (map escape_part ["components"; "schemas"; "a/b~c"])
  = "components/schemas/a~1b~0c"
  /\ Resolve._resolve_ref_pointer pets_spec
       ("#/" ++ join "/" (map escape_part ["components"; "schemas"; "a/b~c"]))
     = lookup_path ["components"; "schemas"; "a/b~c"] pets_spec
  /\ lookup_path ["components"; "schemas"; "a/b~c"] pets_spec
     = JDict [("type", JStr "string")].
Proof.
  split; [reflexivity|]. split; [|reflexivity].
  refine (proj1 (resolve_ref_pointer_round_trip pets_spec
                   ["components"; "schemas"; "a/b~c"] _ _)); discriminate.
Defined.

(** ** Generated objects: required properties and unknowns *)
Section GeneratedObjects.
Import Resolve Payloads.
Context (lib : library) (amb : ambient).

Lemma fbind_ok {A B} (r : fueled A) (k : A -> fueled B) (y : B) :
  fbind r k = Some (Ok y) -> exists a, r = Some (Ok a) /\ k a = Some (Ok y).
Proof.
  destruct r as [[a|e]|]; cbn; try done. intros H. by exists a.
Qed.

Lemma existsb_eqb_In (name : string) (required : list string) :
  existsb (String.eqb name) required = true <-> In name required.
Proof.
  rewrite existsb_exists. split.
  - intros (x & Hin & ->%String.eqb_eq). done.
  - intros Hin. exists name. by rewrite String.eqb_refl.
Qed.

Lemma dhas_dset_same (k : string) (v : json) (d : dict) : dhas k (dset k v d) = true.
Proof. by rewrite dhas_dset, String.eqb_refl. Qed.

Lemma dhas_dset_keep (k k' : string) (v : json) (d : dict) :
  dhas k d = true -> dhas k (dset k' v d) = true.
Proof. intros H. by rewrite dhas_dset, H, orb_true_r. Qed.

(** The loop over the property names. *)
Lemma object_loop_spec (rec : generator) properties provided required path depth :
  grows rec ->
  forall prop_names output unknowns output' unknowns',
    object_loop rec properties provided required path depth prop_names output unknowns
    = Some (Ok (output', unknowns')) ->
    unknowns `prefix_of` unknowns'
    /\ (forall name, dhas name output = true -> dhas name output' = true)
    /\ (forall name, dhas name output' = true ->
          dhas name output = true
          \/ (In name prop_names /\ is_dict (pyget name properties) = true
              /\ (In name required \/ pyget name provided <> JNull)))
    /\ (forall name, In name prop_names -> is_dict (pyget name properties) = true ->
          In name required ->
          dhas name output' = true
          /\ (pyget name provided = JNull ->
              (path ++ "." ++ name)%string ∈ unknowns')).
Proof.
  intros Hrec. induction prop_names as [|prop_name rest IH];
    intros output unknowns output' unknowns'; cbn [object_loop].
  - intros [= <- <-]. split; [done|]. split; [done|]. split; [by left|]. by intros.
  - destruct (is_dict (pyget prop_name properties)) eqn:Edict; cbn [negb].
    + destruct (existsb (String.eqb prop_name) required) eqn:Ereq;
        destruct (is_none (pyget prop_name provided)) eqn:Enone;
        cbn [andb orb negb].
      * (* required, nothing provided *)
        intros (r & Hr & Hloop)%fbind_ok. destruct r as [v u1].
        apply Hrec in Hr. destruct (IH _ _ _ _ Hloop) as (H1 & H2 & H3 & H4).
        cbn [fst snd] in *.
        assert (Hu : (unknowns ++ [(path ++ "." ++ prop_name)%string]) `prefix_of` unknowns')
          by (by etrans).
        split; [etrans; [apply prefix_app_r; reflexivity | exact Hu]|].
        split; [intros name Hn; by apply H2, dhas_dset_keep|].
        split.
        -- intros name Hn. destruct (H3 _ Hn) as [Hout|(Hin & Hd & Hr')].
           ++ rewrite dhas_dset in Hout. apply orb_true_iff in Hout as [->%String.eqb_eq|Hout];
                [right | by left].
              split; [by left|]. split; [done|]. left. by apply existsb_eqb_In.
           ++ right. split; [by right | done].
        -- intros name [<-|Hin] Hd Hr'.
           ++ split; [apply H2, dhas_dset_same|]. intros _.
              destruct Hu as [suffix ->]. apply elem_of_app. left.
              apply elem_of_app. right. by left.
           ++ by apply H4.
      * (* required, provided *)
        intros (r & Hr & Hloop)%fbind_ok. destruct r as [v u1].
        apply Hrec in Hr. destruct (IH _ _ _ _ Hloop) as (H1 & H2 & H3 & H4).
        cbn [fst snd] in *.
        split; [by etrans|].
        split; [intros name Hn; by apply H2, dhas_dset_keep|].
        split.
        -- intros name Hn. destruct (H3 _ Hn) as [Hout|(Hin & Hd & Hr')].
           ++ rewrite dhas_dset in Hout. apply orb_true_iff in Hout as [->%String.eqb_eq|Hout];
                [right | by left].
              split; [by left|]. split; [done|]. left. by apply existsb_eqb_In.
           ++ right. split; [by right | done].
        -- intros name [<-|Hin] Hd Hr'.
           ++ split; [apply H2, dhas_dset_same|]. intros Hp.
              rewrite Hp in Enone. done.
           ++ by apply H4.
      * (* optional, nothing provided *)
        intros Hloop. destruct (IH _ _ _ _ Hloop) as (H1 & H2 & H3 & H4).
        split; [done|]. split; [done|]. split.
        -- intros name Hn. destruct (H3 _ Hn) as [Hout|(Hin & Hd & Hr')]; [by left|].
           right. split; [by right | done].
        -- intros name [<-|Hin] Hd Hr'; [|by apply H4].
           apply existsb_eqb_In in Hr'. congruence.
      * (* optional, provided *)
        intros (r & Hr & Hloop)%fbind_ok. destruct r as [v u1].
        apply Hrec in Hr. destruct (IH _ _ _ _ Hloop) as (H1 & H2 & H3 & H4).
        cbn [fst snd] in *.
        split; [by etrans|].
        split; [intros name Hn; by apply H2, dhas_dset_keep|].
        split.
        -- intros name Hn. destruct (H3 _ Hn) as [Hout|(Hin & Hd & Hr')].
           ++ rewrite dhas_dset in Hout. apply orb_true_iff in Hout as [->%String.eqb_eq|Hout];
                [right | by left].
              split; [by left|]. split; [done|]. right.
              intros Hp. by rewrite Hp in Enone.
           ++ right. split; [by right | done].
        -- intros name [<-|Hin] Hd Hr'; [|by apply H4].
           apply existsb_eqb_In in Hr'. congruence.
    + intros Hloop. destruct (IH _ _ _ _ Hloop) as (H1 & H2 & H3 & H4).
      split; [done|]. split; [done|]. split.
      * intros name Hn. destruct (H3 _ Hn) as [Hout|(Hin & Hd & Hr')]; [by left|].
        right. split; [by right | done].
      * intros name [<-|Hin] Hd Hr'; [congruence | by apply H4].
Qed.

Lemma sorted_strings_In (name : string) (l : list string) :
  In name (sorted_strings l) <-> In name l.
Proof.
  unfold sorted_strings. rewrite <- !list_elem_of_In. apply py_sorted_elem_of.
Qed.

Lemma dkeys_In (name : string) (d : dict) : In name (dkeys d) <-> dhas name d = true.
Proof.
  induction d as [|[k v] d IH]; cbn [dkeys map dhas fst]; [done|].
  destruct (String.eqb_spec name k) as [->|Hne]; [by split; [|left]|].
  unfold dkeys in IH. rewrite <- IH. cbn. naive_solver.
Qed.

(** What [_generate_object_body] returns. *)
Lemma _generate_object_body_spec (rec : generator) schema provided path unknowns
    discriminator depth v unknowns' :
  grows rec ->
  _generate_object_body lib amb rec schema provided path unknowns discriminator depth
  = Some (Ok (v, unknowns')) ->
  exists output,
    v = JDict output
    /\ unknowns `prefix_of` unknowns'
    /\ (forall name, In name (object_required schema) ->
          is_dict (pyget name (object_properties schema)) = true ->
          dhas name output = true
          /\ (pyget name provided = JNull ->
              (path ++ "." ++ name)%string ∈ unknowns'))
    /\ (forall name, dhas name output = true ->
          (is_dict (pyget name (object_properties schema)) = true
           /\ (In name (object_required schema) \/ pyget name provided <> JNull))
          \/ exists value, discriminator = Some (name, value)).
Proof.
  intros Hrec. unfold _generate_object_body.
  fold (object_properties schema). fold (object_required schema).
  intros ([output u1] & Hloop & Hrest)%fbind_ok.
  destruct (object_loop_spec rec _ _ _ _ _ Hrec _ _ _ _ _ Hloop) as (H1 & H2 & H3 & H4).
  cbn [fst snd] in Hrest.
  assert (Hreq : forall name, In name (object_required schema) ->
            is_dict (pyget name (object_properties schema)) = true ->
            dhas name output = true
            /\ (pyget name provided = JNull -> (path ++ "." ++ name)%string ∈ u1)).
  { intros name Hn Hd. apply H4; [|done|done].
    apply sorted_strings_In, dkeys_In.
    destruct (dhas name (object_properties schema)) eqn:E; [done|].
    by rewrite (dhas_false_pyget _ _ E) in Hd. }
  assert (Hkeys : forall name, dhas name output = true ->
            is_dict (pyget name (object_properties schema)) = true
            /\ (In name (object_required schema) \/ pyget name provided <> JNull)).
  { intros name Hn. destruct (H3 _ Hn) as [Hnil|(_ & ? & ?)]; [done | by split]. }
  pose (G := fun (v : json) (unknowns' : list string) =>
    exists output0, v = JDict output0 /\ unknowns `prefix_of` unknowns'
      /\ (forall name, In name (object_required schema) ->
            is_dict (pyget name (object_properties schema)) = true ->
            dhas name output0 = true
            /\ (pyget name provided = JNull ->
                (path ++ "." ++ name)%string ∈ unknowns'))
      /\ (forall name, dhas name output0 = true ->
            (is_dict (pyget name (object_properties schema)) = true
             /\ (In name (object_required schema) \/ pyget name provided <> JNull))
            \/ exists value, discriminator = Some (name, value))).
  change (G v unknowns').
  assert (Hplain : G (JDict output) u1).
  { exists output. split; [done|]. split; [done|].
    split; [done|]. intros name Hn. left. by apply Hkeys. }
  assert (Hset : forall name value w,
            discriminator = Some (name, value) -> G (JDict (dset name w output)) u1).
  { intros name value w Hdisc. eexists. split; [reflexivity|].
    split; [done|]. split.
    - intros n Hn Hd. destruct (Hreq n Hn Hd) as [Ho Hu].
      split; [by apply dhas_dset_keep | done].
    - intros n Hn. rewrite dhas_dset in Hn.
      apply orb_true_iff in Hn as [->%String.eqb_eq|Hn]; [right; by eexists|].
      left. by apply Hkeys. }
  clearbody G. revert Hrest.
  destruct discriminator as [[discriminator_name discriminator_value]|];
    [|by intros [= <- <-]].
  repeat (match goal with
          | |- context [if ?c then _ else _] => destruct c
          end);
    try (by intros [= <- <-]);
    try (intros [= <- <-]; by eapply Hset).
  all: intros (w & Hw & [= <- <-])%fbind_ok; by eapply Hset.
Qed.

Lemma items_loop_grows (rec : generator) items_schema path depth field_name :
  grows rec ->
  forall items idx unknowns vs unknowns',
    items_loop rec items_schema path depth field_name idx items unknowns
    = Some (Ok (vs, unknowns')) ->
    unknowns `prefix_of` unknowns'.
Proof.
  intros Hrec. induction items as [|item rest IH]; intros idx unknowns vs unknowns';
    cbn [items_loop].
  - by intros [= <- <-].
  - intros ([v u1] & Hr & Hrest)%fbind_ok.
    apply fbind_ok in Hrest as ([vs' u2] & Hloop & [= <- <-]). cbn [fst snd] in *.
    etrans; [by eapply Hrec | by eapply IH].
Qed.

Lemma _generate_from_schema_body_grows (rec : generator) :
  grows rec -> grows (_generate_from_schema_body lib amb rec).
Proof.
  intros Hrec schema provided path unknowns depth field_name v unknowns'.
  unfold _generate_from_schema_body.
  destruct (Nat.ltb MAX_DEPTH depth); [by intros [= <- <-]|].
  intros (selected & _ & Hrest)%fbind_ok. revert Hrest.
  destruct (negb (is_none provided)).
  - destruct provided; try (by intros [= <- <-]).
    + destruct (str_is _ "array"); [|by intros [= <- <-]].
      intros ([vs u1] & Hloop & [= <- <-])%fbind_ok.
      by eapply items_loop_grows.
    + destruct (str_is _ "object"); [|by intros [= <- <-]].
      intros H. by destruct (_generate_object_body_spec _ _ _ _ _ _ _ _ _ Hrec H)
        as (? & ? & ? & ?).
  - destruct (dhas "const" _); [by intros [= <- <-]|].
    destruct (dhas "default" _); [by intros [= <- <-]|].
    match goal with
    | |- context [match ?e with JList _ => _ | _ => _ end] =>
        destruct e as [| | | | |[|first others]|]
    end; try (by intros [= <- <-]).
    all: destruct (str_is _ "object");
      [intros H; by destruct (_generate_object_body_spec _ _ _ _ _ _ _ _ _ Hrec H)
         as (? & ? & ? & ?)|];
      destruct (str_is _ "array");
      [intros ([w u1] & Hr & [= <- <-])%fbind_ok; by eapply Hrec|];
      intros (guess & _ & Hrest)%fbind_ok; revert Hrest;
      repeat (match goal with
              | |- context [if ?c then _ else _] => destruct c
              end); by intros [= <- <-].
Qed.

Lemma _generate_from_schema_fuel_grows (fuel : nat) :
  grows (_generate_from_schema_fuel lib amb fuel).
Proof.
  induction fuel as [|fuel IH]; [by intros ? ? ? ? ? ? ? ?|].
  cbn [_generate_from_schema_fuel]. by apply _generate_from_schema_body_grows.
Qed.

Lemma _generate_from_schema_grows :
  grows (fun s p pa u d f => Some (_generate_from_schema lib amb s p pa u d f)).
Proof.
  intros schema provided path unknowns depth field_name v unknowns' [= Hrun].
  destruct (_generate_from_schema_fuel_total lib amb (S (S MAX_DEPTH - depth)) depth
              ltac:(lia) schema provided path unknowns field_name) as [r Hr].
  rewrite (_generate_from_schema_of_fuel lib amb _ _ _ _ _ _ _ _ Hr) in Hrun. subst r.
  by eapply _generate_from_schema_fuel_grows.
Qed.

(** A generated object holds every required property that has a mapping
    for a schema, and a required property for which nothing was provided
    is reported under its path; what was already reported stays; and the
    object holds nothing but declared properties that are required or
    provided, and the discriminator. *)
Theorem generate_object_required_properties (schema provided : dict) (path : string)
    (unknowns : list string) (discriminator : option (string * json)) (depth : nat)
    (v : json) (unknowns' : list string) :
  _generate_object lib amb schema provided path unknowns discriminator depth
  = Ok (v, unknowns') ->
  exists output,
    v = JDict output
    /\ unknowns `prefix_of` unknowns'
    /\ (forall name, In name (object_required schema) ->
          is_dict (pyget name (object_properties schema)) = true ->
          dhas name output = true
          /\ (pyget name provided = JNull ->
              (path ++ "." ++ name)%string ∈ unknowns'))
    /\ (forall name, dhas name output = true ->
          (is_dict (pyget name (object_properties schema)) = true
           /\ (In name (object_required schema) \/ pyget name provided <> JNull))
          \/ exists value, discriminator = Some (name, value)).
Proof.
  unfold _generate_object. intros Hrun.
  destruct (_generate_object_body_total lib amb
              (fun s p pa u d f => Some (_generate_from_schema lib amb s p pa u d f))
              schema provided path unknowns discriminator depth) as [r Hr].
  { intros s p pa u f. by eexists. }
  rewrite Hr in Hrun. subst r.
  by apply (_generate_object_body_spec _ _ _ _ _ _ _ _ _ _generate_from_schema_grows Hr).
Qed.

End GeneratedObjects.

(** An object with the required properties [tag] and [name], of which only
    [name] is provided. *)
Lemma generate_object_required_properties_witness :
  let schema :=
    [("type", JStr "object");
     ("required", JList [JStr "tag"; JStr "name"]);
     ("properties", JDict [("tag", JDict [("type", JStr "string")]);
                           ("name", JDict [("type", JStr "string")])])] in
  exists v unknowns',
    Payloads._generate_object sample_library sample_ambient schema
      [("name", JStr "Rex")] "body" [] None 0
    = Ok (v, unknowns')
    /\ unknowns' = ["body.tag"]
    /\ exists output,
         v = JDict output /\ dhas "tag" output = true
         /\ "body.tag" ∈ unknowns'.
Proof.
  intros schema. do 2 eexists. split; [vm_compute; reflexivity|].
  split; [reflexivity|].
  destruct (generate_object_required_properties sample_library sample_ambient
              schema [("name", JStr "Rex")] "body" [] None 0 _ _
              ltac:(vm_compute; reflexivity))
    as (output & Hv & _ & Hrequired & _).
  exists output. split; [exact Hv|].
  destruct (Hrequired "tag") as [Hhas Hunknown];
    [left; reflexivity | reflexivity |].
  split; [exact Hhas | apply Hunknown; reflexivity].
Defined.

(** ** The generated payload *)
Section PayloadShape.
Import Resolve Payloads.
Context (lib : library) (amb : ambient).

Lemma dkeys_dset_has (k : string) (v : json) (d : dict) :
  dhas k d = true -> dkeys (dset k v d) = dkeys d.
Proof.
  induction d as [|[k' v'] d IH]; [done|]. cbn [dhas dset].
  destruct (String.eqb_spec k k') as [->|Hne]; [done|].
  intros Hd. unfold dkeys in *. cbn. by rewrite IH.
Qed.

Lemma dset_all_dicts (k : string) (v : dict) (d : dict) :
  Forall (fun kv => is_dict (snd kv) = true) d ->
  Forall (fun kv => is_dict (snd kv) = true) (dset k (JDict v) d).
Proof.
  induction 1 as [|[k' v'] d Hv Hd IH]; cbn [dset].
  - by repeat constructor.
  - destruct (String.eqb k k'); by constructor.
Qed.

Lemma parameters_loop_buckets (parameters : list json) (provided : dict) :
  forall buckets unknowns buckets' unknowns',
    parameters_loop lib amb parameters provided buckets unknowns = Ok (buckets', unknowns') ->
    Forall (fun kv => is_dict (snd kv) = true) buckets ->
    dkeys buckets' = dkeys buckets
    /\ Forall (fun kv => is_dict (snd kv) = true) buckets'
    /\ unknowns `prefix_of` unknowns'.
Proof.
  induction parameters as [|param rest IH]; intros buckets unknowns buckets' unknowns';
    cbn [parameters_loop].
  - by intros [= <- <-].
  - destruct param as [| | | | | |param]; try apply IH.
    destruct (pyget "name" param) as [| | | |name| |]; try apply IH.
    destruct (pyget "in" param) as [| | | |location| |]; try apply IH.
    destruct (dhas location buckets) eqn:Ehas; cbn [negb]; [|apply IH].
    destruct (pyget_default location (JDict []) provided) as [| | | | | |bucket0];
      try done.
    cbn [mbind result_bind].
    destruct (negb (truthy _) && negb (negb (is_none (pyget name bucket0))));
      [apply IH|].
    destruct (negb (is_none (pyget name bucket0))).
    + intros Hrun Hdicts. destruct (IH _ _ _ _ Hrun) as (H1 & H2 & H3).
      * by apply dset_all_dicts.
      * split; [|done]. by rewrite H1, dkeys_dset_has.
    + destruct (_placeholder_for_schema lib amb _ (Some name)) as [placeholder|e];
        [|done].
      cbn [mbind result_bind].
      intros Hrun Hdicts. destruct (IH _ _ _ _ Hrun) as (H1 & H2 & H3).
      * by apply dset_all_dicts.
      * split; [by rewrite H1, dkeys_dset_has|]. split; [done|].
        etrans; [|exact H3]. by apply prefix_app_r.
Qed.

Lemma sorted_set_strict (xs : list string) :
  ambient_ok amb ->
  Sorted (leb_rel String.leb) (sorted_set amb xs)
  /\ NoDup (sorted_set amb xs)
  /\ forall x, x ∈ sorted_set amb xs <-> x ∈ xs.
Proof.
  intros Hamb. unfold sorted_set, sorted_of_set, sorted_strings.
  split; [apply py_sorted_sorted, String.leb_total|]. split.
  - rewrite py_sorted_perm, (Hamb _). apply NoDup_elements.
  - intros x. rewrite py_sorted_elem_of, (Hamb _), elem_of_elements.
    apply elem_of_list_to_set.
Qed.

(** A generated payload has the keys [endpointId], [request] and
    [unknownRequiredFields]; the request repeats the method and path of the
    record; its parameters are the three mappings [path], [query] and
    [header], whatever the operation declares; and the unknown fields are
    listed in ascending order, each once. *)
Theorem build_payload_shape (endpoint_id : string) (record provided_fields : dict)
    (spec payload : json) :
  ambient_ok amb ->
  build_payload lib amb endpoint_id record provided_fields spec = Ok payload ->
  exists content_type params body unknowns,
    payload
    = JDict [("endpointId", JStr endpoint_id);
             ("request",
              JDict [("method", pyget "method" record);
                     ("path", pyget "path" record);
                     ("contentType", content_type);
                     ("parameters", JDict params);
                     ("body", body)]);
             ("unknownRequiredFields", JList (map JStr unknowns))]
    /\ dkeys params = ["path"; "query"; "header"]
    /\ Forall (fun kv => is_dict (snd kv) = true) params
    /\ Sorted (leb_rel String.leb) unknowns
    /\ NoDup unknowns.
Proof.
  intros Hamb. unfold build_payload.
  destruct (getitem "operation" record) as [operation|e]; [|done].
  cbn [mbind result_bind].
  destruct (_extract_request_body operation spec) as [request_body|e]; [|done].
  cbn [mbind result_bind].
  destruct (_build_parameters lib amb _ _) as [[params param_unknowns]|e] eqn:Eparams;
    [|done].
  cbn [mbind result_bind].
  destruct (_build_body lib amb _ _) as [[body body_unknowns]|e]; [|done].
  cbn [mbind result_bind fst snd].
  unfold getitem. destruct (dhas "method" record); [|done].
  destruct (dhas "path" record); [|done]. cbn [mbind result_bind].
  intros [= <-]. do 3 eexists.
  match goal with
  | |- context [map JStr ?u] => exists u
  end.
  split; [reflexivity|].
  assert (Hbuckets : dkeys params = ["path"; "query"; "header"]
                     /\ Forall (fun kv => is_dict (snd kv) = true) params).
  { unfold _build_parameters in Eparams.
    destruct (py_iter _) as [ps|e]; [|done]. cbn [mbind result_bind] in Eparams.
    destruct (parameters_loop_buckets _ _ _ _ _ _ Eparams) as (H1 & H2 & _);
      [by repeat constructor | done]. }
  destruct Hbuckets as [Hkeys Hdicts]. split; [done|]. split; [done|].
  destruct (_ && _).
  - destruct (sorted_set_strict
                (sorted_set amb (param_unknowns ++ body_unknowns) ++ ["body"]) Hamb)
      as (? & ? & _). done.
  - destruct (sorted_set_strict (param_unknowns ++ body_unknowns) Hamb) as (? & ? & _).
    done.
Qed.

End PayloadShape.

(** The payload of the operation that creates a pet, with nothing
    provided. *)
Lemma build_payload_shape_witness :
  let record :=
    [("method", JStr "post"); ("path", JStr "/pets"); ("operation", pets_operation)] in
  Payloads.ambient_ok sample_ambient
  /\ exists payload,
       Payloads.build_payload sample_library sample_ambient "pets:createPet" record []
         (JDict [("openapi", JStr "3.0.3")])
       = Ok payload
       /\ pyget "unknownRequiredFields" (match payload with JDict d => d | _ => [] end)
          = JList [JStr "body.name"; JStr "body.tag"]
       /\ exists content_type params body unknowns,
            payload
            = JDict [("endpointId", JStr "pets:createPet");
                     ("request",
                      JDict [("method", pyget "method" record);
                             ("path", pyget "path" record);
                             ("contentType", content_type);
                             ("parameters", JDict params);
                             ("body", body)]);
                     ("unknownRequiredFields", JList (map JStr unknowns))]
            /\ dkeys params = ["path"; "query"; "header"]
            /\ Forall (fun kv => is_dict (snd kv) = true) params
            /\ Sorted (leb_rel String.leb) unknowns
            /\ NoDup unknowns.
Proof.
  intros record.
  assert (Hamb : Payloads.ambient_ok sample_ambient) by (intros X; reflexivity).
  split; [exact Hamb|].
  eexists. split; [vm_compute; reflexivity|]. split; [reflexivity|].
  apply (build_payload_shape sample_library sample_ambient "pets:createPet" record []
           (JDict [("openapi", JStr "3.0.3")]) _ Hamb).
  vm_compute; reflexivity.
Defined.

(** ** Guessed leaf values *)
Section GuessedValues.
Import Payloads.
Context (lib : library) (amb : ambient).

(** A guessed value has the type the schema declares: a string for
    [string], an integer for [integer], a float for [number], [False] for
    [boolean], and no guess at all for anything else. *)
Theorem guess_value_of_declared_type (field_name : string) (schema : dict) (v : json) :
  _guess_value lib amb field_name schema = Ok v -> of_declared_type schema v.
Proof.
  unfold _guess_value, of_declared_type.
  destruct (str_is (pyget "type" schema) "string") eqn:Estring.
  - destruct (_faker_for_key lib amb field_name) as [faker|e]; [|done].
    cbn [mbind result_bind].
    repeat (match goal with
            | |- context [if ?c then _ else _] => destruct c
            | |- context [mbind ?r _] =>
                match r with
                | in_str_set _ _ => destruct r as [[]|?]; cbn [mbind result_bind]
                end
            | |- context [in_str_set ?a ?b] =>
                destruct (in_str_set a b) as [[]|?]; cbn [mbind result_bind]
            end; try done; try (by intros [= <-])).
  - destruct (str_is (pyget "type" schema) "integer") eqn:Einteger.
    + repeat (match goal with
              | |- context [if ?c then _ else _] => destruct c
              end; try (by intros [= <-])).
    + destruct (str_is (pyget "type" schema) "number") eqn:Enumber.
      * destruct (existsb _ _); by intros [= <-].
      * destruct (str_is (pyget "type" schema) "boolean") eqn:Eboolean;
          by intros [= <-].
Qed.

End GuessedValues.

(** An integer with a minimum is guessed as an integer. *)
Lemma guess_value_of_declared_type_witness :
  exists v,
    Payloads._guess_value sample_library sample_ambient "age"
      [("type", JStr "integer"); ("minimum", JInt 18)]
    = Ok v
    /\ of_declared_type [("type", JStr "integer"); ("minimum", JInt 18)] v.
Proof.
  eexists. split; [vm_compute; reflexivity|].
  apply (guess_value_of_declared_type sample_library sample_ambient "age").
  vm_compute; reflexivity.
Defined.

(** ** Rendering: mappings in key order *)
Section SortedDict.
Import Render.

Lemma sorted_dict_dict (d : dict) :
  _sorted_dict (JDict d)
  = JDict (map (fun k => (k, pyget k (map (fun kv => (fst kv, _sorted_dict (snd kv))) d)))
             (sorted_strings (dkeys d))).
Proof.
  cbn [_sorted_dict]. do 2 f_equal. apply functional_extensionality. intros k. do 2 f_equal.
  induction d as [|[k' v] d IH]; [done|]. cbn [map fst snd]. by rewrite IH.
Qed.

Lemma pyget_members (f : json -> json) (k : string) (d : dict) :
  f JNull = JNull ->
  pyget k (map (fun kv => (fst kv, f (snd kv))) d) = f (pyget k d).
Proof.
  intros Hf. induction d as [|[k' v] d IH]; [done|]. cbn [map pyget fst snd].
  by destruct (String.eqb k k').
Qed.

Lemma pyget_keys (g : string -> json) (k : string) (keys : list string) :
  pyget k (map (fun k' => (k', g k')) keys) = if bool_decide (k ∈ keys) then g k else JNull.
Proof.
  induction keys as [|k' keys IH]; [done|]. cbn [map pyget].
  destruct (String.eqb_spec k k') as [->|Hne].
  - rewrite bool_decide_true; [done | by left].
  - rewrite IH. destruct (bool_decide (k ∈ keys)) eqn:E.
    + apply bool_decide_eq_true in E. rewrite bool_decide_true; [done | by right].
    + apply bool_decide_eq_false in E. rewrite bool_decide_false; [done|].
      by intros [?|?]%elem_of_cons.
Qed.

Lemma dhas_keys (g : string -> json) (k : string) (keys : list string) :
  dhas k (map (fun k' => (k', g k')) keys) = bool_decide (k ∈ keys).
Proof.
  induction keys as [|k' keys IH]; [done|]. cbn [map dhas].
  destruct (String.eqb_spec k k') as [->|Hne].
  - rewrite bool_decide_true; [done | by left].
  - rewrite IH. apply bool_decide_ext. rewrite elem_of_cons. naive_solver.
Qed.

Lemma dkeys_elem_of (k : string) (d : dict) : k ∈ dkeys d <-> dhas k d = true.
Proof. rewrite list_elem_of_In. apply dkeys_In. Qed.

Lemma sorted_keys_elem_of (k : string) (d : dict) :
  k ∈ sorted_strings (dkeys d) <-> dhas k d = true.
Proof. unfold sorted_strings. by rewrite py_sorted_elem_of, dkeys_elem_of. Qed.

(** The members of a mapping are those of the original, each put in order. *)
Lemma sorted_dict_members (d : dict) (k : string) :
  exists d', _sorted_dict (JDict d) = JDict d'
             /\ dhas k d' = dhas k d
             /\ pyget k d' = _sorted_dict (pyget k d).
Proof.
  eexists. split; [apply sorted_dict_dict|]. split.
  - rewrite dhas_keys. destruct (dhas k d) eqn:E.
    + apply bool_decide_eq_true. by apply sorted_keys_elem_of.
    + apply bool_decide_eq_false. rewrite sorted_keys_elem_of. congruence.
  - rewrite pyget_keys, (pyget_members _sorted_dict) by done.
    case_bool_decide as Hin; [done|].
    rewrite sorted_keys_elem_of in Hin. apply not_true_is_false in Hin.
    by rewrite (dhas_false_pyget _ _ Hin).
Qed.

Lemma py_sorted_of_sorted {A} (leb : A -> A -> bool) (l : list A) :
  Sorted (leb_rel leb) l -> py_sorted leb l = l.
Proof.
  induction 1 as [|x l Hs IH Hhd]; [done|]. cbn [py_sorted fold_right].
  fold (py_sorted leb l). rewrite IH.
  destruct Hhd as [|y l' Hxy]; [done|]. cbn [insert_sorted].
  unfold leb_rel in Hxy. by rewrite Hxy.
Qed.

Lemma string_ltb_leb (a b : string) : String.ltb a b = true -> String.leb a b = true.
Proof. rewrite string_ltb_compare, string_leb_compare. congruence. Qed.

Lemma string_ltb_irrefl (a : string) : String.ltb a a = false.
Proof. unfold String.ltb. by rewrite string_compare_refl. Qed.

Lemma string_ltb_trans (a b c : string) :
  String.ltb a b = true -> String.ltb b c = true -> String.ltb a c = true.
Proof. rewrite !string_ltb_compare. apply string_compare_lt_trans. Qed.

Lemma ascending_spec (l : list string) :
  ascending l = true <-> Sorted (leb_rel String.leb) l /\ NoDup l.
Proof.
  induction l as [|x l IH]; [split; [split; constructor | done]|].
  destruct l as [|y l].
  - split; [|done]. intros _. split; [repeat constructor | apply NoDup_singleton].
  - change (ascending (x :: y :: l)) with (String.ltb x y && ascending (y :: l)).
    rewrite andb_true_iff, IH. split.
    + intros [Hxy [Hs Hnd]]. split.
      * constructor; [done|]. constructor. by apply string_ltb_leb.
      * apply NoDup_cons. split; [|done]. intros Hin.
        assert (Hall : Forall (fun z => String.leb y z = true) (y :: l)).
        { apply Sorted_StronglySorted in Hs; [|intros a b c; apply string_leb_trans].
          inversion Hs as [|? ? _ Hall]; subst. constructor; [|done].
          apply string_leb_compare. by rewrite string_compare_refl. }
        rewrite Forall_forall in Hall. specialize (Hall _ Hin).
        apply string_ltb_compare in Hxy. apply string_leb_compare in Hall.
        by apply string_compare_gt_lt in Hxy.
    + intros [Hs Hnd]. inversion Hs as [|? ? Hs' Hhd]; subst.
      apply NoDup_cons in Hnd as [Hx Hnd]. split; [|by split].
      inversion Hhd as [|? ? Hxy]; subst. unfold leb_rel in Hxy.
      apply string_ltb_compare. apply string_leb_compare in Hxy.
      destruct (String.compare x y) eqn:E; try done.
      apply string_compare_eq in E as ->. exfalso. apply Hx. by left.
Qed.

Lemma dict_of_keys (d : dict) :
  NoDup (dkeys d) -> map (fun k => (k, pyget k d)) (dkeys d) = d.
Proof.
  induction d as [|[k v] d IH]; [done|]. unfold dkeys in *. cbn [map fst].
  intros [Hk Hd]%NoDup_cons. cbn [pyget]. rewrite String.eqb_refl. f_equal.
  rewrite <- (IH Hd) at 2. apply map_ext_in. intros k' Hin%list_elem_of_In.
  destruct (String.eqb_spec k' k) as [->|Hne]; [done|]. done.
Qed.

Lemma members_dkeys (d : dict) :
  dkeys (map (fun kv => (fst kv, _sorted_dict (snd kv))) d) = dkeys d.
Proof. unfold dkeys. rewrite map_map. done. Qed.

Lemma sorted_dict_canonical_fixed (v : json) :
  canonical v = true -> _sorted_dict v = v.
Proof.
  induction v using json_ind; try done.
  - cbn [canonical _sorted_dict]. intros Hl. f_equal.
    induction H as [|x l Hx Hrest IH]; [done|]. cbn in Hl.
    apply andb_true_iff in Hl as [H1 H2]. cbn. by rewrite Hx, IH.
  - cbn [canonical]. intros [Hkeys Hvals]%andb_true_iff.
    rewrite sorted_dict_dict. f_equal.
    assert (Hmembers : map (fun kv => (fst kv, _sorted_dict (snd kv))) d = d).
    { clear Hkeys. induction H as [|[k x] d Hx Hrest IH]; [done|]. cbn in Hvals.
      apply andb_true_iff in Hvals as [H1 H2]. cbn. cbn in Hx. by rewrite Hx, IH. }
    rewrite Hmembers. apply ascending_spec in Hkeys as [Hs Hnd].
    unfold sorted_strings. rewrite (py_sorted_of_sorted _ _ Hs). by apply dict_of_keys.
Qed.

Lemma sorted_dict_canonical (v : json) :
  distinct_keys v = true -> canonical (_sorted_dict v) = true.
Proof.
  induction v using json_ind; try done.
  - cbn [distinct_keys _sorted_dict canonical]. intros Hl.
    rewrite forallb_forall in Hl |- *. intros x (y & <- & Hy)%in_map_iff.
    rewrite List.Forall_forall in H. apply H; [done | by apply Hl].
  - cbn [distinct_keys]. intros [Hnd Hvals]%andb_true_iff.
    apply bool_decide_eq_true in Hnd. rewrite forallb_forall in Hvals.
    rewrite sorted_dict_dict. cbn [canonical]. apply andb_true_iff. split.
    + unfold dkeys at 1. rewrite map_map. cbn [fst]. rewrite map_id.
      apply ascending_spec. unfold sorted_strings. split.
      * apply py_sorted_sorted, String.leb_total.
      * by rewrite py_sorted_perm.
    + rewrite forallb_forall. intros kv (k & <- & Hk)%in_map_iff. cbn [snd].
      rewrite (pyget_members _sorted_dict) by done.
      apply list_elem_of_In, sorted_keys_elem_of in Hk.
      destruct (pyget_item k d) as [Hnull|Hin]; [by rewrite Hnull|].
      apply list_elem_of_In in Hin. rewrite List.Forall_forall in H.
      apply (H _ Hin). by apply (Hvals _ Hin).
Qed.

(** Rendering puts a value in canonical form: once its mappings have
    distinct keys, the result lists the keys of every mapping in strictly
    ascending order and rendering it again changes nothing; a value
    already in that form is left as it is. *)
Theorem sorted_dict_canonical_form (value : json) :
  (distinct_keys value = true ->
     canonical (_sorted_dict value) = true
     /\ _sorted_dict (_sorted_dict value) = _sorted_dict value)
  /\ (canonical value = true -> _sorted_dict value = value).
Proof.
  split; [|apply sorted_dict_canonical_fixed].
  intros Hd. split; [by apply sorted_dict_canonical|].
  by apply sorted_dict_canonical_fixed, sorted_dict_canonical.
Qed.

Lemma pyget_perm (k : string) (d1 d2 : dict) :
  d1 ≡ₚ d2 -> NoDup (dkeys d1) -> pyget k d1 = pyget k d2.
Proof.
  unfold dkeys. induction 1 as [|[k' v] d1 d2 Hp IH|[k1 v1] [k2 v2] d|d1 d2 d3 H12 IH12 H23 IH23].
  - done.
  - cbn [map fst]. intros [_ Hnd]%NoDup_cons. cbn [pyget]. by rewrite IH.
  - cbn [map fst]. intros [Hne _]%NoDup_cons. cbn [pyget].
    destruct (String.eqb_spec k k1) as [E1|?], (String.eqb_spec k k2) as [E2|?]; try done.
    exfalso. apply Hne. subst. by left.
  - intros Hnd. rewrite IH12 by done. apply IH23. by rewrite <- H12.
Qed.

(** Rendering keeps the members of a mapping, each rendered in turn, and
    forgets the order in which the mapping listed them. *)
Theorem sorted_dict_keeps_members (d : dict) :
  (forall k,
     exists d', _sorted_dict (JDict d) = JDict d'
                /\ dhas k d' = dhas k d
                /\ pyget k d' = _sorted_dict (pyget k d))
  /\ (forall d2, d ≡ₚ d2 -> NoDup (dkeys d) ->
        _sorted_dict (JDict d) = _sorted_dict (JDict d2)).
Proof.
  split; [intros k; apply sorted_dict_members|].
  intros d2 Hperm Hnd. rewrite !sorted_dict_dict. f_equal.
  assert (Hkeys : dkeys d ≡ₚ dkeys d2) by (unfold dkeys; by rewrite Hperm).
  rewrite (sorted_strings_perm _ _ Hkeys).
  apply map_ext. intros k. f_equal.
  apply pyget_perm; [by rewrite Hperm | by rewrite members_dkeys].
Qed.

End SortedDict.

(** ** Contracts *)
Section Contract.
Import Resolve Model Render.

Lemma string_ltb_leb_ne (a b : string) : a <> b -> String.ltb a b = String.leb a b.
Proof.
  intros Hne. unfold String.ltb, String.leb.
  destruct (String.compare a b) eqn:E; try done.
  by apply string_compare_eq in E.
Qed.

Lemma py_lt_pair (a b : string * string) :
  py_lt (JList [JStr (fst a); JStr (snd a)]) (JList [JStr (fst b); JStr (snd b)])
  = Ok (negb (pair_leb b a)).
Proof.
  destruct a as [a1 a2], b as [b1 b2]. unfold pair_leb. cbn [py_lt py_eq fst snd].
  rewrite (String.eqb_sym b1 a1).
  destruct (String.eqb_spec a1 b1) as [->|Hne].
  - rewrite string_ltb_irrefl. cbn [orb andb].
    rewrite string_leb_ltb, negb_involutive.
    destruct (String.eqb_spec a2 b2) as [->|_]; [by rewrite string_ltb_irrefl | done].
  - rewrite orb_false_r. rewrite (string_ltb_leb_ne _ _ Hne), string_leb_ltb. done.
Qed.

Lemma or_empty_text (x : json) : text_or_falsy x = true -> or_empty x = JStr (text_of x).
Proof.
  unfold or_empty, text_or_falsy, text_of.
  destruct x as [|b|z|q|s|l|d]; try (intros H%negb_true_iff; by rewrite H).
  intros _. destruct (truthy (JStr s)) eqn:E; [done|].
  destruct s; [done | discriminate].
Qed.

Lemma contract_order_key (param : dict) :
  plainly_keyed param = true ->
  contract_parameter_key (contract_parameter param)
  = JList [JStr (fst (contract_order (contract_parameter param)));
           JStr (snd (contract_order (contract_parameter param)))].
Proof.
  intros [Hin Hname]%andb_true_iff.
  unfold contract_parameter_key, contract_order. cbn [fst snd].
  change (pyget "in" (contract_parameter param)) with (pyget "in" param).
  change (pyget "name" (contract_parameter param)) with (pyget "name" param).
  by rewrite !or_empty_text.
Qed.

Lemma insert_by_key_ordered {A} (key : A -> json) (ord : A -> string * string)
    (x : A) (l : list A) :
  key x = JList [JStr (fst (ord x)); JStr (snd (ord x))] ->
  Forall (fun y => key y = JList [JStr (fst (ord y)); JStr (snd (ord y))]) l ->
  insert_by_key key x l
  = Ok (insert_sorted (fun a b => pair_leb (ord a) (ord b)) x l).
Proof.
  intros Hx. induction 1 as [|y rest Hy _ IHrest]; [done|].
  cbn [insert_by_key insert_sorted]. rewrite Hx, Hy, py_lt_pair.
  cbn [mbind result_bind].
  destruct (pair_leb (ord x) (ord y)); cbn [negb]; [done|].
  by rewrite IHrest.
Qed.

(** On keys that are pairs of strings [sorted_by_key] never raises and is
    the plain sort by the pairs. *)
Lemma sorted_by_key_ordered {A} (key : A -> json) (ord : A -> string * string)
    (l : list A) :
  Forall (fun x => key x = JList [JStr (fst (ord x)); JStr (snd (ord x))]) l ->
  sorted_by_key key l = Ok (py_sorted (fun a b => pair_leb (ord a) (ord b)) l).
Proof.
  induction 1 as [|x l Hx Hl IH]; [done|].
  cbn [sorted_by_key py_sorted fold_right]. rewrite IH. cbn [mbind result_bind].
  fold (py_sorted (fun a b => pair_leb (ord a) (ord b)) l).
  apply insert_by_key_ordered; [done|].
  rewrite Forall_forall in Hl |- *. intros y Hy. apply Hl.
  by apply py_sorted_elem_of in Hy.
Qed.

Lemma contract_parameters_of (operation : Operation) :
  omap (fun param => match param with
                     | JDict p => Some (contract_parameter p)
                     | _ => None
                     end)
    match pyget "parameters"
            match Model.operation operation with JDict d => d | _ => [] end with
    | JList l => l
    | _ => []
    end
  = map contract_parameter (declared_parameters (Model.operation operation)).
Proof.
  unfold declared_parameters.
  destruct (Model.operation operation) as [| | | | | |op]; try done.
  destruct (pyget "parameters" op) as [| | | | |params|]; try done.
  induction params as [|param params IH]; [done|].
  destruct param; cbn; try done. by rewrite <- IH.
Qed.

(** The contract of an operation whose parameters are keyed by strings:
    its parameters are the declared mapping parameters in the stable order
    of [(in, name)]; the summary form never fails, reads nothing of the
    specification and leaves out the request body and the responses; the
    full form has the same eleven keys, with the request body and the
    responses resolved and rendered, or [None] where the operation has no
    such mapping. *)
Theorem render_contract_shape (operation : Operation) (spec : json) :
  let op := match Model.operation operation with JDict d => d | _ => [] end in
  let declared := declared_parameters (Model.operation operation) in
  let parameters :=
    py_sorted (fun a b => pair_leb (contract_order a) (contract_order b))
      (map contract_parameter declared) in
  let contract_of request_body responses :=
    JDict [("endpointId", JStr (op_key operation));
           ("specId", JStr (spec_id operation));
           ("operationId", operation_id operation);
           ("method", JStr (method operation));
           ("path", JStr (path operation));
           ("summary", summary operation);
           ("description", description operation);
           ("tags", JList (map JStr (tags operation)));
           ("parameters", JList (map JDict parameters));
           ("requestBody", request_body);
           ("responses", responses)] in
  let rendered member v :=
    (truthy member = false /\ v = JNull)
    \/ (is_dict member = false /\ v = JNull)
    \/ exists resolved,
         is_dict member = true /\ deep_resolve_refs member spec = Ok resolved
         /\ v = if truthy resolved then _sorted_dict resolved else JNull in
  Forall (fun p => plainly_keyed p = true) declared ->
  render_contract operation spec false = Ok (contract_of JNull JNull)
  /\ (forall contract,
        render_contract operation spec true = Ok contract ->
        exists request_body responses,
          contract = contract_of request_body responses
          /\ rendered (pyget "requestBody" op) request_body
          /\ rendered (pyget "responses" op) responses)
  /\ Sorted (leb_rel (fun a b => pair_leb (contract_order a) (contract_order b)))
       parameters
  /\ parameters ≡ₚ map contract_parameter declared.
Proof.
  intros op declared parameters contract_of rendered Hkeys.
  assert (Hsort : sorted_by_key contract_parameter_key (map contract_parameter declared)
                  = Ok parameters).
  { apply sorted_by_key_ordered. apply Forall_forall.
    intros item (p & -> & Hp)%list_elem_of_fmap. apply contract_order_key.
    rewrite Forall_forall in Hkeys. by apply Hkeys. }
  split; [|split; [|split]].
  - unfold render_contract. rewrite contract_parameters_of.
    fold declared. rewrite Hsort. done.
  - intros contract. unfold render_contract. rewrite contract_parameters_of.
    fold declared op. rewrite Hsort. cbn [mbind result_bind].
    assert (Hmember : forall member,
              match (if truthy (if is_dict member then member else JNull)
                     then deep_resolve_refs (if is_dict member then member else JNull) spec
                     else Ok (if is_dict member then member else JNull)) with
              | Ok v => rendered member (if truthy v then _sorted_dict v else JNull)
              | Raise _ => True
              end).
    { intros member. destruct (is_dict member) eqn:Edict.
      - destruct (truthy member) eqn:Etruthy.
        + destruct (deep_resolve_refs member spec) as [resolved|e] eqn:Eres; [|done].
          right; right. by exists resolved.
        + left. by rewrite Etruthy.
      - right; left. done. }
    pose proof (Hmember (pyget "requestBody" op)) as Hbody.
    pose proof (Hmember (pyget "responses" op)) as Hresponses.
    destruct (if truthy (if is_dict (pyget "requestBody" op) then _ else _) then _ else _)
      as [request_body|e]; [|done].
    cbn [mbind result_bind].
    destruct (if truthy (if is_dict (pyget "responses" op) then _ else _) then _ else _)
      as [responses|e]; [|done].
    cbn [mbind result_bind]. intros [= <-]. by do 2 eexists.
  - apply (py_sorted_sorted (fun a b => pair_leb (contract_order a) (contract_order b))).
    intros a b. apply pair_leb_total.
  - apply py_sorted_perm.
Qed.

End Contract.

(** The contract of [getPet]: header, path and query parameter in that
    order. *)
Lemma render_contract_shape_witness :
  Forall (fun p => plainly_keyed p = true)
    (declared_parameters (Model.operation get_pet))
  /\ exists contract,
       Render.render_contract get_pet pets_spec false = Ok contract
       /\ pyget "parameters" match contract with JDict d => d | _ => [] end
          = JList [JDict [("name", JStr "trace"); ("in", JStr "header");
                          ("required", JBool true); ("description", JNull);
                          ("schema", JNull)];
                   JDict [("name", JStr "id"); ("in", JStr "path");
                          ("required", JBool true); ("description", JNull);
                          ("schema", JNull)];
                   JDict [("name", JStr "fields"); ("in", JStr "query");
                          ("required", JBool false); ("description", JNull);
                          ("schema", JNull)]].
Proof.
  assert (Hkeys : Forall (fun p => plainly_keyed p = true)
                    (declared_parameters (Model.operation get_pet)))
    by (repeat constructor).
  split; [exact Hkeys|].
  eexists. split; [exact (proj1 (render_contract_shape get_pet pets_spec Hkeys))|].
  reflexivity.
Defined.

(** ** The schemas of a specification *)
Section ExtractSchemas.
Import Model Schemas.

Lemma StronglySorted_omap {A B} (R : A -> A -> Prop) (R' : B -> B -> Prop)
    (f : A -> option B) (l : list A) :
  (forall x y x' y', f x = Some x' -> f y = Some y' -> R x y -> R' x' y') ->
  StronglySorted R l -> StronglySorted R' (omap f l).
Proof.
  intros Hf. induction 1 as [|x l Hl IH Hx]; [constructor|].
  cbn. destruct (f x) as [x'|] eqn:Ex; [|done].
  constructor; [done|].
  apply Forall_forall. intros y' (y & Hy & Ey)%list_elem_of_omap.
  rewrite Forall_forall in Hx. by apply (Hf x y x' y' Ex Ey), Hx.
Qed.

Lemma map_omap {A B C} (g : B -> C) (f : A -> option B) (l : list A) :
  map g (omap f l) = omap (fun x => g <$> f x) l.
Proof.
  induction l as [|x l IH]; [done|]. cbn. destruct (f x); cbn; by rewrite ?IH.
Qed.

(** The schemas extracted from a specification come in the order of
    their names, each one a mapping found under [components.schemas], with
    the [description] of that mapping; and every mapping found there gives
    a schema. *)
Theorem extract_schemas_sorted_and_complete (sid : string) (spec : json) :
  let schemas := _extract_schemas sid spec in
  Sorted (leb_rel String.leb) (map schema_name schemas)
  /\ (forall s, s ∈ schemas ->
        schema_spec_id s = sid
        /\ exists doc components block d,
             spec = JDict doc /\ pyget "components" doc = JDict components
             /\ pyget "schemas" components = JDict block
             /\ (schema_name s, JDict d) ∈ block
             /\ schema s = JDict d
             /\ schema_description s = pyget "description" d)
  /\ (forall doc components block name d,
        spec = JDict doc -> pyget "components" doc = JDict components ->
        pyget "schemas" components = JDict block -> (name, JDict d) ∈ block ->
        exists s, s ∈ schemas /\ schema_name s = name /\ schema s = JDict d).
Proof.
  intros schemas. subst schemas. unfold _extract_schemas.
  assert (Hnone : forall l : list Schema, l = [] ->
            Sorted (leb_rel String.leb) (map schema_name l)
            /\ (forall s, s ∈ l -> False)).
  { intros l ->. split; [constructor | intros s Hs; by apply elem_of_nil in Hs]. }
  destruct spec as [| | | | | |doc];
    try (cbn; destruct (Hnone [] eq_refl) as [H1 H2]; split; [exact H1|];
         split; [intros x Hx; destruct (H2 x Hx) | done]).
  destruct (pyget "components" doc) as [| | | | | |components] eqn:Ecomponents;
    try (cbn; destruct (Hnone [] eq_refl) as [H1 H2]; split; [exact H1|];
         split; [intros x Hx; destruct (H2 x Hx) | intros; congruence]).
  destruct (pyget "schemas" components) as [| | | | | |block] eqn:Eblock;
    try (cbn; destruct (Hnone [] eq_refl) as [H1 H2]; split; [exact H1|];
         split; [intros x Hx; destruct (H2 x Hx) | intros; congruence]).
  set (entry := fun item : string * json =>
                  match snd item with
                  | JDict schema =>
                      Some {| schema_spec_id := sid; schema_name := fst item;
                              schema_description := pyget "description" schema;
                              schema := JDict schema |}
                  | _ => None
                  end).
  assert (Hentry : forall item s, entry item = Some s ->
            schema_spec_id s = sid /\ schema_name s = fst item
            /\ exists d, snd item = JDict d /\ schema s = JDict d
                         /\ schema_description s = pyget "description" d).
  { intros [name value] s. unfold entry. cbn [fst snd].
    destruct value; try done. intros [= <-]. cbn.
    split; [done|]. split; [done|]. eexists. by repeat split. }
  split; [|split].
  - apply StronglySorted_Sorted.
    assert (Hitems : StronglySorted (fun a b : string * json => String.leb (fst a) (fst b) = true)
                       (Engine.sorted_items block)).
    { apply Sorted_StronglySorted.
      - intros a b c. apply string_leb_trans.
      - apply (py_sorted_sorted (fun a b : string * json => String.leb (fst a) (fst b))).
        intros a b. apply String.leb_total. }
    rewrite map_omap.
    apply (StronglySorted_omap
             (fun a b : string * json => String.leb (fst a) (fst b) = true)); [|done].
    intros x y x' y' Hx Hy Hle.
    destruct (entry x) as [sx|] eqn:Ex, (entry y) as [sy|] eqn:Ey; try done.
    cbn in Hx, Hy. injection Hx as <-. injection Hy as <-.
    destruct (Hentry _ _ Ex) as (_ & -> & _), (Hentry _ _ Ey) as (_ & -> & _). done.
  - intros s (item & Hitem & Hs)%list_elem_of_omap.
    destruct (Hentry _ _ Hs) as (Hsid & Hname & d & Hd & Hschema & Hdesc).
    split; [done|]. exists doc, components, block, d. repeat split; try done.
    apply py_sorted_elem_of in Hitem. destruct item as [name value].
    cbn [fst snd] in *. by subst.
  - intros doc' components' block' name d [= <-] Hc Hb Hin.
    rewrite Ecomponents in Hc. injection Hc as <-.
    rewrite Eblock in Hb. injection Hb as <-.
    exists {| schema_spec_id := sid; schema_name := name;
              schema_description := pyget "description" d; schema := JDict d |}.
    split; [|done]. apply list_elem_of_omap. exists (name, JDict d).
    split; [by apply py_sorted_elem_of | done].
Qed.

End ExtractSchemas.

(** ** The watch loop's comparison of fingerprints *)
Section FingerprintsChanged.
Import Ingest Server.

Lemma map_insert_sorted {A B} (f : A -> B) (leb : B -> B -> bool) (x : A) (l : list A) :
  map f (insert_sorted (fun a b => leb (f a) (f b)) x l)
  = insert_sorted leb (f x) (map f l).
Proof.
  induction l as [|y l IH]; [done|]. cbn [insert_sorted map].
  destruct (leb (f x) (f y)); [done|]. cbn [map]. by rewrite IH.
Qed.

Lemma map_py_sorted {A B} (f : A -> B) (leb : B -> B -> bool) (l : list A) :
  map f (py_sorted (fun a b => leb (f a) (f b)) l) = py_sorted leb (map f l).
Proof.
  induction l as [|x l IH]; [done|]. cbn [py_sorted fold_right map].
  fold (py_sorted (fun a b => leb (f a) (f b)) l). fold (py_sorted leb (map f l)).
  by rewrite map_insert_sorted, IH.
Qed.

Lemma changed_zip_spec (prev current : list SpecFingerprint) :
  length prev = length current ->
  changed_zip prev current = false <-> Forall2 same_stat prev current.
Proof.
  revert current. induction prev as [|a prev IH]; intros [|b current] Hlen;
    try discriminate.
  - split; [constructor | done].
  - injection Hlen as Hlen. cbn [changed_zip].
    destruct (String.eqb_spec (fp_relative_path a) (fp_relative_path b)) as [Hrel|Hrel];
      cbn [negb].
    + destruct (Z.eqb_spec (fp_size a) (fp_size b)) as [Hsize|Hsize]; cbn [negb orb].
      * destruct (Qeq_bool (fp_mtime a) (fp_mtime b)) eqn:Hmtime; cbn [negb].
        -- rewrite (IH _ Hlen). split.
           ++ intros Hrest. constructor; [|done].
              repeat split; try done. by apply Qeq_bool_iff.
           ++ by inversion 1.
        -- split; [done|]. inversion 1 as [|? ? ? ? (_ & _ & Hq) _]; subst.
           apply Qeq_bool_iff in Hq. congruence.
      * split; [done|]. inversion 1 as [|? ? ? ? (_ & ? & _) _]; subst. done.
    + split; [done|]. inversion 1 as [|? ? ? ? (? & _) _]; subst. done.
Qed.

Lemma Forall2_partner {A B} (P : A -> B -> Prop) (l : list A) (k : list B) (x : A) :
  Forall2 P l k -> x ∈ l -> exists y, y ∈ k /\ P x y.
Proof.
  induction 1 as [|a b l k Hab _ IH]; [by intros ?%elem_of_nil|].
  intros [->|Hin]%elem_of_cons.
  - exists b. split; [by left | done].
  - destruct (IH Hin) as (y & ? & ?). exists y. split; [by right | done].
Qed.

Lemma aligned_same_stat (prev current : list SpecFingerprint) :
  map fp_relative_path prev = map fp_relative_path current ->
  NoDup (map fp_relative_path current) ->
  (forall a, a ∈ prev -> exists b, b ∈ current /\ same_stat a b) ->
  Forall2 same_stat prev current.
Proof.
  revert current. induction prev as [|a prev IH]; intros [|c current] Hpaths Hnd Hall;
    try discriminate; [constructor|].
  cbn [map] in Hpaths, Hnd. injection Hpaths as Hhead Hpaths.
  apply NoDup_cons in Hnd as [Hfresh Hnd].
  constructor.
  - destruct (Hall a) as (b & Hb & Hsame); [by left|].
    apply elem_of_cons in Hb as [->|Hb]; [done|].
    exfalso. apply Hfresh. destruct Hsame as (Hrel & _).
    rewrite <- Hhead, Hrel. apply list_elem_of_fmap. by exists b.
  - apply IH; [done | done |]. intros a' Ha'.
    destruct (Hall a') as (b & Hb & Hsame); [by right|].
    apply elem_of_cons in Hb as [->|Hb]; [|by exists b].
    exfalso. apply Hfresh. destruct Hsame as (Hrel & _).
    rewrite <- Hrel, <- Hpaths. apply list_elem_of_fmap. by exists a'.
Qed.

(** The watch loop sees no change exactly when the two scans hold the
    same files in the same state: as many fingerprints, and for each one of
    the earlier scan one of the later scan with the same relative path,
    size and modification time, in whatever order the scans list them; the
    absolute path plays no part.  A scan never differs from itself. *)
Theorem fingerprints_changed_by_content (prev current : list SpecFingerprint) :
  NoDup (map fp_relative_path prev) ->
  NoDup (map fp_relative_path current) ->
  (_fingerprints_changed prev current = false
   <-> length prev = length current
       /\ forall a, a ∈ prev -> exists b, b ∈ current /\ same_stat a b)
  /\ _fingerprints_changed prev prev = false.
Proof.
  intros Hprev Hcurrent.
  pose (leb := fun a b => String.leb (fp_relative_path a) (fp_relative_path b)).
  assert (Hlen : forall l, length (py_sorted leb l) = length l)
    by (intros l; apply Permutation_length, py_sorted_perm).
  assert (Hiff : forall l k,
            NoDup (map fp_relative_path l) -> NoDup (map fp_relative_path k) ->
            _fingerprints_changed l k = false
            <-> length l = length k
                /\ forall a, a ∈ l -> exists b, b ∈ k /\ same_stat a b).
  { clear prev current Hprev Hcurrent. intros prev current Hprev Hcurrent.
    unfold _fingerprints_changed. fold leb.
    destruct (Nat.eqb_spec (length prev) (length current)) as [Hsame|Hdiff];
      cbn [negb]; [|split; [done | by intros [? _]]].
    rewrite changed_zip_spec by (by rewrite !Hlen).
    split.
    - intros Hzip. split; [done|]. intros a Ha.
      apply (proj2 (py_sorted_elem_of leb a prev)) in Ha.
      destruct (Forall2_partner _ _ _ _ Hzip Ha) as (b & Hb & ?).
      apply (proj1 (py_sorted_elem_of leb b current)) in Hb. by exists b.
    - intros [_ Hall]. apply aligned_same_stat.
      + unfold leb. rewrite !(map_py_sorted fp_relative_path String.leb).
        apply sorted_strings_perm.
        apply submseteq_length_Permutation; [|by rewrite !length_map, Hsame].
        apply NoDup_submseteq; [done|].
        intros rel (a & -> & Ha)%list_elem_of_fmap.
        destruct (Hall a Ha) as (b & Hb & Hrel & _). rewrite Hrel.
        apply list_elem_of_fmap. by exists b.
      + unfold leb. rewrite (map_py_sorted fp_relative_path String.leb).
        by rewrite (py_sorted_perm String.leb).
      + intros a Ha. apply (proj1 (py_sorted_elem_of leb a prev)) in Ha.
        destruct (Hall a Ha) as (b & Hb & ?).
        exists b. split; [by apply (proj2 (py_sorted_elem_of leb b current)) | done]. }
  split; [by apply Hiff|].
  apply Hiff; [done | done |]. split; [done|].
  intros a Ha. exists a. split; [done|].
  split; [done|]. split; [done|]. apply Qeq_refl.
Qed.

End FingerprintsChanged.

(** Two scans of the same two files, listed in different orders and under
    different absolute paths. *)
Lemma fingerprints_changed_by_content_witness :
  let a := {| Ingest.fp_path := "/srv/specs/a.json"; Ingest.fp_relative_path := "a.json";
              Ingest.fp_size := 120; Ingest.fp_mtime := 3 # 2 |} in
  let b := {| Ingest.fp_path := "/srv/specs/b.json"; Ingest.fp_relative_path := "b.json";
              Ingest.fp_size := 80; Ingest.fp_mtime := 5 # 1 |} in
  let a' := {| Ingest.fp_path := "specs/a.json"; Ingest.fp_relative_path := "a.json";
               Ingest.fp_size := 120; Ingest.fp_mtime := 6 # 4 |} in
  Server._fingerprints_changed [b; a] [a'; b] = false
  /\ (Server._fingerprints_changed [b; a] [a'; b] = false
      <-> length [b; a] = length [a'; b]
          /\ forall x, x ∈ [b; a] -> exists y, y ∈ [a'; b] /\ same_stat x y).
Proof.
  intros a b a'. split; [reflexivity|].
  refine (proj1 (fingerprints_changed_by_content [b; a] [a'; b] _ _)).
  - apply (bool_decide_unpack _). vm_compute. exact I.
  - apply (bool_decide_unpack _). vm_compute. exact I.
Defined.

(** ** Provided fields and the request body *)
Section ProvidedFields.
Import Resolve Payloads.

(** Provided fields are brought into one form, the four buckets [path],
    [query], [header] and [body]; fields in that form are left as they
    are; and fields that name none of the buckets all go to the body. *)
Theorem provided_fields_normal_form (provided_fields : dict) :
  let normalized := _normalize_provided_fields provided_fields in
  dkeys normalized = ["path"; "query"; "header"; "body"]
  /\ _normalize_provided_fields normalized = normalized
  /\ (Forall (fun key => dhas key provided_fields = false)
        ["path"; "query"; "header"; "body"; "parameters"] ->
      normalized
      = [("path", JDict []); ("query", JDict []); ("header", JDict []);
         ("body", JDict provided_fields)]).
Proof.
  cbn zeta. unfold _normalize_provided_fields.
  split; [|split].
  - destruct (existsb _ _); [|done]. by destruct (pyget "parameters" provided_fields).
  - destruct (existsb (fun key => dhas key provided_fields) _); [|done].
    by destruct (pyget "parameters" provided_fields).
  - intros Hnone. rewrite Forall_forall in Hnone.
    assert (Hno : existsb (fun key => dhas key provided_fields)
                    ["path"; "query"; "header"; "body"; "parameters"] = false).
    { cbn [existsb]. rewrite !Hnone; [done | | | | |]; set_solver. }
    by rewrite Hno.
Qed.

(** The body an operation declares is described with a content type of
    the operation: [application/json] when that is declared, and the
    least declared content type otherwise; with whether the body is
    required; and with the schema of that content type, resolved, or
    [None] when the content type has no mapping for a schema. *)
Theorem extract_request_body_content_type (operation spec body : json) :
  _extract_request_body operation spec = Ok body ->
  body = JNull
  \/ exists op request content content_type schema,
       operation = JDict op /\ pyget "requestBody" op = JDict request
       /\ pyget "content" request = JDict content
       /\ body = JDict [("required",
                         JBool (truthy (pyget_default "required" (JBool false) request)));
                        ("contentType", JStr content_type);
                        ("schema", schema)]
       /\ content_type ∈ dkeys content
       /\ (dhas "application/json" content = true -> content_type = "application/json")
       /\ (dhas "application/json" content = false ->
           forall key, key ∈ dkeys content -> String.leb content_type key = true)
       /\ (schema = JNull
           \/ exists media,
                pyget content_type content = JDict media
                /\ is_dict (pyget "schema" media) = true
                /\ deep_resolve_refs (pyget "schema" media) spec = Ok schema).
Proof.
  unfold _extract_request_body.
  destruct operation as [| | | | | |op]; try (intros [= <-]; by left).
  destruct (pyget "requestBody" op) as [| | | | | |request] eqn:Erequest;
    try (intros [= <-]; by left).
  destruct (pyget "content" request) as [| | | | | |content] eqn:Econtent;
    try (intros [= <-]; by left).
  destruct (truthy (JDict content)) eqn:Etruthy; cbn [negb]; [|intros [= <-]; by left].
  set (content_type := if dhas "application/json" content then "application/json"
                       else hd "" (sorted_strings (dkeys content))).
  assert (Hct : content_type ∈ dkeys content
                /\ (dhas "application/json" content = true
                    -> content_type = "application/json")
                /\ (dhas "application/json" content = false ->
                    forall key, key ∈ dkeys content -> String.leb content_type key = true)).
  { subst content_type. destruct (dhas "application/json" content) eqn:Ejson.
    - split; [by apply dkeys_elem_of|]. split; [done | discriminate].
    - assert (Hsorted : StronglySorted (leb_rel String.leb) (sorted_strings (dkeys content))).
      { apply Sorted_StronglySorted.
        - intros a b c. apply string_leb_trans.
        - apply (py_sorted_sorted String.leb), String.leb_total. }
      assert (Hperm : forall key, key ∈ sorted_strings (dkeys content)
                                  <-> key ∈ dkeys content)
        by (intros key; apply (py_sorted_elem_of String.leb)).
      destruct (sorted_strings (dkeys content)) as [|first rest] eqn:Ekeys.
      + destruct content as [|[k v] content]; [done|]. exfalso.
        assert (Hk : k ∈ []) by (apply Hperm; cbn; by left).
        by apply elem_of_nil in Hk.
      + cbn [hd]. split; [apply Hperm; by left|]. split; [discriminate|].
        intros _ key Hkey%Hperm. apply StronglySorted_inv in Hsorted as [_ Hfirst].
        apply elem_of_cons in Hkey as [->|Hkey].
        * by destruct (String.leb_total first first).
        * rewrite Forall_forall in Hfirst. by apply Hfirst. }
  clearbody content_type.
  destruct (pyget content_type content) as [| | | | | |media] eqn:Emedia;
    try (cbn [mbind result_bind]; intros [= <-]; right;
         exists op, request, content, content_type, JNull;
         repeat (split; [done || apply Hct|]); by left).
  destruct (is_dict (pyget "schema" media)) eqn:Eschema.
  - destruct (deep_resolve_refs (pyget "schema" media) spec) as [schema|e] eqn:Eresolve;
      [|done].
    cbn [mbind result_bind]. intros [= <-]. right.
    exists op, request, content, content_type, schema.
    repeat (split; [done || apply Hct|]). right. by exists media.
  - cbn [mbind result_bind]. intros [= <-]. right.
    exists op, request, content, content_type, JNull.
    repeat (split; [done || apply Hct|]). by left.
Qed.

End ProvidedFields.

(** The body of the operation that creates a pet. *)
Lemma extract_request_body_content_type_witness :
  exists body,
    Payloads._extract_request_body pets_operation JNull = Ok body
    /\ pyget "contentType" match body with JDict d => d | _ => [] end
       = JStr "application/json"
    /\ (body = JNull
        \/ exists op request content content_type schema,
             pets_operation = JDict op /\ pyget "requestBody" op = JDict request
             /\ pyget "content" request = JDict content
             /\ body = JDict [("required",
                               JBool (truthy (pyget_default "required" (JBool false)
                                                request)));
                              ("contentType", JStr content_type);
                              ("schema", schema)]
             /\ content_type ∈ dkeys content
             /\ (dhas "application/json" content = true
                 -> content_type = "application/json")
             /\ (dhas "application/json" content = false ->
                 forall key, key ∈ dkeys content -> String.leb content_type key = true)
             /\ (schema = JNull
                 \/ exists media,
                      pyget content_type content = JDict media
                      /\ is_dict (pyget "schema" media) = true
                      /\ Resolve.deep_resolve_refs (pyget "schema" media) JNull
                         = Ok schema)).
Proof.
  eexists. split; [vm_compute; reflexivity|]. split; [reflexivity|].
  apply (extract_request_body_content_type pets_operation JNull).
  vm_compute; reflexivity.
Defined.

(** ** Schema normalisation *)
Section NormalizedSchemas.
Import Resolve Payloads.
Context (amb : ambient).

Lemma dhas_infer_type (k : string) (d : dict) :
  dhas k d = true -> dhas k (infer_type d) = true.
Proof.
  intros Hk. unfold infer_type.
  destruct (dhas "type" d); cbn [negb]; [done|].
  destruct (is_dict (pyget "properties" d)); [by apply dhas_dset_keep|].
  destruct (is_dict (pyget "items" d)); [by apply dhas_dset_keep | done].
Qed.

Lemma pyget_infer_type (k : string) (d : dict) :
  k <> "type" -> pyget k (infer_type d) = pyget k d.
Proof.
  intros Hk. unfold infer_type.
  destruct (dhas "type" d); cbn [negb]; [done|].
  destruct (is_dict (pyget "properties" d)); [by apply pyget_dset_ne|].
  destruct (is_dict (pyget "items" d)); [by apply pyget_dset_ne | done].
Qed.

Lemma infer_type_typed (d : dict) :
  is_dict (pyget "properties" (infer_type d)) = true
  \/ is_dict (pyget "items" (infer_type d)) = true ->
  dhas "type" (infer_type d) = true.
Proof.
  rewrite !pyget_infer_type by done. unfold infer_type.
  destruct (dhas "type" d) eqn:Etype; cbn [negb]; [done|].
  destruct (is_dict (pyget "properties" d)); [intros _; apply dhas_dset_same|].
  destruct (is_dict (pyget "items" d)); [intros _; apply dhas_dset_same|].
  by intros [?|?].
Qed.

Lemma dhas_dmerge (k : string) (a b : dict) :
  dhas k (dmerge a b) = dhas k a || dhas k b.
Proof.
  unfold dmerge. revert a. induction b as [|[k' v] b IH]; intros a; cbn [fold_left dhas].
  - by rewrite orb_false_r.
  - rewrite IH. cbn [fst snd]. rewrite dhas_dset.
    destruct (String.eqb k k'), (dhas k a), (dhas k b); done.
Qed.

(** Every key of a schema survives normalisation; a normalised schema
    that has a mapping under [properties] or [items] has a [type]; what
    is not a mapping normalises to the empty schema; and a schema with a
    [type] and no list under [allOf] is left as it is. *)
Theorem normalize_schema_typed (schema : json) :
  let normalized := _normalize_schema amb schema in
  (is_dict schema = false -> normalized = [])
  /\ (forall d k, schema = JDict d -> dhas k d = true -> dhas k normalized = true)
  /\ (is_dict (pyget "properties" normalized) = true
      \/ is_dict (pyget "items" normalized) = true ->
      dhas "type" normalized = true)
  /\ (forall d, schema = JDict d -> dhas "type" d = true ->
        is_list (pyget "allOf" d) = false -> normalized = d).
Proof.
  cbn zeta. pose proof (_normalize_schema_unfold amb schema) as Hrun.
  unfold _normalize_schema_body in Hrun.
  destruct schema as [| | | | | |d];
    try (clear Hrun; cbn; split; [done|]; split; [done|];
         split; [by intros [?|?] | done]).
  assert (Hplain : forall d', _normalize_schema amb (JDict d) = infer_type d' ->
            (forall k, dhas k d = true -> dhas k d' = true) ->
            (forall k, dhas k d = true -> dhas k (_normalize_schema amb (JDict d)) = true)
            /\ (is_dict (pyget "properties" (_normalize_schema amb (JDict d))) = true
                \/ is_dict (pyget "items" (_normalize_schema amb (JDict d))) = true ->
                dhas "type" (_normalize_schema amb (JDict d)) = true)).
  { intros d' -> Hkeys. split; [|apply infer_type_typed].
    intros k Hk. by apply dhas_infer_type, Hkeys. }
  assert (Hfixed : dhas "type" d = true -> infer_type d = d)
    by (intros Htype; unfold infer_type; by rewrite Htype).
  destruct (if dhas "allOf" d then pyget "allOf" d else JNull)
    as [| | | | |subs|other] eqn:Eall;
    try (injection Hrun as Hrun; destruct (Hplain d (eq_sym Hrun)) as [H1 H2]; [done|];
         split; [done|]; split; [intros d1 k [= <-]; apply H1|]; split; [done|];
         intros d1 [= <-] Htype _; rewrite <- Hrun; by apply Hfixed).
  destruct (allof_loop _ _ subs) as [[[merged properties] required]|]; [|done].
  injection Hrun as Hrun.
  destruct (Hplain _ (eq_sym Hrun)) as [H1 H2].
  { intros k Hk. by rewrite dhas_dmerge, Hk. }
  split; [done|]. split; [intros d1 k [= <-]; apply H1|]. split; [done|].
  intros d1 [= <-] _ Hlist. destruct (dhas "allOf" d); [|done].
  by rewrite Eall in Hlist.
Qed.

End NormalizedSchemas.

(** ** A sidecar that cannot be decoded *)
Section UndecodableSidecar.
Import Engine.
Context (ext : externals CatalogEngine).


End UndecodableSidecar.

